(** * bee-queue: the job entity ([lib/job.js])

    A shallow embedding of the [Job] class: its constructor, the record codec
    ([toData] / [fromData]), the fluent configuration setters, [save] and
    [reportProgress], and the methods that address the stored job ([fromId],
    [remove], [retry], [isInSet]), followed by the properties of the job
    contract.

    Conventions of the embedding.
    - A JavaScript number is [NaN] or an integer [Num z]; the instants,
      intervals, counts and delays the class handles are integers.  Binary64
      arithmetic is exact on integers of magnitude at most 2^53, and a
      conversion answers [None] where the source would leave that range:
      that input is not covered, rather than approximated.  The one place
      where the class computes with fractions, the conversion of an
      interval such as ['1.5m'], is embedded in binary64 itself ([float]),
      with its two roundings.
    - A string is a sequence of code units below 256.
    - An object is the list of its own properties in the order they were
      added, which is the order of enumeration for keys that are not array
      indices.
    - A method that throws keeps the state it had reached: a completion is
      returned next to the job, never instead of it. *)

From Stdlib Require Import ZArith Ascii String DecimalString DecimalFacts
  DecimalPos DecimalN DecimalZ.
From stdpp Require Import base option list gmap strings.

Local Open Scope Z_scope.

(** ** JavaScript values *)

Module JS.

Inductive num : Type :=
| NaN
| Num (z : Z).

#[warnings="-register-all"]
Inductive value : Type :=
| VUndef
| VNull
| VBool (b : bool)
| VNum (n : num)
| VStr (s : string)
| VArr (l : list value)
| VObj (o : list (string * value)).

Abbreviation object := (list (string * value)).

(** Errors that the source raises with [throw new Error(msg)], the
    [TypeError] of a property access or call the value does not support, and
    the [SyntaxError] of [JSON.parse]. *)
Inductive exn : Type :=
| Error (msg : string)
| TypeError
| SyntaxError.

(** The result of a synchronous call.  [Uncovered] marks an input on which
    the source leaves the numeric or structural domain of the embedding. *)
Inductive completion (A : Type) : Type :=
| Normal (a : A)
| Throw (e : exn)
| Uncovered.
Arguments Normal {A} a.
Arguments Throw {A} e.
Arguments Uncovered {A}.

(** ToBoolean. *)
Definition truthy (v : value) : bool :=
  match v with
  | VUndef | VNull => false
  | VBool b => b
  | VNum NaN => false
  | VNum (Num z) => negb (z =? 0)
  | VStr s => negb (String.eqb s "")
  | VArr _ | VObj _ => true
  end.

(** [a || b]. *)
Definition or_else (a b : value) : value := if truthy a then a else b.

(** [v != null]: neither [null] nor [undefined]. *)
Definition not_nullish (v : value) : bool :=
  match v with VUndef | VNull => false | _ => true end.

(** Relational operators on numbers; every comparison with [NaN] is false. *)
Definition num_lt (a b : num) : bool :=
  match a, b with Num x, Num y => x <? y | _, _ => false end.
Definition num_le (a b : num) : bool :=
  match a, b with Num x, Num y => x <=? y | _, _ => false end.
Definition num_gt (a b : num) : bool := num_lt b a.

Definition isNaN (n : num) : bool :=
  match n with NaN => true | Num _ => false end.

Definition MAX_SAFE_INTEGER : Z := 2 ^ 53 - 1.

(** [Number.isSafeInteger(v)]: false on everything that is not a number. *)
Definition isSafeInteger (v : value) : bool :=
  match v with
  | VNum (Num z) => (- MAX_SAFE_INTEGER <=? z) && (z <=? MAX_SAFE_INTEGER)
  | _ => false
  end.

(** The integers of magnitude at most 2^53, all of which binary64
    represents: the range in which [Num] arithmetic is the source's. *)
Definition exact (z : Z) : bool := (- 2 ^ 53 <=? z) && (z <=? 2 ^ 53).

(** *** Objects *)

(** [o[k]] on an object without inherited property of that name. *)
Fixpoint obj_get (k : string) (o : object) : value :=
  match o with
  | [] => VUndef
  | (k', v) :: o' => if String.eqb k k' then v else obj_get k o'
  end.

(** [o[k] = v]: an existing property keeps its place, a new one is added
    last.  Keys that are array indices, which the source enumerates first,
    are not told apart: the properties below compare objects member by
    member, not by their order. *)
Fixpoint obj_set (k : string) (v : value) (o : object) : object :=
  match o with
  | [] => [(k, v)]
  | (k', v') :: o' =>
      if String.eqb k k' then (k, v) :: o' else (k', v') :: obj_set k v o'
  end.

Definition has_key (k : string) (o : object) : bool :=
  existsb (fun kv => String.eqb k (fst kv)) o.

(** *** Strings *)

Definition chars (s : string) : list ascii := list_ascii_of_string s.
Definition text (cs : list ascii) : string := string_of_list_ascii cs.

(** [s.substr(0, 2)]. *)
Definition substr_0_2 (s : string) : string := text (take 2 (chars s)).

(** [s.slice(-1)]: the last code unit, or the empty string. *)
Definition slice_last (s : string) : string :=
  match last (chars s) with
  | Some c => String c EmptyString
  | None => EmptyString
  end.

(** [s.indexOf(c) >= 0] for a one-unit needle. *)
Definition contains (c : ascii) (s : string) : bool :=
  existsb (Ascii.eqb c) (chars s).

(** *** Decimal numerals *)

Definition is_digit (c : ascii) : bool :=
  let n := nat_of_ascii c in (48 <=? n)%nat && (n <=? 57)%nat.

(** StrWhiteSpaceChar among the code units below 256: TAB, LF, VT, FF, CR,
    SP and NBSP. *)
Definition is_space (c : ascii) : bool :=
  let n := nat_of_ascii c in
  ((9 <=? n)%nat && (n <=? 13)%nat) || (n =? 32)%nat || (n =? 160)%nat.

Fixpoint skip_space (cs : list ascii) : list ascii :=
  match cs with
  | c :: cs' => if is_space c then skip_space cs' else cs
  | [] => []
  end.

(** The longest prefix of digits and what follows it. *)
Fixpoint span_digits (cs : list ascii) : list ascii * list ascii :=
  match cs with
  | c :: cs' =>
      if is_digit c
      then let '(ds, r) := span_digits cs' in (c :: ds, r)
      else ([], cs)
  | [] => ([], [])
  end.

(** The value of a digit sequence. *)
Definition digits_value (ds : list ascii) : option Z :=
  match NilEmpty.uint_of_string (text ds) with
  | Some d => Some (Z.of_N (N.of_uint d))
  | None => None
  end.

(** Number::toString on an integer below 10^21 in magnitude: the decimal
    numeral, with a minus sign when negative. *)
Definition decimal (z : Z) : string := NilZero.string_of_int (Z.to_int z).

(** An optional sign: the factor and the rest. *)
Definition read_sign (cs : list ascii) : Z * list ascii :=
  match cs with
  | "-"%char :: r => (-1, r)
  | "+"%char :: r => (1, r)
  | _ => (1, cs)
  end.

(** [parseInt(s, 10)] on a string: leading white space, an optional sign, the
    longest run of digits; [NaN] without a digit.  [None] when the integer
    read is not exactly representable. *)
Definition parseInt_chars (cs : list ascii) : option num :=
  let '(sg, r) := read_sign (skip_space cs) in
  match span_digits r with
  | ([], _) => Some NaN
  | (ds, _) =>
      match digits_value ds with
      | Some n => if exact n then Some (Num (sg * n)) else None
      | None => None
      end
  end.

(** [parseInt(v, 10)]: ToString, then the above.  A number prints as its
    decimal numeral below 10^21 (of which the exact range is part);
    [undefined], [null] and the booleans print as words without a digit.
    Arrays and objects are not covered. *)
Definition parseInt (v : value) : option num :=
  match v with
  | VStr s => parseInt_chars (chars s)
  | VNum NaN => Some NaN
  | VNum (Num z) => if exact z then Some (Num z) else None
  | VUndef | VNull | VBool _ => Some NaN
  | VArr _ | VObj _ => None
  end.

(** *** Binary64 values

    Every finite binary64 value is an integer multiple of 2^-1074, of at
    most 53 significant bits and below 2^1024 in magnitude: [Finite neg n]
    is the value [n * 2^-1074], negated when [neg] (a zero has either
    sign). *)
Inductive float : Type :=
| FNaN
| Finite (negative : bool) (units : Z).

Definition unit_exponent : Z := 1074.

(** [num / den] rounded to the nearest integer, a tie to the even one, for
    [0 <= num] and [0 < den]. *)
Definition rne (num den : Z) : Z :=
  let n := num / den in
  let r := num mod den in
  if 2 * r <? den then n
  else if den <? 2 * r then n + 1
  else if Z.even n then n else n + 1.

(** The units of the binary64 value nearest to [x / q] units, a tie to the
    even significand: below 2^52 units every integer is a value, and from
    there on the values are the integers of 53 bits times a power of
    two. *)
Definition round53 (x q : Z) : Z :=
  let y := x / q in
  if y <? 2 ^ 52 then rne x q
  else let s := Z.log2 y - 52 in rne x (q * 2 ^ s) * 2 ^ s.

(** The binary64 value of [x / q] units; [None] where it is infinite. *)
Definition to_float (negative : bool) (x q : Z) : option float :=
  let n := round53 x q in
  if n <? 2 ^ (1024 + unit_exponent) then Some (Finite negative n) else None.

(** The binary64 value of [m * 10^e]. *)
Definition decimal_value (negative : bool) (m e : Z) : option float :=
  if 0 <=? e then to_float negative (m * 10 ^ e * 2 ^ unit_exponent) 1
  else to_float negative (m * 2 ^ unit_exponent) (10 ^ (- e)).

(** The digits after a dot, if there is a dot. *)
Definition read_fraction (rest : list ascii) : list ascii * list ascii :=
  match rest with
  | "."%char :: r => span_digits r
  | _ => ([], rest)
  end.

(** An exponent part: [e] or [E], an optional sign and at least one digit;
    anything else is no exponent part. *)
Definition read_exponent (rest : list ascii) : option Z :=
  match rest with
  | c :: r =>
      if Ascii.eqb c "e" || Ascii.eqb c "E" then
        let '(sg, r') := read_sign r in
        match span_digits r' with
        | ([], _) => Some 0
        | (es, _) =>
            match digits_value es with
            | Some e => Some (sg * e)
            | None => None
            end
        end
      else Some 0
  | [] => Some 0
  end.

(** [parseFloat(s)]: leading white space, an optional sign, and the longest
    prefix that is a decimal literal (digits, a fraction, an exponent part),
    read as the nearest binary64 value; [NaN] without such a prefix.
    [None] where [Infinity] may be meant and where the value is
    infinite. *)
Definition parseFloat (s : string) : option float :=
  let '(sg, r) := read_sign (skip_space (chars s)) in
  let '(ds, r1) := span_digits r in
  let '(fs, r2) := read_fraction r1 in
  match ds ++ fs with
  | [] =>
      match r with
      | c :: _ => if Ascii.eqb c "I" then None else Some FNaN
      | [] => Some FNaN
      end
  | d :: digits =>
      match digits_value (d :: digits), read_exponent r2 with
      | Some m, Some e =>
          decimal_value (sg <? 0) m (e - Z.of_nat (length fs))
      | _, _ => None
      end
  end.

(** [a * b] for a binary64 value and an integer in the exact range: the
    binary64 value nearest to the product. *)
Definition float_mul (a : float) (b : num) : option float :=
  match a, b with
  | Finite negative n, Num y =>
      to_float (xorb negative (y <? 0)) (n * Z.abs y) 1
  | _, _ => Some FNaN
  end.

(** [parseInt(a)] on a binary64 value (the radix is absent, hence 10):
    ToString, then the digits before the dot.  From 10^-6 on, a value
    prints without exponent, and the digits before the dot are those of its
    integer part: an integer between the value and its shortest numeral
    would be a binary64 value nearer to that numeral.  [None] below 10^-6,
    where the value prints with an exponent, and above the exact range. *)
Definition parseInt_float (a : float) : option num :=
  match a with
  | FNaN => Some NaN
  | Finite negative n =>
      if n =? 0 then Some (Num 0)
      else if n * 10 ^ 6 <? 2 ^ unit_exponent then None
      else let t := n / 2 ^ unit_exponent in
           if exact t then Some (Num (if negative then - t else t))
           else None
  end.

(** ToNumber on the primitives whose conversion is immediate; strings,
    arrays and objects are not covered. *)
Definition to_number (v : value) : option num :=
  match v with
  | VNum n => Some n
  | VUndef => Some NaN
  | VNull => Some (Num 0)
  | VBool b => Some (Num (if b then 1 else 0))
  | VStr _ | VArr _ | VObj _ => None
  end.

(** [v < 0]. *)
Definition lt_zero (v : value) : option bool :=
  match to_number v with
  | Some n => Some (num_lt n (Num 0))
  | None => None
  end.

(** [v <= 0] once [v] is known to be a number. *)
Definition le_zero (v : value) : bool :=
  match v with VNum n => num_le n (Num 0) | _ => false end.

End JS.

(** ** JSON text

    [JSON.stringify] and [JSON.parse] on the values above, character by
    character.  Numbers are integer numerals: the parser does not cover a
    numeral with a fraction or an exponent. *)

Module JSON.
Import JS.

Definition dquote : ascii := ascii_of_nat 34.
Definition backslash : ascii := ascii_of_nat 92.

Definition hex_digit (n : nat) : ascii :=
  nth n (chars "0123456789abcdef") "0"%char.

(** QuoteJSONString, one code unit. *)
Definition quote_char (c : ascii) : list ascii :=
  let n := nat_of_ascii c in
  if (n =? 34)%nat then [backslash; dquote]
  else if (n =? 92)%nat then [backslash; backslash]
  else if (n =? 8)%nat then [backslash; "b"%char]
  else if (n =? 12)%nat then [backslash; "f"%char]
  else if (n =? 10)%nat then [backslash; "n"%char]
  else if (n =? 13)%nat then [backslash; "r"%char]
  else if (n =? 9)%nat then [backslash; "t"%char]
  else if (n <? 32)%nat
       then [backslash; "u"%char; "0"%char; "0"%char;
             hex_digit (n / 16); hex_digit (n mod 16)]
  else [c].

Definition quote (s : string) : list ascii :=
  dquote :: flat_map quote_char (chars s) ++ [dquote].

(** Items separated by commas. *)
Fixpoint join (items : list (list ascii)) : list ascii :=
  match items with
  | [] => []
  | [x] => x
  | x :: rest => x ++ ","%char :: join rest
  end.

(** The printed elements of an array: an element that does not print is
    printed as [null]. *)
Definition elements_with (f : value -> option (list ascii))
  : list value -> list (list ascii) :=
  List.map (fun x => default (chars "null") (f x)).

(** The printed members of an object: a member whose value does not print
    is left out. *)
Definition members_with (f : value -> option (list ascii))
  : object -> list (list ascii) :=
  fix members (o : object) : list (list ascii) :=
    match o with
    | [] => []
    | (k, x) :: o' =>
        match f x with
        | Some t => (quote k ++ ":"%char :: t) :: members o'
        | None => members o'
        end
    end.

(** SerializeJSONProperty: [None] is the [undefined] that makes the caller
    drop an object member, print [null] for an array element, or return
    [undefined] at top level.  A number is printed as its numeral, which is
    what the source prints in the exact range; the properties below are
    about numbers of that range. *)
Fixpoint ser (v : value) : option (list ascii) :=
  match v with
  | VUndef => None
  | VNull => Some (chars "null")
  | VBool b => Some (chars (if b then "true" else "false"))
  | VNum NaN => Some (chars "null")
  | VNum (Num z) => Some (chars (decimal z))
  | VStr s => Some (quote s)
  | VArr l => Some ("["%char :: join (elements_with ser l) ++ ["]"%char])
  | VObj o => Some ("{"%char :: join (members_with ser o) ++ ["}"%char])
  end.

(** [JSON.stringify(v)]: a string, or [undefined]. *)
Definition stringify (v : value) : value :=
  match ser v with
  | Some cs => VStr (text cs)
  | None => VUndef
  end.

(** [JSON.stringify] of an object literal, which always prints. *)
Definition stringify_object (o : object) : string :=
  text (default [] (ser (VObj o))).

(** *** Parsing *)

Definition bindc {A B} (c : completion A) (f : A -> completion B)
  : completion B :=
  match c with
  | Normal a => f a
  | Throw e => Throw e
  | Uncovered => Uncovered
  end.

Notation "'let*' p ':=' c 'in' k" := (bindc c (fun p => k))
  (at level 10, p pattern, c at level 100, k at level 200).

Definition is_ws (c : ascii) : bool :=
  let n := nat_of_ascii c in
  (n =? 32)%nat || (n =? 9)%nat || (n =? 10)%nat || (n =? 13)%nat.

Fixpoint skip_ws (cs : list ascii) : list ascii :=
  match cs with
  | c :: cs' => if is_ws c then skip_ws cs' else cs
  | [] => []
  end.

Definition hex_value (c : ascii) : option nat :=
  let n := nat_of_ascii c in
  if (48 <=? n)%nat && (n <=? 57)%nat then Some (n - 48)%nat
  else if (97 <=? n)%nat && (n <=? 102)%nat then Some (n - 87)%nat
  else if (65 <=? n)%nat && (n <=? 70)%nat then Some (n - 55)%nat
  else None.

(** The code unit of a [\uXXXX] escape; units from 256 on are not covered. *)
Definition unicode_escape (a b c d : ascii) : completion ascii :=
  match hex_value a, hex_value b, hex_value c, hex_value d with
  | Some x, Some y, Some z, Some w =>
      if ((x =? 0) && (y =? 0))%nat
      then Normal (ascii_of_nat (16 * z + w))
      else Uncovered
  | _, _, _, _ => Throw SyntaxError
  end.

(** The single-character escapes. *)
Definition simple_escape (e : ascii) : option ascii :=
  let n := nat_of_ascii e in
  if (n =? 34)%nat then Some dquote
  else if (n =? 92)%nat then Some backslash
  else if (n =? 47)%nat then Some "/"%char
  else if (n =? 98)%nat then Some (ascii_of_nat 8)
  else if (n =? 102)%nat then Some (ascii_of_nat 12)
  else if (n =? 110)%nat then Some (ascii_of_nat 10)
  else if (n =? 114)%nat then Some (ascii_of_nat 13)
  else if (n =? 116)%nat then Some (ascii_of_nat 9)
  else None.

(** The characters of a string literal after its opening quote, and what
    follows the closing quote. *)
Fixpoint parse_string (cs : list ascii)
  : completion (list ascii * list ascii) :=
  match cs with
  | [] => Throw SyntaxError
  | c :: r =>
      if Ascii.eqb c dquote then Normal ([], r)
      else if Ascii.eqb c backslash then
        match r with
        | [] => Throw SyntaxError
        | e :: r1 =>
            match simple_escape e with
            | Some x =>
                let* (s, r') := parse_string r1 in Normal (x :: s, r')
            | None =>
                if Ascii.eqb e "u" then
                  match r1 with
                  | h1 :: h2 :: h3 :: h4 :: r2 =>
                      let* x := unicode_escape h1 h2 h3 h4 in
                      let* (s, r') := parse_string r2 in Normal (x :: s, r')
                  | _ => Throw SyntaxError
                  end
                else Throw SyntaxError
            end
        end
      else if (nat_of_ascii c <? 32)%nat then Throw SyntaxError
      else let* (s, r') := parse_string r in Normal (c :: s, r')
  end.

(** A numeral may start with 0 only if it is 0. *)
Definition leading_zero (ds : list ascii) : bool :=
  match ds with
  | c :: _ :: _ => Ascii.eqb c "0"
  | _ => false
  end.

(** What may not follow an integer numeral in the embedding: the start of a
    fraction or of an exponent. *)
Definition starts_fraction (rest : list ascii) : bool :=
  match rest with
  | c :: _ => Ascii.eqb c "." || Ascii.eqb c "e" || Ascii.eqb c "E"
  | [] => false
  end.

(** An integer numeral; [sg] is the sign already read. *)
Definition parse_number (sg : Z) (cs : list ascii)
  : completion (value * list ascii) :=
  match span_digits cs with
  | ([], _) => Throw SyntaxError
  | (ds, rest) =>
      if leading_zero ds then Throw SyntaxError
      else if starts_fraction rest then Uncovered
      else match digits_value ds with
           | Some n =>
               if exact n then Normal (VNum (Num (sg * n)), rest)
               else Uncovered
           | None => Throw SyntaxError
           end
  end.

Definition expect (w : string) (v : value) (cs : list ascii)
  : completion (value * list ascii) :=
  let n := String.length w in
  if String.eqb (text (take n cs)) w then Normal (v, drop n cs)
  else Throw SyntaxError.

(** A value, the elements of an array after its first bracket, the members
    of an object after its first brace.  [fuel] bounds the nesting and the
    number of items. *)
Fixpoint parse_value (fuel : nat) (cs : list ascii)
  : completion (value * list ascii) :=
  match fuel with
  | O => Uncovered
  | S fuel' =>
      match skip_ws cs with
      | [] => Throw SyntaxError
      | c :: r =>
          if Ascii.eqb c "n" then expect "null" VNull (c :: r)
          else if Ascii.eqb c "t" then expect "true" (VBool true) (c :: r)
          else if Ascii.eqb c "f" then expect "false" (VBool false) (c :: r)
          else if Ascii.eqb c dquote then
            let* (s, r') := parse_string r in Normal (VStr (text s), r')
          else if Ascii.eqb c "-" then parse_number (-1) r
          else if is_digit c then parse_number 1 (c :: r)
          else if Ascii.eqb c "[" then
            match skip_ws r with
            | c' :: r' =>
                if Ascii.eqb c' "]" then Normal (VArr [], r')
                else let* (l, r'') := parse_elements fuel' r in
                     Normal (VArr l, r'')
            | [] => Throw SyntaxError
            end
          else if Ascii.eqb c "{" then
            match skip_ws r with
            | c' :: r' =>
                if Ascii.eqb c' "}" then Normal (VObj [], r')
                else let* (o, r'') := parse_members fuel' r [] in
                     Normal (VObj o, r'')
            | [] => Throw SyntaxError
            end
          else Throw SyntaxError
      end
  end
with parse_elements (fuel : nat) (cs : list ascii)
  : completion (list value * list ascii) :=
  match fuel with
  | O => Uncovered
  | S fuel' =>
      let* (v, r) := parse_value fuel' cs in
      match skip_ws r with
      | c :: r' =>
          if Ascii.eqb c "," then
            let* (l, r'') := parse_elements fuel' r' in Normal (v :: l, r'')
          else if Ascii.eqb c "]" then Normal ([v], r')
          else Throw SyntaxError
      | [] => Throw SyntaxError
      end
  end
with parse_members (fuel : nat) (cs : list ascii) (acc : object)
  : completion (object * list ascii) :=
  match fuel with
  | O => Uncovered
  | S fuel' =>
      match skip_ws cs with
      | c :: r =>
          if Ascii.eqb c dquote then
            let* (k, r1) := parse_string r in
            match skip_ws r1 with
            | c1 :: r2 =>
                if Ascii.eqb c1 ":" then
                  let* (v, r3) := parse_value fuel' r2 in
                  let acc' := obj_set (text k) v acc in
                  match skip_ws r3 with
                  | c3 :: r4 =>
                      if Ascii.eqb c3 "," then parse_members fuel' r4 acc'
                      else if Ascii.eqb c3 "}" then Normal (acc', r4)
                      else Throw SyntaxError
                  | [] => Throw SyntaxError
                  end
                else Throw SyntaxError
            | [] => Throw SyntaxError
            end
          else Throw SyntaxError
      | [] => Throw SyntaxError
      end
  end.

(** [JSON.parse(s)]. *)
Definition parse (s : string) : completion value :=
  let cs := chars s in
  let* (v, r) := parse_value (S (length cs)) cs in
  match skip_ws r with
  | [] => Normal v
  | _ :: _ => Throw SyntaxError
  end.

End JSON.

(** ** The queue, as the job sees it

    [lib/queue.js] is a collaborator of the class: a job reads the queue's
    settings and derives its store keys with [toKey]; both are taken as
    given. *)

Module Queue.
Import JS.

Record Settings : Type := {
  removeOnSuccess : value;
  removeOnFailure : value;
  activateDelayedJobs : value;
  storeJobs : value
}.

Record t : Type := {
  toKey : string -> string;
  settings : Settings
}.

End Queue.

(** ** The job *)

Module Job.
Import JS JSON.

(** The fields of a [Job] instance; [queue] is the constant reference every
    method receives as [q].  [count] is an optional property: [None] is its
    absence.  The listeners that the class inherits from [EventEmitter] are
    not part of the record: no method below reads them. *)
Record t : Type := {
  id : value;
  progress : value;
  data : value;
  options : object;
  status : value;
  count : option value
}.

Definition with_id (v : value) (j : t) : t :=
  {| id := v; progress := progress j; data := data j;
     options := options j; status := status j; count := count j |}.
Definition with_progress (v : value) (j : t) : t :=
  {| id := id j; progress := v; data := data j;
     options := options j; status := status j; count := count j |}.
Definition with_options (o : object) (j : t) : t :=
  {| id := id j; progress := progress j; data := data j;
     options := o; status := status j; count := count j |}.
Definition with_status (v : value) (j : t) : t :=
  {| id := id j; progress := progress j; data := data j;
     options := options j; status := v; count := count j |}.
Definition with_count (v : value) (j : t) : t :=
  {| id := id j; progress := progress j; data := data j;
     options := options j; status := status j; count := Some v |}.

(** [this.count], [undefined] when the property is absent. *)
Definition get_count (j : t) : value := default VUndef (count j).

(** [this.options.k = v]. *)
Definition set_option (k : string) (v : value) (j : t) : t :=
  with_options (obj_set k v (options j)) j.

(** *** Constructor *)

(** [new Job(queue, jobId, data, options)] at the instant [now].  A truthy
    primitive for [options] makes the first property assignment throw (the
    file is in strict mode); an array is not covered. *)
Definition new (now : Z) (jobId data options : value) : completion t :=
  match or_else options (VObj []) with
  | VObj o =>
      let o1 :=
        obj_set "timestamp"
          (or_else (obj_get "timestamp" o) (VNum (Num now))) o in
      let o2 :=
        obj_set "stacktraces"
          (or_else (obj_get "stacktraces" o1) (VArr [])) o1 in
      Normal {| id := jobId;
                progress := VNum (Num 0);
                data := or_else data (VObj []);
                options := o2;
                status := VStr "created";
                count := None |}
  | VArr _ => Uncovered
  | _ => Throw TypeError
  end.

(** *** The record codec *)

(** [d.k] for one of the record's keys on a parsed value: [null] has no
    properties, and no other non-object has one of these names. *)
Definition field (k : string) (d : value) : completion value :=
  match d with
  | VObj o => Normal (obj_get k o)
  | VNull | VUndef => Throw TypeError
  | _ => Normal VUndef
  end.

Definition fromData (now : Z) (jobId : value) (data : string)
  : completion t :=
  let* d := JSON.parse data in
  let* d_data := field "data" d in
  let* d_options := field "options" d in
  let* job := new now jobId d_data d_options in
  let* d_status := field "status" d in
  let job := with_status d_status job in
  let* d_count := field "count" d in
  Normal (if truthy d_count then with_count d_count job else job).

(** The object that [toData] prints. *)
Definition record (j : t) : object :=
  let d := [("data", data j);
            ("options", VObj (options j));
            ("status", status j)]%string in
  if truthy (get_count j) then obj_set "count" (get_count j) d else d.

Definition toData (j : t) : string := stringify_object (record j).

(** *** Configuration setters

    A setter runs on the job and completes with [this] or throws; the job it
    leaves behind is returned in both cases. *)

Inductive self : Type := This.

Definition M (A : Type) : Type := t -> completion A * t.

Definition ret {A} (a : A) : M A := fun j => (Normal a, j).
Definition throw {A} (e : exn) : M A := fun j => (Throw e, j).
Definition uncovered {A} : M A := fun j => (Uncovered, j).
Definition get : M t := fun j => (Normal j, j).
Definition modify (f : t -> t) : M unit := fun j => (Normal tt, f j).
Definition bind {A B} (m : M A) (f : A -> M B) : M B :=
  fun j =>
    match m j with
    | (Normal a, j') => f a j'
    | (Throw e, j') => (Throw e, j')
    | (Uncovered, j') => (Uncovered, j')
    end.
Definition lift_opt {A} (c : option A) : M A :=
  fun j => (match c with Some a => Normal a | None => Uncovered end, j).
Definition when (b : bool) (m : M unit) : M unit :=
  if b then m else ret tt.

Notation "'do*' p ':=' c 'in' k" := (bind c (fun p => k))
  (at level 10, p pattern, c at level 100, k at level 200).
Notation "c ';;' k" := (bind c (fun _ => k))
  (at level 100, k at level 200, right associativity).

Definition setId (id' : value) : M self :=
  match id' with
  | VStr s =>
      when (String.eqb (substr_0_2 s) "r:")
        (throw
           (Error "IDs starting with r: are reserved for recurring jobs."));;
      modify (with_id id');;
      ret This
  | _ => throw TypeError
  end.

Definition multiplier : object :=
  [("s", VNum (Num 1000)); ("m", VNum (Num 60000));
   ("h", VNum (Num 3600000)); ("d", VNum (Num 86400000))]%string.

(** The first statement of [setInterval]: a string is converted, anything
    else is kept. *)
Definition convert_interval (interval : value) : M value :=
  match interval with
  | VStr s =>
      let m := obj_get (slice_last s) multiplier in
      when (negb (truthy m))
        (throw (Error "only valid suffixes are s, m, h, and d."));;
      match m with
      | VNum mn =>
          do* f := lift_opt (parseFloat s) in
          do* p := lift_opt (float_mul f mn) in
          do* r := lift_opt (parseInt_float p) in
          ret (VNum r)
      | _ => uncovered
      end
  | _ => ret interval
  end.

(** [this.id.indexOf(':') >= 0]: strings and arrays have [indexOf]; the
    continuation with an array id is not covered. *)
Definition id_has_colon (v : value) : M bool :=
  match v with
  | VStr s => ret (contains ":" s)
  | VArr _ => uncovered
  | _ => throw TypeError
  end.

(** ['r:' + interval + ':' + this.id] for a safe integer and a string. *)
Definition recurring_id (interval : Z) (suffix : string) : string :=
  "r:" +:+ decimal interval +:+ ":" +:+ suffix.

Definition setInterval (q : Queue.t) (now : Z) (interval : value) : M self :=
  do* interval := convert_interval interval in
  when (negb (isSafeInteger interval) || le_zero interval)
    (throw (Error "interval must be a positive integer"));;
  when (truthy (or_else (Queue.removeOnSuccess (Queue.settings q))
                        (Queue.removeOnFailure (Queue.settings q))))
    (throw (Error "Recurring jobs can not be removed OnSuccess/OnFailure."));;
  do* this := get in
  modify (with_id (or_else (id this) (VStr "")));;
  do* this := get in
  do* colon := id_has_colon (id this) in
  when colon (throw (Error "ID can not have a colon"));;
  match interval, id this with
  | VNum (Num ms), VStr suffix =>
      modify (with_id (VStr (recurring_id ms suffix)));;
      do* this := get in
      modify (set_option "delay"
                (or_else (obj_get "delay" (options this))
                         (VNum (Num (now + 1)))));;
      ret This
  | _, _ => uncovered
  end.

Definition retries (n : value) : M self :=
  do* neg := lift_opt (lt_zero n) in
  when neg (throw (Error "Retries cannot be negative"));;
  modify (set_option "retries" n);;
  ret This.

(** The argument of [delayUntil]: an object with a [getTime] method, of which
    the embedding keeps the number the method returns, or another value. *)
Inductive instant : Type :=
| DateLike (getTime : num)
| Plain (v : value).

(** The first statement of [delayUntil]: the number of a date-like object,
    else [parseInt(timestamp, 10)]. *)
Definition instant_number (timestamp : instant) : option num :=
  match timestamp with
  | DateLike getTime => Some getTime
  | Plain v => parseInt v
  end.

Definition delayUntil (now : Z) (timestamp : instant) : M self :=
  do* timestamp := lift_opt (instant_number timestamp) in
  when (isNaN timestamp || num_lt timestamp (Num 0))
    (throw (Error "invalid delay timestamp"));;
  when (num_gt timestamp (Num now))
    (modify (set_option "delay" (VNum timestamp)));;
  ret This.

Definition timeout (ms : value) : M self :=
  do* neg := lift_opt (lt_zero ms) in
  when neg (throw (Error "Timeout cannot be negative"));;
  modify (set_option "timeout" ms);;
  ret This.

(** [strategies.has(strategy)] on the registry of [lib/backoff.js], a map
    keyed by strategy names. *)
Definition has (strategies : list string) (strategy : value) : bool :=
  match strategy with
  | VStr s => existsb (String.eqb s) strategies
  | _ => false
  end.

(** [delay <= 0] is reached only for a safe integer. *)
Definition backoff (strategies : list string) (strategy delay : value)
  : M self :=
  when (negb (has strategies strategy)) (throw (Error "unknown strategy"));;
  when (negb (isSafeInteger delay) || le_zero delay)
    (throw (Error "delay must be a positive integer"));;
  modify (set_option "backoff"
            (VObj [("strategy", strategy); ("delay", delay)]%string));;
  ret This.

(** A call of one of the six configuration setters. *)
Inductive setter : Type :=
| SetId (id' : value)
| SetInterval (interval : value)
| Retries (n : value)
| DelayUntil (timestamp : instant)
| SetTimeout (ms : value)
| Backoff (strategy delay : value).

(** The call on a job of queue [q], at the instant [now], with the backoff
    registry [strategies]. *)
Definition call (strategies : list string) (q : Queue.t) (now : Z)
    (c : setter) : M self :=
  match c with
  | SetId id' => setId id'
  | SetInterval interval => setInterval q now interval
  | Retries n => retries n
  | DelayUntil timestamp => delayUntil now timestamp
  | SetTimeout ms => timeout ms
  | Backoff strategy delay => backoff strategies strategy delay
  end.

End Job.

(** ** Asynchronous methods

    [save] and [reportProgress] return a promise.  A promise is either
    settled, or waits for the answer to a request sent to the store, or has
    a callback to run; a callback runs against the job as it is at that
    moment, may change it, and may call into the queue.  The optional [cb]
    argument, which only forwards the outcome of the promise, is left
    out. *)

Module Async.
Import JS JSON.

(** Requests whose answer is awaited. *)
Inductive request : Type :=
| EvalScript (name : string) (numkeys : Z) (args : list value)
| Commandable
| Publish (channel payload : string).

(** Calls into the queue made from a callback, without an answer. *)
Inductive effect : Type :=
| Schedule (instant : value)
| JobsSet (jobId : value).

Inductive promise (A : Type) : Type :=
| Fulfilled (a : A)
| Rejected (e : exn)
| Await (r : request) (k : value -> promise A)
| Run (f : Job.t -> Job.t * list effect) (k : Job.t -> promise A).
Arguments Fulfilled {A} a.
Arguments Rejected {A} e.
Arguments Await {A} r k.
Arguments Run {A} f k.

(** [p.then(cb)] for a callback that returns a plain value: [cb] gives the
    change to the job and the calls it makes, [res] the value returned; both
    see the job as it is when the callback starts. *)
Fixpoint then_ {A B} (p : promise A)
    (cb : A -> Job.t -> Job.t * list effect) (res : A -> Job.t -> B)
  : promise B :=
  match p with
  | Fulfilled a => Run (cb a) (fun j => Fulfilled (res a j))
  | Rejected e => Rejected e
  | Await r k => Await r (fun v => then_ (k v) cb res)
  | Run f k => Run f (fun j => then_ (k j) cb res)
  end.

(** [queue._evalScript(name, numkeys, ...args)]. *)
Definition evalScript (name : string) (numkeys : Z) (args : list value)
  : promise value :=
  Await (EvalScript name numkeys args) Fulfilled.

Definition save (q : Queue.t) (this : Job.t) : promise Job.self :=
  let toKey := fun k => VStr (Queue.toKey q k) in
  let promise :=
    if truthy (obj_get "delay" (Job.options this)) then
      let promise :=
        evalScript "addDelayedJob" 4
          [toKey "id"; toKey "jobs"; toKey "delayed"; toKey "earlierDelayed";
           or_else (Job.id this) (VStr ""); VStr (Job.toData this);
           obj_get "delay" (Job.options this)]%string in
      if truthy (Queue.activateDelayedJobs (Queue.settings q)) then
        then_ promise
          (fun jobId this =>
             (this,
              if truthy jobId
              then [Schedule (obj_get "delay" (Job.options this))]
              else []))
          (fun jobId _ => jobId)
      else promise
    else
      evalScript "addJob" 3
        [toKey "id"; toKey "jobs"; toKey "waiting";
         or_else (Job.id this) (VStr ""); VStr (Job.toData this)]%string in
  then_ promise
    (fun jobId this =>
       (Job.with_id jobId this,
        if truthy jobId && truthy (Queue.storeJobs (Queue.settings q))
        then [JobsSet jobId]
        else []))
    (fun _ _ => Job.This).

(** The payload of a progress notification. *)
Definition progress_payload (this : Job.t) (progress : value) : string :=
  stringify_object
    [("id", Job.id this); ("event", VStr "progress");
     ("data", progress)]%string.

(** [reportProgress(progress)]: the job after the synchronous part, and the
    promise returned.  The method does not throw. *)
Definition reportProgress (q : Queue.t) (progress : value) (this : Job.t)
  : Job.t * promise value :=
  if not_nullish progress then
    (Job.with_progress progress this,
     Await Commandable (fun client =>
       Run (fun this => (this, [])) (fun this =>
         Await (Publish (Queue.toKey q "events")
                        (progress_payload this progress))
               Fulfilled)))
  else (this, Rejected (Error "Progress cannot be empty")).

(** *** Running a promise against the store *)

Inductive event : Type :=
| Sent (r : request)
| Answered (a : exn + value)
| Called (e : effect).

Record outcome (S A : Type) : Type := {
  settled : exn + A;
  job : Job.t;
  store : S;
  trace : list event
}.
Arguments settled {S A} o.
Arguments job {S A} o.
Arguments store {S A} o.
Arguments trace {S A} o.

Section Run.
Context {S : Type}.
(** The store: how it answers a request and what it becomes. *)
Variable exec : request -> S -> (exn + value) * S.

Fixpoint run {A} (p : promise A) (s : S) (j : Job.t) (tr : list event)
  : outcome S A :=
  match p with
  | Fulfilled a =>
      {| settled := inr a; job := j; store := s; trace := tr |}
  | Rejected e =>
      {| settled := inl e; job := j; store := s; trace := tr |}
  | Await r k =>
      match exec r s with
      | (inr v, s') => run (k v) s' j (tr ++ [Sent r; Answered (inr v)])
      | (inl e, s') =>
          {| settled := inl e; job := j; store := s';
             trace := tr ++ [Sent r; Answered (inl e)] |}
      end
  | Run f k =>
      let '(j', effs) := f j in
      run (k j) s j' (tr ++ List.map Called effs)
  end.

End Run.

(** The requests of a trace, in order. *)
Fixpoint requests (tr : list event) : list request :=
  match tr with
  | Sent r :: tr' => r :: requests tr'
  | _ :: tr' => requests tr'
  | [] => []
  end.

(** The answers of a trace, in order. *)
Fixpoint answers (tr : list event) : list (exn + value) :=
  match tr with
  | Answered a :: tr' => a :: answers tr'
  | _ :: tr' => answers tr'
  | [] => []
  end.

(** The notifications of a trace: channel and payload. *)
Fixpoint published (tr : list event) : list (string * string) :=
  match tr with
  | Sent (Publish c p) :: tr' => (c, p) :: published tr'
  | _ :: tr' => published tr'
  | [] => []
  end.

End Async.

(** ** Methods that address the stored job

    [fromId], [remove], [retry] and [isInSet] send commands about a job id
    and assign no field of the job.  A promise here is settled, outside the
    embedding, waiting for an answer, or about to run a callback that reads
    the job as it is at that moment. *)

Module Client.
Import JS JSON.

(** The commands queued on a transaction ([client.multi()]). *)
Inductive command : Type :=
| SRem (key : string) (member : value)
| LPush (key : string) (element : value).

(** Requests whose answer is awaited: the connection of the queue, the
    commands of the client, and [queue.removeJob]. *)
Inductive request : Type :=
| Commandable
| HGet (key : string) (field : value)
| Exec (commands : list command)
| SIsMember (key : string) (member : value)
| RemoveJob (jobId : value).

Inductive promise (A : Type) : Type :=
| Fulfilled (a : A)
| Rejected (e : exn)
| Unknown
| Await (r : request) (k : value -> promise A)
| Read (k : Job.t -> promise A).
Arguments Fulfilled {A} a.
Arguments Rejected {A} e.
Arguments Unknown {A}.
Arguments Await {A} r k.
Arguments Read {A} k.

(** [Job.fromId(queue, jobId)], whose last callback runs at the instant
    [now]: [null] is [None].  The answer of [hget] is a string or [null];
    another truthy answer is not covered. *)
Definition fromId (q : Queue.t) (now : Z) (jobId : value)
  : promise (option Job.t) :=
  Await Commandable (fun client =>
    Await (HGet (Queue.toKey q "jobs") jobId) (fun data =>
      if truthy data then
        match data with
        | VStr text =>
            match Job.fromData now jobId text with
            | Normal job => Fulfilled (Some job)
            | Throw e => Rejected e
            | Uncovered => Unknown
            end
        | _ => Unknown
        end
      else Fulfilled None)).

(** [remove()]: the id is read when the method is called. *)
Definition remove (this : Job.t) : promise Job.self :=
  Await (RemoveJob (Job.id this)) (fun _ => Fulfilled Job.This).

(** [retry()]: the id is read when the connection is there. *)
Definition retry (q : Queue.t) : promise value :=
  Await Commandable (fun client =>
    Read (fun this =>
      Await (Exec [SRem (Queue.toKey q "failed") (Job.id this);
                   LPush (Queue.toKey q "waiting") (Job.id this)])
            Fulfilled)).

(** [result === 1]. *)
Definition is_one (result : value) : bool :=
  match result with
  | VNum (Num 1) => true
  | _ => false
  end.

(** [isInSet(set)]. *)
Definition isInSet (q : Queue.t) (set : string) : promise value :=
  Await Commandable (fun client =>
    Read (fun this =>
      Await (SIsMember (Queue.toKey q set) (Job.id this))
            (fun result => Fulfilled (VBool (is_one result))))).

(** *** Running a promise against the store *)

Record outcome (S A : Type) : Type := {
  settled : completion A;
  store : S;
  sent : list request
}.
Arguments settled {S A} o.
Arguments store {S A} o.
Arguments sent {S A} o.

Section Run.
Context {S : Type}.
Variable exec : request -> S -> (exn + value) * S.

(** [Normal] is a fulfilled promise, [Throw] a rejected one; [j] is the job
    that the callbacks find. *)
Fixpoint run {A} (p : promise A) (s : S) (j : Job.t) (tr : list request)
  : outcome S A :=
  match p with
  | Fulfilled a => {| settled := Normal a; store := s; sent := tr |}
  | Rejected e => {| settled := Throw e; store := s; sent := tr |}
  | Unknown => {| settled := Uncovered; store := s; sent := tr |}
  | Await r k =>
      match exec r s with
      | (inr v, s') => run (k v) s' j (tr ++ [r])
      | (inl e, s') => {| settled := Throw e; store := s'; sent := tr ++ [r] |}
      end
  | Read k => run (k j) s j tr
  end.

End Run.

End Client.

(** ** The store's enqueue operations *)

Module Store.
Import JS.

(** Modelled from the spec: the atomic store executor and its two enqueue
    scripts ([addJob], [addDelayedJob]) are not part of [lib/job.js].  Per
    queue the store holds the id sequence, the job table, the waiting
    sequence and the delayed structure ordered by instant. *)
Record t : Type := {
  id_seq : Z;
  jobs : gmap string string;
  waiting : list string;
  delayed : list (Z * string)
}.

(** Modelled from the spec: step (1) of both scripts, "assign a sequential
    id if candidate is empty". *)
Definition assign_id (candidate : string) (s : t) : string * t :=
  if String.eqb candidate ""
  then (decimal (id_seq s + 1),
        {| id_seq := id_seq s + 1; jobs := jobs s;
           waiting := waiting s; delayed := delayed s |})
  else (candidate, s).

(** Modelled from the spec: the "falsy sentinel" that either script returns
    "if not created"; the job tests it against [null]. *)
Definition not_created : value := VNull.

(** Modelled from the spec: the immediate-enqueue operation, which writes
    the encoded record, inserts the id into the waiting sequence and returns
    the id, or the falsy sentinel when the id is already in the table. *)
Definition addJob (candidate encoded : string) (s : t) : value * t :=
  let '(jobId, s1) := assign_id candidate s in
  match jobs s1 !! jobId with
  | Some _ => (not_created, s1)
  | None =>
      (VStr jobId,
       {| id_seq := id_seq s1; jobs := <[jobId := encoded]> (jobs s1);
          waiting := jobId :: waiting s1; delayed := delayed s1 |})
  end.

(** Modelled from the spec: step (3) of the delayed script, "insert the id
    into an ordered delayed structure keyed by delay instant". *)
Fixpoint insert_delayed (at_ : Z) (jobId : string) (l : list (Z * string))
  : list (Z * string) :=
  match l with
  | [] => [(at_, jobId)]
  | (t', j') :: l' =>
      if at_ <? t' then (at_, jobId) :: l
      else (t', j') :: insert_delayed at_ jobId l'
  end.

(** Modelled from the spec: the delayed-enqueue operation, the same
    contract with the delayed structure in place of the waiting sequence. *)
Definition addDelayedJob (candidate encoded : string) (at_ : Z) (s : t)
  : value * t :=
  let '(jobId, s1) := assign_id candidate s in
  match jobs s1 !! jobId with
  | Some _ => (not_created, s1)
  | None =>
      (VStr jobId,
       {| id_seq := id_seq s1; jobs := <[jobId := encoded]> (jobs s1);
          waiting := waiting s1;
          delayed := insert_delayed at_ jobId (delayed s1) |})
  end.

(** Modelled from the spec: the executor answering the requests of a job.
    The keys select the queue, which is this store; a connection is always
    handed out and a notification always accepted. *)
Definition exec (r : Async.request) (s : t) : (exn + value) * t :=
  match r with
  | Async.EvalScript name _ args =>
      match args with
      | [_; _; _; VStr candidate; VStr encoded] =>
          if String.eqb name "addJob"
          then let '(v, s') := addJob candidate encoded s in (inr v, s')
          else (inl (Error "unknown script"), s)
      | [_; _; _; _; VStr candidate; VStr encoded; VNum (Num at_)] =>
          if String.eqb name "addDelayedJob"
          then let '(v, s') := addDelayedJob candidate encoded at_ s in
               (inr v, s')
          else (inl (Error "unknown script"), s)
      | _ => (inl (Error "wrong arguments"), s)
      end
  | Async.Commandable => (inr VNull, s)
  | Async.Publish _ _ => (inr (VNum (Num 0)), s)
  end.

End Store.

(** ** Vocabulary of the properties *)

Import JS JSON.

(** The queue removes its jobs on success or on failure. *)
Definition removes_jobs (q : Queue.t) : Prop :=
  truthy (Queue.removeOnSuccess (Queue.settings q)) = true
  \/ truthy (Queue.removeOnFailure (Queue.settings q)) = true.

(** The guard of [setInterval] on the queue's settings, as it is written. *)
Definition auto_remove (q : Queue.t) : bool :=
  truthy (or_else (Queue.removeOnSuccess (Queue.settings q))
                  (Queue.removeOnFailure (Queue.settings q))).

(** The millisecond value of a unit letter. *)
Definition unit_multiplier (u : ascii) : option Z :=
  if Ascii.eqb u "s" then Some 1000
  else if Ascii.eqb u "m" then Some 60000
  else if Ascii.eqb u "h" then Some 3600000
  else if Ascii.eqb u "d" then Some 86400000
  else None.

(** The candidate id that [save] hands to the store: the job's id, or the
    empty string. *)
Definition candidate (j : Job.t) : value := or_else (Job.id j) (VStr "").

(** The immediate-enqueue operation on the job. *)
Definition immediate_enqueue (q : Queue.t) (j : Job.t) : Async.request :=
  Async.EvalScript "addJob" 3
    [VStr (Queue.toKey q "id"); VStr (Queue.toKey q "jobs");
     VStr (Queue.toKey q "waiting"); candidate j; VStr (Job.toData j)].

(** The delayed-enqueue operation on the job. *)
Definition delayed_enqueue (q : Queue.t) (j : Job.t) : Async.request :=
  Async.EvalScript "addDelayedJob" 4
    [VStr (Queue.toKey q "id"); VStr (Queue.toKey q "jobs");
     VStr (Queue.toKey q "delayed"); VStr (Queue.toKey q "earlierDelayed");
     candidate j; VStr (Job.toData j); obj_get "delay" (Job.options j)].

(** [options.delay] holds a value. *)
Definition delay_set (j : Job.t) : Prop :=
  obj_get "delay" (Job.options j) <> VUndef.

(** [options.delay] is falsy or an integer instant, which is what the
    delayed-enqueue operation of the store accepts. *)
Definition delay_is_instant (j : Job.t) : Prop :=
  truthy (obj_get "delay" (Job.options j)) = false
  \/ exists t, obj_get "delay" (Job.options j) = VNum (Num t).

(** The progress notification of a job: channel and payload. *)
Definition notification (q : Queue.t) (j : Job.t) (v : value)
  : string * string :=
  (Queue.toKey q "events",
   stringify_object
     [("id", Job.id j); ("event", VStr "progress"); ("data", v)]%string).

(** Keys without repetition. *)
Fixpoint distinct (ks : list string) : bool :=
  match ks with
  | [] => true
  | k :: ks' => negb (existsb (String.eqb k) ks') && distinct ks'
  end.

(** Values that JSON text represents without loss: no [undefined], no
    [NaN], integers in the exact range, objects with distinct keys. *)
Fixpoint plain (v : value) : bool :=
  match v with
  | VUndef => false
  | VNull | VBool _ | VStr _ => true
  | VNum NaN => false
  | VNum (Num z) => exact z
  | VArr l => forallb plain l
  | VObj o =>
      forallb (fun kv => plain (snd kv)) o && distinct (List.map fst o)
  end.

(** What may follow a value inside JSON text. *)
Definition follows (rest : list ascii) : Prop :=
  match rest with
  | [] => True
  | c :: _ => c = ","%char \/ c = "]"%char \/ c = "}"%char
  end.

(** A plain value prints to a text that parses back to it, whatever
    follows. *)
Definition prints_back (v : value) : Prop :=
  plain v = true ->
  exists cs,
    ser v = Some cs
    /\ (exists c cs', cs = c :: cs' /\ is_ws c = false
                      /\ Ascii.eqb c "]" = false)
    /\ forall fuel rest, (length cs < fuel)%nat -> follows rest ->
         parse_value fuel (cs ++ rest) = Normal (v, rest).

(** A valid job: plain payload, options, status and count; [data],
    [options.timestamp] and [options.stacktraces] as the constructor leaves
    them, that is truthy; a count, when present, counts at least one
    retry. *)
Definition valid (j : Job.t) : bool :=
  plain (Job.data j) && truthy (Job.data j)
  && plain (VObj (Job.options j))
  && truthy (obj_get "timestamp" (Job.options j))
  && truthy (obj_get "stacktraces" (Job.options j))
  && plain (Job.status j)
  && match Job.count j with
     | None => true
     | Some c => plain c && truthy c
     end.

(** The argument of a setter call is plain, where the setter stores it. *)
Definition plain_argument (c : Job.setter) : bool :=
  match c with
  | Job.Retries n => plain n
  | Job.SetTimeout ms => plain ms
  | Job.DelayUntil (Job.DateLike t) => plain (VNum t) || isNaN t
  | _ => true
  end.

(** The job that decoding the record of [j] under [jobId] builds. *)
Definition decoded (jobId : value) (j : Job.t) : Job.t :=
  {| Job.id := jobId; Job.progress := VNum (Num 0); Job.data := Job.data j;
     Job.options := Job.options j; Job.status := Job.status j;
     Job.count := Job.count j |}.

(** The job without its [count] property. *)
Definition clear_count (j : Job.t) : Job.t :=
  {| Job.id := Job.id j; Job.progress := Job.progress j;
     Job.data := Job.data j; Job.options := Job.options j;
     Job.status := Job.status j; Job.count := None |}.

(** The record of a job in which the [count] key is written out with the
    value [c]. *)
Definition explicit_count (c : value) (j : Job.t) : object :=
  Job.record (clear_count j) ++ [("count"%string, c)].

(** The calls that a trace makes into the queue, in order. *)
Fixpoint calls (tr : list Async.event) : list Async.effect :=
  match tr with
  | Async.Called e :: tr' => e :: calls tr'
  | _ :: tr' => calls tr'
  | [] => []
  end.

(** The one request of [save]: the delayed-enqueue operation for a truthy
    [options.delay], else the immediate one. *)
Definition enqueue (q : Queue.t) (j : Job.t) : Async.request :=
  if truthy (obj_get "delay" (Job.options j))
  then delayed_enqueue q j
  else immediate_enqueue q j.

(** The calls into the queue that follow the answer [jobId] to that
    request: the delayed timer is set for a created job that went through
    the delayed operation, if the queue activates delayed jobs, and the job
    is entered in the queue's job map if the queue stores its jobs. *)
Definition save_calls (q : Queue.t) (j : Job.t) (jobId : value)
  : list Async.effect :=
  (if truthy (obj_get "delay" (Job.options j))
      && truthy (Queue.activateDelayedJobs (Queue.settings q))
      && truthy jobId
   then [Async.Schedule (obj_get "delay" (Job.options j))]
   else [])
  ++ (if truthy jobId && truthy (Queue.storeJobs (Queue.settings q))
      then [Async.JobsSet jobId]
      else []).

(** Setter calls made one after the other as in [job.a(..).b(..)], each at
    its own instant; the first that throws ends the chain. *)
Fixpoint chain (strategies : list string) (q : Queue.t)
    (cs : list (Z * Job.setter)) : Job.M Job.self :=
  match cs with
  | [] => Job.ret Job.This
  | (now, c) :: cs' =>
      Job.bind (Job.call strategies q now c)
        (fun _ => chain strategies q cs')
  end.

(** The characters that start a JSON value. *)
Definition starts_value (c : ascii) : bool :=
  is_digit c || existsb (Ascii.eqb c) (chars "ntf-[{") || Ascii.eqb c dquote.

(** Text that is blank, or whose first character after white space starts
    no JSON value. *)
Definition not_json (text : string) : Prop :=
  match skip_ws (chars text) with
  | [] => True
  | c :: _ => starts_value c = false
  end.

(** The job built from a record without any of the four fields. *)
Definition empty_job (now : Z) (jobId : value) : Job.t :=
  {| Job.id := jobId; Job.progress := VNum (Num 0); Job.data := VObj [];
     Job.options :=
       [("timestamp", VNum (Num now)); ("stacktraces", VArr [])]%string;
     Job.status := VUndef; Job.count := None |}.

(** Text that does not go on with a digit. *)
Definition no_digit_ahead (rest : string) : Prop :=
  match chars rest with
  | c :: _ => is_digit c = false
  | [] => True
  end.

(** A string without a unit letter at its end. *)
Definition no_unit (s : string) : Prop :=
  match last (chars s) with
  | Some u => unit_multiplier u = None
  | None => True
  end.

(** A positive safe integer. *)
Definition safe_positive (z : Z) : Prop := 0 < z <= MAX_SAFE_INTEGER.

(** The members of an object that JSON text keeps, each with the value
    [f] keeps of it. *)
Definition members_kept (f : value -> option value) : object -> object :=
  fix members (o : object) : object :=
    match o with
    | [] => []
    | (k, x) :: o' =>
        match f x with
        | Some y => (k, y) :: members o'
        | None => members o'
        end
    end.

(** What JSON text keeps of a value: nothing of [undefined], [null] of
    [NaN] and of an [undefined] array element, and no object member whose
    value is [undefined]. *)
Fixpoint kept (v : value) : option value :=
  match v with
  | VUndef => None
  | VNum NaN => Some VNull
  | VArr l => Some (VArr (List.map (fun x => default VNull (kept x)) l))
  | VObj o => Some (VObj (members_kept kept o))
  | _ => Some v
  end.

(** Values whose integers are in the exact range and whose objects have
    distinct keys. *)
Fixpoint wellformed (v : value) : bool :=
  match v with
  | VNum (Num z) => exact z
  | VArr l => forallb wellformed l
  | VObj o =>
      forallb (fun kv => wellformed (snd kv)) o && distinct (List.map fst o)
  | _ => true
  end.

(** A job that can be stored: well-formed fields, and [data],
    [options.timestamp] and [options.stacktraces] truthy. *)
Definition storable (j : Job.t) : bool :=
  wellformed (Job.data j) && truthy (Job.data j)
  && wellformed (VObj (Job.options j))
  && truthy (obj_get "timestamp" (Job.options j))
  && truthy (obj_get "stacktraces" (Job.options j))
  && wellformed (Job.status j)
  && wellformed (Job.get_count j).

(** The job that decoding the record of a storable job builds. *)
Definition stored (jobId : value) (j : Job.t) : Job.t :=
  {| Job.id := jobId; Job.progress := VNum (Num 0);
     Job.data := default VUndef (kept (Job.data j));
     Job.options := members_kept kept (Job.options j);
     Job.status := default VUndef (kept (Job.status j));
     Job.count := if truthy (Job.get_count j)
                  then kept (Job.get_count j) else None |}.

(** *** Sample inputs *)

Definition example_queue : Queue.t :=
  {| Queue.toKey := fun k => ("bq:test:" +:+ k)%string;
     Queue.settings :=
       {| Queue.removeOnSuccess := VBool false;
          Queue.removeOnFailure := VBool false;
          Queue.activateDelayedJobs := VBool true;
          Queue.storeJobs := VBool true |} |}.

Definition removing_queue : Queue.t :=
  {| Queue.toKey := Queue.toKey example_queue;
     Queue.settings :=
       {| Queue.removeOnSuccess := VBool true;
          Queue.removeOnFailure := VBool false;
          Queue.activateDelayedJobs := VBool true;
          Queue.storeJobs := VBool true |} |}.

Definition example_options : object :=
  [("timestamp", VNum (Num 1700000000000)); ("stacktraces", VArr [])]%string.

Definition example_job (id' : value) (options : object) : Job.t :=
  {| Job.id := id'; Job.progress := VNum (Num 0); Job.data := VObj [];
     Job.options := options; Job.status := VStr "created";
     Job.count := None |}.

Definition example_store : Store.t :=
  {| Store.id_seq := 7;
     Store.jobs := {[ "abc"%string := "{}"%string ]};
     Store.waiting := ["abc"%string];
     Store.delayed := [] |}.

(** A store that answers every request with the id 1 and counts the
    requests. *)
Definition counting_store (r : Async.request) (n : nat)
  : (exn + value) * nat :=
  (inr (VStr "1"), S n).

Definition duplicate_job : Job.t := example_job (VStr "abc") example_options.

Definition fresh_job : Job.t := example_job (VStr "mail-7") example_options.

Definition zero_delay_job : Job.t :=
  example_job VNull (obj_set "delay" (VNum (Num 0)) example_options).

Definition retried_job : Job.t :=
  {| Job.id := VStr "42"; Job.progress := VNum (Num 70);
     Job.data := VObj [("to", VStr "a@b.c"); ("tags", VArr [VStr "x"; VNull])];
     Job.options :=
       obj_set "retries" (VNum (Num 3)) example_options;
     Job.status := VStr "retrying";
     Job.count := Some (VNum (Num 2)) |}%string.

Definition zero_count_job : Job.t :=
  {| Job.id := VStr "43"; Job.progress := VNum (Num 0);
     Job.data := VObj []; Job.options := example_options;
     Job.status := VStr "created";
     Job.count := Some (VNum (Num 0)) |}.

(** * Properties of the job contract *)

(** ** Values, objects and strings *)

Lemma or_else_truthy (a b : value) : truthy a = true -> or_else a b = a.
Proof. unfold or_else; intros ->; reflexivity. Qed.

Lemma or_else_falsy (a b : value) : truthy a = false -> or_else a b = b.
Proof. unfold or_else; intros ->; reflexivity. Qed.

Lemma with_id_same (j : Job.t) : Job.with_id (Job.id j) j = j.
Proof. destruct j; reflexivity. Qed.

Lemma text_chars (s : string) : text (chars s) = s.
Proof. apply string_of_list_ascii_of_string. Qed.

Lemma chars_text (cs : list ascii) : chars (text cs) = cs.
Proof. apply list_ascii_of_string_of_list_ascii. Qed.

Lemma chars_append (a b : string) : chars (a +:+ b) = chars a ++ chars b.
Proof.
  unfold chars. induction a as [|c a IH]; [reflexivity|].
  change (String c a +:+ b) with (String c (a +:+ b)). cbn. now f_equal.
Qed.

Lemma obj_get_set (k : string) (v : value) (o : object) :
  obj_get k (obj_set k v o) = v.
Proof.
  induction o as [|[k' v'] o IH]; cbn.
  - now rewrite String.eqb_refl.
  - destruct (String.eqb k k') eqn:E; cbn; rewrite ?String.eqb_refl, ?E; auto.
Qed.

Lemma obj_set_get_same (k : string) (o : object) :
  truthy (obj_get k o) = true -> obj_set k (obj_get k o) o = o.
Proof.
  induction o as [|[k' v] o IH]; [discriminate|]. cbn.
  destruct (String.eqb_spec k k') as [->|Hne]; [reflexivity|].
  intros H. now rewrite IH.
Qed.

Lemma existsb_eqb_sym (k : string) (ks : list string) :
  existsb (fun k' => String.eqb k' k) ks = existsb (String.eqb k) ks.
Proof.
  induction ks as [|a ks IH]; cbn; [auto|]. now rewrite IH, String.eqb_sym.
Qed.

Lemma distinct_middle (a b : list string) (k : string) :
  distinct (a ++ k :: b) = true -> existsb (String.eqb k) a = false.
Proof.
  induction a as [|x a IH]; [reflexivity|]. cbn [app distinct existsb].
  intros H. apply andb_true_iff in H as [Hx Ha].
  apply negb_true_iff in Hx. rewrite existsb_app in Hx.
  apply orb_false_elim in Hx as [_ Hx]. cbn [existsb] in Hx.
  apply orb_false_elim in Hx as [Hx _].
  rewrite String.eqb_sym, Hx. now apply IH.
Qed.

Lemma obj_set_fresh (k : string) (v : value) (acc : object) :
  existsb (String.eqb k) (List.map fst acc) = false ->
  obj_set k v acc = acc ++ [(k, v)].
Proof.
  induction acc as [|[k' v'] acc IH]; [reflexivity|]. cbn.
  intros H. apply orb_false_elim in H as [-> H]. now rewrite IH.
Qed.

(** ** Decimal numerals *)

Lemma uint_chars_digits (d : Decimal.uint) :
  forallb is_digit (chars (NilEmpty.string_of_uint d)) = true.
Proof. induction d; cbn; auto. Qed.

Lemma span_digits_app (ds rest : list ascii) :
  forallb is_digit ds = true ->
  match rest with c :: _ => is_digit c = false | [] => True end ->
  span_digits (ds ++ rest) = (ds, rest).
Proof.
  intros Hds Hrest. induction ds as [|c ds IH]; cbn in *.
  - destruct rest as [|c r]; [reflexivity|]. cbn. now rewrite Hrest.
  - apply andb_true_iff in Hds as [Hc Hds]. now rewrite Hc, IH.
Qed.

Lemma uint_digits_value (d : Decimal.uint) :
  digits_value (chars (NilEmpty.string_of_uint d))
  = Some (Z.of_N (N.of_uint d)).
Proof. unfold digits_value. now rewrite text_chars, NilEmpty.usu. Qed.

(** The numeral of a positive number starts with a digit other than 0. *)
Lemma to_uint_head (p : positive) :
  match Pos.to_uint p with
  | Decimal.Nil | Decimal.D0 _ => False
  | _ => True
  end.
Proof.
  assert (Hn : Decimal.unorm (Pos.to_uint p) = Pos.to_uint p).
  { rewrite <- (DecimalPos.Unsigned.to_of (Pos.to_uint p)).
    now rewrite DecimalPos.Unsigned.of_to. }
  pose proof (DecimalPos.Unsigned.to_uint_nonzero p) as Hz.
  pose proof (DecimalPos.Unsigned.to_uint_nonnil p) as Hnil.
  destruct (Pos.to_uint p) as [|d| | | | | | | | |];
    try exact I; try congruence.
  rewrite unorm_D0 in Hn.
  destruct (Decimal.uint_eq_dec d Decimal.Nil) as [->|Hd]; [now apply Hz|].
  pose proof (nb_digits_unorm d Hd) as Hle.
  rewrite Hn in Hle; cbn in Hle; lia.
Qed.

(** The numeral of an integer: its digits, without a leading zero unless it
    is the single digit of 0, and a minus sign in front when negative. *)
Lemma decimal_shape (z : Z) :
  exists ds c0 ds',
    ds = c0 :: ds'
    /\ forallb is_digit ds = true
    /\ (c0 = "0"%char -> ds' = [])
    /\ digits_value ds = Some (Z.abs z)
    /\ chars (decimal z) = if z <? 0 then "-"%char :: ds else ds.
Proof.
  destruct z as [|p|p]; unfold decimal; cbn [Z.to_int Z.abs Z.ltb Z.compare].
  - exists ["0"%char], "0"%char, []. repeat split; reflexivity.
  - pose proof (to_uint_head p) as Hh.
    pose proof (uint_chars_digits (Pos.to_uint p)) as Hd.
    pose proof (uint_digits_value (Pos.to_uint p)) as Hv.
    rewrite DecimalPos.Unsigned.of_to in Hv.
    unfold NilZero.string_of_int, NilZero.string_of_uint.
    destruct (Pos.to_uint p) eqn:E; try contradiction;
      cbn [NilEmpty.string_of_uint chars list_ascii_of_string] in *;
      match type of Hd with
      | forallb is_digit (?c :: ?r) = true => exists (c :: r), c, r
      end;
      (split; [reflexivity|split; [exact Hd|split;
         [intros ?; discriminate|split; [exact Hv|reflexivity]]]]).
  - pose proof (to_uint_head p) as Hh.
    pose proof (uint_chars_digits (Pos.to_uint p)) as Hd.
    pose proof (uint_digits_value (Pos.to_uint p)) as Hv.
    rewrite DecimalPos.Unsigned.of_to in Hv.
    unfold NilZero.string_of_int, NilZero.string_of_uint.
    destruct (Pos.to_uint p) eqn:E; try contradiction;
      cbn [NilEmpty.string_of_uint chars list_ascii_of_string] in *;
      match type of Hd with
      | forallb is_digit (?c :: ?r) = true => exists (c :: r), c, r
      end;
      (split; [reflexivity|split; [exact Hd|split;
         [intros ?; discriminate|split; [exact Hv|reflexivity]]]]).
Qed.

Lemma decimal_nonempty (z : Z) : decimal z <> ""%string.
Proof.
  intros H. destruct (decimal_shape z) as (ds & c0 & ds' & -> & _ & _ & _ & Hc).
  rewrite H in Hc. destruct (z <? 0); discriminate Hc.
Qed.

Lemma exact_abs (z : Z) : exact (Z.abs z) = exact z.
Proof. unfold exact. lia. Qed.

Lemma is_digit_not_space (c : ascii) : is_digit c = true -> is_space c = false.
Proof.
  destruct c as [[] [] [] [] [] [] [] []]; intros H; vm_compute in H |- *;
    congruence.
Qed.

Lemma read_sign_digit (c : ascii) (r : list ascii) :
  is_digit c = true -> read_sign (c :: r) = (1, c :: r).
Proof.
  destruct c as [[] [] [] [] [] [] [] []]; intros H; vm_compute in H;
    try discriminate H; reflexivity.
Qed.

(** ** Configuration setters *)

Lemma substr_0_2_prefix (s : string) :
  String.eqb (substr_0_2 s) "r:" = String.prefix "r:" s.
Proof.
  destruct s as [|a [|b s]]; cbn -[ascii_dec].
  - reflexivity.
  - destruct (Ascii.eqb_spec a "r"), (ascii_dec "r" a); congruence.
  - destruct (Ascii.eqb_spec a "r"), (ascii_dec "r" a); try congruence.
    destruct (Ascii.eqb_spec b ":"), (ascii_dec ":" b); try congruence.
    now destruct s.
Qed.

(** [setId] on a string, in terms of the prefix relation on strings. *)
Lemma setId_string (s : string) (j : Job.t) :
  Job.setId (VStr s) j =
    if String.prefix "r:" s
    then (Throw
            (Error "IDs starting with r: are reserved for recurring jobs."),
          j)
    else (Normal Job.This, Job.with_id (VStr s) j).
Proof.
  unfold Job.setId, Job.bind, Job.when.
  rewrite substr_0_2_prefix.
  destruct (String.prefix "r:" s); reflexivity.
Qed.

(** C8.  [setId(id)] on a string throws when the string starts with the two
    characters [r:], and only then; on every other string it makes that
    exact string the job's [id], changes nothing else, and returns the
    job. *)
Theorem setId_reserved_prefix (s : string) (j : Job.t) :
  Job.setId (VStr s) j =
    if String.prefix "r:" s
    then (Throw
            (Error "IDs starting with r: are reserved for recurring jobs."),
          j)
    else (Normal Job.This, Job.with_id (VStr s) j).
Proof. exact (setId_string s j). Qed.

Example setId_abc (j : Job.t) :
  Job.setId (VStr "abc") j = (Normal Job.This, Job.with_id (VStr "abc") j).
Proof. reflexivity. Qed.

Example setId_r_abc (j : Job.t) :
  Job.setId (VStr "r:abc") j
  = (Throw (Error "IDs starting with r: are reserved for recurring jobs."),
     j).
Proof. reflexivity. Qed.

(** The conversion of the interval leaves the job alone. *)
Lemma convert_interval_pure (i : value) (j : Job.t) :
  snd (Job.convert_interval i j) = j.
Proof.
  destruct i; try reflexivity.
  unfold Job.convert_interval.
  generalize (obj_get (slice_last s) Job.multiplier) as m; intros m.
  unfold Job.bind, Job.when, Job.lift_opt, Job.ret, Job.throw, Job.uncovered.
  destruct (negb (truthy m)); [reflexivity|].
  destruct m; try reflexivity.
  destruct (parseFloat s) as [f|]; [|reflexivity].
  destruct (float_mul f n) as [p|]; [|reflexivity].
  destruct (parseInt_float p); reflexivity.
Qed.

Lemma convert_interval_split (i : value) (j : Job.t) :
  Job.convert_interval i j = (fst (Job.convert_interval i j), j).
Proof.
  rewrite <- (convert_interval_pure i j) at 3.
  now destruct (Job.convert_interval i j).
Qed.

Lemma contains_empty (c : ascii) : contains c "" = false.
Proof. reflexivity. Qed.

(** What a call of [setInterval] comes to: it throws with the job untouched,
    or falls outside the embedding, or succeeds on a positive safe interval,
    a queue that keeps its jobs and an id without colon.  In the throwing
    cases the assignment [this.id = this.id || ''] has run only on an id
    that it does not change. *)
Lemma setInterval_cases (q : Queue.t) (now : Z) (i : value) (j : Job.t) :
  (exists e, Job.setInterval q now i j = (Throw e, j))
  \/ Job.setInterval q now i j = (Uncovered, j)
  \/ exists ms suffix,
       fst (Job.convert_interval i j) = Normal (VNum (Num ms))
       /\ isSafeInteger (VNum (Num ms)) = true /\ 0 < ms
       /\ auto_remove q = false
       /\ or_else (Job.id j) (VStr "") = VStr suffix
       /\ contains ":" suffix = false
       /\ Job.setInterval q now i j =
            (Normal Job.This,
             Job.set_option "delay"
               (or_else (obj_get "delay" (Job.options j))
                        (VNum (Num (now + 1))))
               (Job.with_id (VStr (Job.recurring_id ms suffix)) j)).
Proof.
  remember (Job.setInterval q now i j) as r eqn:Hr.
  unfold Job.setInterval, Job.bind at 1 in Hr.
  rewrite convert_interval_split in Hr.
  destruct (fst (Job.convert_interval i j)) as [v|e|] eqn:Hc;
    [|left; eauto|right; left; exact Hr].
  unfold Job.bind at 1, Job.when at 1 in Hr.
  destruct (negb (isSafeInteger v) || le_zero v) eqn:Hs;
    [left; eexists; exact Hr|].
  apply orb_false_elim in Hs as [Hsafe Hpos].
  apply negb_false_iff in Hsafe.
  destruct v as [| |?|[|ms]|?|?|?]; try discriminate Hsafe.
  assert (Hms : 0 < ms) by (cbn in Hpos; lia).
  cbn [Job.ret] in Hr.
  unfold Job.bind at 1, Job.when at 1 in Hr.
  fold (auto_remove q) in Hr.
  destruct (auto_remove q) eqn:Hrm; [left; eexists; exact Hr|].
  cbn [Job.ret] in Hr.
  unfold Job.bind, Job.get, Job.modify in Hr.
  cbn [Job.id Job.with_id] in Hr.
  destruct (truthy (Job.id j)) eqn:Hid.
  - rewrite (or_else_truthy _ _ Hid) in *.
    destruct (Job.id j) as [| |?|?|s|?|?] eqn:Ej;
      cbn [Job.id_has_colon Job.throw Job.uncovered Job.ret] in Hr;
      try (left; eexists; rewrite Hr, <- Ej; f_equal; now destruct j);
      try (right; left; rewrite Hr, <- Ej; f_equal; now destruct j).
    unfold Job.when in Hr.
    destruct (contains ":" s) eqn:Hcol.
    + left; eexists; rewrite Hr, <- Ej; cbn; f_equal; now destruct j.
    + right; right. exists ms, s. repeat split; auto.
  - rewrite (or_else_falsy _ _ Hid) in *.
    cbn [Job.id_has_colon Job.ret] in Hr. rewrite contains_empty in Hr.
    cbn [Job.when Job.ret] in Hr.
    right; right. exists ms, ""%string. repeat split; auto.
Qed.

(** C3.  Each of the six configuration setters ([setId], [setInterval],
    [retries], [delayUntil], [timeout], [backoff]) is a synchronous
    computation on the job alone, without any request to the store: it
    either completes and returns the job itself, or throws and leaves every
    field of the job ([id], [options], [data], [status], [progress],
    [count]) exactly as before the call.  On an input outside the embedding
    the job is untouched as well. *)
Theorem setters_return_this_or_leave_job
    (strategies : list string) (q : Queue.t) (now : Z)
    (c : Job.setter) (j : Job.t) :
  (exists j', Job.call strategies q now c j = (Normal Job.This, j'))
  \/ (exists e, Job.call strategies q now c j = (Throw e, j))
  \/ Job.call strategies q now c j = (Uncovered, j).
Proof.
  destruct c as [i|i|n|ts|ms|st d]; cbn [Job.call].
  - destruct i; try (right; left; eexists; reflexivity).
    rewrite setId_string.
    destruct (String.prefix "r:" s); [right; left; eauto|left; eauto].
  - destruct (setInterval_cases q now i j)
      as [H|[H|(ms & sf & _ & _ & _ & _ & _ & _ & H)]];
      [right; left; exact H|right; right; exact H|left; eauto].
  - unfold Job.retries, Job.bind, Job.lift_opt, Job.when.
    destruct (lt_zero n) as [[|]|]; cbn; eauto.
  - unfold Job.delayUntil, Job.bind, Job.lift_opt, Job.when.
    destruct (Job.instant_number ts) as [t|]; [|right; right; reflexivity].
    destruct (isNaN t || num_lt t (Num 0)); [right; left; eauto|].
    cbn [Job.ret]. destruct (num_gt t (Num now)); left; eauto.
  - unfold Job.timeout, Job.bind, Job.lift_opt, Job.when.
    destruct (lt_zero ms) as [[|]|]; cbn; eauto.
  - unfold Job.backoff, Job.bind, Job.when.
    destruct (negb (Job.has strategies st)); [right; left; eauto|].
    cbn. destruct (negb (isSafeInteger d) || le_zero d);
      [right; left; eauto|].
    left; eauto.
Qed.

(** The cases listed with the properties of the setters. *)

Example setInterval_5x (q : Queue.t) (now : Z) (j : Job.t) :
  Job.setInterval q now (VStr "5x") j
  = (Throw (Error "only valid suffixes are s, m, h, and d."), j).
Proof. reflexivity. Qed.

Example retries_negative (j : Job.t) :
  Job.retries (VNum (Num (-1))) j
  = (Throw (Error "Retries cannot be negative"), j).
Proof. reflexivity. Qed.

Example backoff_unknown (j : Job.t) :
  Job.backoff ["immediate"; "fixed"; "exponential"]%string
    (VStr "unknown") (VNum (Num 100)) j
  = (Throw (Error "unknown strategy"), j).
Proof. reflexivity. Qed.

Example backoff_zero (j : Job.t) :
  Job.backoff ["immediate"; "fixed"; "exponential"]%string
    (VStr "fixed") (VNum (Num 0)) j
  = (Throw (Error "delay must be a positive integer"), j).
Proof. reflexivity. Qed.

Example backoff_fixed (j : Job.t) :
  Job.backoff ["immediate"; "fixed"; "exponential"]%string
    (VStr "fixed") (VNum (Num 5000)) j
  = (Normal Job.This,
     Job.set_option "backoff"
       (VObj [("strategy", VStr "fixed"); ("delay", VNum (Num 5000))]%string)
       j).
Proof. reflexivity. Qed.

Lemma auto_remove_iff (q : Queue.t) : auto_remove q = true <-> removes_jobs q.
Proof.
  unfold auto_remove, removes_jobs, or_else.
  destruct (truthy (Queue.removeOnSuccess (Queue.settings q))) eqn:E.
  - rewrite E. tauto.
  - split; [auto|]. intros [H|H]; [discriminate|exact H].
Qed.

Lemma contains_In (c : ascii) (s : string) :
  contains c s = true <-> List.In c (chars s).
Proof.
  unfold contains. rewrite existsb_exists. split.
  - intros (x & Hx & Heq). apply Ascii.eqb_eq in Heq. now subst x.
  - intros H. exists c. split; [exact H|apply Ascii.eqb_refl].
Qed.

(** C4.  When [setInterval] succeeds, the job's [id] is the string
    [r:<intervalMillis>:<originalId>], where the original id counts as empty
    when it is falsy, and [options.delay], if it was unset, is the call-time
    instant plus 1.  [setInterval] throws, with the job untouched, when the
    queue removes jobs on success or on failure, and when the current id is
    a string with a colon. *)
Theorem setInterval_recurring_id
    (q : Queue.t) (now : Z) (i : value) (j : Job.t) :
  (forall j', Job.setInterval q now i j = (Normal Job.This, j') ->
     exists ms suffix,
       fst (Job.convert_interval i j) = Normal (VNum (Num ms))
       /\ 0 < ms
       /\ (Job.id j = VStr suffix
           \/ truthy (Job.id j) = false /\ suffix = ""%string)
       /\ Job.id j' = VStr ("r:" +:+ decimal ms +:+ ":" +:+ suffix)
       /\ (obj_get "delay" (Job.options j) = VUndef ->
           obj_get "delay" (Job.options j') = VNum (Num (now + 1))))
  /\ (fst (Job.convert_interval i j) <> Uncovered ->
      removes_jobs q
      \/ (exists s, Job.id j = VStr s /\ List.In ":"%char (chars s)) ->
      exists e, Job.setInterval q now i j = (Throw e, j)).
Proof.
  destruct (setInterval_cases q now i j)
    as [[e He]|[Hu|(ms & sf & Hc & Hsafe & Hms & Hrm & Hid & Hcol & Heq)]].
  - split; [intros j' H; congruence|eauto].
  - split; [intros j' H; rewrite H in Hu; discriminate|].
    intros Hcov Hfail. exfalso. apply (f_equal fst) in Hu. cbn [fst] in Hu.
    unfold Job.setInterval, Job.bind at 1 in Hu.
    rewrite convert_interval_split in Hu.
    destruct (fst (Job.convert_interval i j)) as [v| |] eqn:Hc;
      [|discriminate|congruence].
    unfold Job.bind at 1, Job.when at 1 in Hu.
    destruct (negb (isSafeInteger v) || le_zero v); [discriminate|].
    cbn [Job.ret] in Hu.
    unfold Job.bind at 1, Job.when at 1 in Hu. fold (auto_remove q) in Hu.
    destruct (auto_remove q) eqn:Hrm; [discriminate|].
    destruct Hfail as [Hf|(s & Hs & Hcol)];
      [|apply contains_In in Hcol].
    + apply auto_remove_iff in Hf. congruence.
    + cbn [Job.ret] in Hu. unfold Job.bind, Job.get, Job.modify in Hu.
      cbn [Job.id Job.with_id] in Hu. rewrite Hs in Hu.
      unfold or_else in Hu.
      destruct (truthy (VStr s)) eqn:Ht.
      * cbn [Job.id_has_colon Job.ret] in Hu. rewrite Hcol in Hu. discriminate.
      * destruct s; [discriminate Hcol|discriminate Ht].
  - split.
    + intros j' Hj'. rewrite Heq in Hj'. injection Hj' as <-.
      exists ms, sf. repeat split; auto.
      * unfold or_else in Hid. destruct (truthy (Job.id j)); [left; auto|right].
        split; congruence.
      * intros Hd. cbn. rewrite obj_get_set. now rewrite Hd.
    + intros _ [Hf|(s & Hs & Hc')]; exfalso;
        [|apply contains_In in Hc'].
      * apply auto_remove_iff in Hf. congruence.
      * rewrite Hs in Hid. unfold or_else in Hid.
        destruct (truthy (VStr s)) eqn:Ht.
        -- injection Hid as ->. congruence.
        -- destruct s; [discriminate Hc'|discriminate Ht].
Qed.

Lemma setInterval_recurring_id_witness :
  (exists ms suffix,
     fst (Job.convert_interval (VNum (Num 300000)) fresh_job)
     = Normal (VNum (Num ms))
     /\ 0 < ms
     /\ (Job.id fresh_job = VStr suffix
         \/ truthy (Job.id fresh_job) = false /\ suffix = ""%string)
     /\ Job.id (snd (Job.setInterval example_queue 1000
                       (VNum (Num 300000)) fresh_job))
        = VStr ("r:" +:+ decimal ms +:+ ":" +:+ suffix)
     /\ (obj_get "delay" (Job.options fresh_job) = VUndef ->
         obj_get "delay"
           (Job.options (snd (Job.setInterval example_queue 1000
                                (VNum (Num 300000)) fresh_job)))
         = VNum (Num (1000 + 1))))
  /\ (exists e,
        Job.setInterval removing_queue 1000 (VNum (Num 300000)) fresh_job
        = (Throw e, fresh_job))
  /\ (exists e,
        Job.setInterval example_queue 1000 (VNum (Num 300000))
          (Job.with_id (VStr "a:b") fresh_job)
        = (Throw e, Job.with_id (VStr "a:b") fresh_job)).
Proof.
  split; [|split].
  - apply (proj1 (setInterval_recurring_id example_queue 1000
                    (VNum (Num 300000)) fresh_job)).
    reflexivity.
  - apply (proj2 (setInterval_recurring_id removing_queue 1000
                    (VNum (Num 300000)) fresh_job)).
    + discriminate.
    + left. left. reflexivity.
  - apply (proj2 (setInterval_recurring_id example_queue 1000
                    (VNum (Num 300000))
                    (Job.with_id (VStr "a:b") fresh_job))).
    + discriminate.
    + right. exists "a:b"%string. split; [reflexivity|].
      right. left. reflexivity.
Defined.

(** C6.  Once its argument is read as a number [p] (the time of a date-like
    object, else [parseInt(timestamp, 10)]), [delayUntil] throws exactly
    when [p] is not-a-number or negative, leaving the job untouched; when
    [p] is strictly greater than the call-time instant it sets
    [options.delay] to [p]; otherwise, for a past or present instant, it
    returns normally and leaves the job, hence [options.delay], as it
    was. *)
Theorem delayUntil_future_only
    (now : Z) (ts : Job.instant) (j : Job.t) (p : num) :
  Job.instant_number ts = Some p ->
  ((exists e, Job.delayUntil now ts j = (Throw e, j))
     <-> (p = NaN \/ exists z, p = Num z /\ z < 0))
  /\ (forall z, p = Num z -> 0 <= z -> now < z ->
        Job.delayUntil now ts j
        = (Normal Job.This, Job.set_option "delay" (VNum (Num z)) j))
  /\ (forall z, p = Num z -> 0 <= z <= now ->
        Job.delayUntil now ts j = (Normal Job.This, j)).
Proof.
  intros Hp. unfold Job.delayUntil, Job.bind, Job.lift_opt, Job.when.
  rewrite Hp.
  destruct p as [|z]; cbn [isNaN orb num_lt num_gt Job.throw Job.ret].
  - split; [split; eauto|]. split; intros z H; discriminate H.
  - destruct (Z.ltb_spec z 0) as [Hneg|Hnn]; cbn [Job.throw Job.ret].
    + split; [split; eauto|]. split; intros z' [= <-]; lia.
    + split.
      * split; [intros [e He]|intros [H|(z' & [= <-] & H)]];
          try discriminate; try lia.
        destruct (now <? z); discriminate He.
      * split; intros z' [= <-].
        -- intros _ H. destruct (Z.ltb_spec now z); [reflexivity|lia].
        -- intros H. destruct (Z.ltb_spec now z); [lia|reflexivity].
Qed.

Lemma delayUntil_future_only_witness :
  Job.instant_number (Job.Plain (VStr "2000")) = Some (Num 2000)
  /\ Job.delayUntil 1000 (Job.Plain (VStr "2000")) fresh_job
     = (Normal Job.This,
        Job.set_option "delay" (VNum (Num 2000)) fresh_job)
  /\ Job.instant_number (Job.DateLike (Num 400)) = Some (Num 400)
  /\ Job.delayUntil 1000 (Job.DateLike (Num 400)) fresh_job
     = (Normal Job.This, fresh_job)
  /\ Job.instant_number (Job.Plain (VStr "soon")) = Some NaN
  /\ (exists e,
        Job.delayUntil 1000 (Job.Plain (VStr "soon")) fresh_job
        = (Throw e, fresh_job)).
Proof.
  split; [reflexivity|]. split.
  { apply (proj1 (proj2 (delayUntil_future_only 1000 (Job.Plain (VStr "2000"))
                           fresh_job (Num 2000) eq_refl)) 2000);
      [reflexivity|lia|lia]. }
  split; [reflexivity|]. split.
  { apply (proj2 (proj2 (delayUntil_future_only 1000 (Job.DateLike (Num 400))
                           fresh_job (Num 400) eq_refl)) 400);
      [reflexivity|lia]. }
  split; [reflexivity|].
  apply (proj1 (delayUntil_future_only 1000 (Job.Plain (VStr "soon"))
                  fresh_job NaN eq_refl)).
  left. reflexivity.
Defined.

Lemma unit_multiplier_cases (u : ascii) (m : Z) :
  unit_multiplier u = Some m ->
  (u = "s"%char /\ m = 1000) \/ (u = "m"%char /\ m = 60000)
  \/ (u = "h"%char /\ m = 3600000) \/ (u = "d"%char /\ m = 86400000).
Proof.
  unfold unit_multiplier.
  destruct (Ascii.eqb_spec u "s"); [intros [= <-]; auto|].
  destruct (Ascii.eqb_spec u "m"); [intros [= <-]; auto|].
  destruct (Ascii.eqb_spec u "h"); [intros [= <-]; auto|].
  destruct (Ascii.eqb_spec u "d"); [intros [= <-]; auto 6|discriminate].
Qed.

(** *** Binary64 values that are exact *)

Lemma rne_exact (n den : Z) : 0 < den -> rne (n * den) den = n.
Proof.
  intros Hd. unfold rne. rewrite Z.div_mul, Z.mod_mul by lia.
  cbv zeta. destruct (Z.ltb_spec (2 * 0) den); [reflexivity|lia].
Qed.

(** A value of at most 53 bits times a power of two is its own nearest
    binary64 value. *)
Lemma round53_exact (a t q : Z) :
  0 < a -> Z.log2 a <= 52 -> 0 <= t -> 0 < q ->
  round53 (a * 2 ^ t * q) q = a * 2 ^ t.
Proof.
  intros Ha Hl Ht Hq. unfold round53. rewrite Z.div_mul by lia. cbv zeta.
  destruct (Z.ltb_spec (a * 2 ^ t) (2 ^ 52)) as [Hlt|Hge].
  - now apply rne_exact.
  - rewrite Z.log2_mul_pow2 by lia.
    set (s := t + Z.log2 a - 52).
    assert (Hs : 0 <= s).
    { assert (H : 52 <= Z.log2 (a * 2 ^ t)).
      { rewrite <- (Z.log2_pow2 52) by lia. now apply Z.log2_le_mono. }
      rewrite Z.log2_mul_pow2 in H by lia. subst s. lia. }
    assert (Hst : s <= t) by (subst s; lia).
    replace (a * 2 ^ t * q) with (a * 2 ^ (t - s) * (q * 2 ^ s)).
    + rewrite rne_exact by (apply Z.mul_pos_pos; [lia|apply Z.pow_pos_nonneg; lia]).
      rewrite <- Z.mul_assoc, <- Z.pow_add_r by lia. do 2 f_equal. lia.
    + replace t with ((t - s) + s) at 2 by lia.
      rewrite (Z.pow_add_r 2 (t - s) s) by lia. ring.
Qed.

(** So is every integer of the exact range, whatever the power of two. *)
Lemma round53_integer (n t q : Z) :
  0 <= n -> exact n = true -> 0 <= t -> 0 < q ->
  round53 (n * 2 ^ t * q) q = n * 2 ^ t.
Proof.
  intros Hn Hx Ht Hq.
  assert (Hle : n <= 2 ^ 53) by (unfold exact in Hx; lia).
  destruct (Z.eq_dec n 0) as [-> |Hn0].
  { unfold round53, rne. rewrite !Z.mul_0_l, Z.div_0_l, Z.mod_0_l by lia.
    cbv zeta. change (0 <? 2 ^ 52) with true. cbv iota.
    destruct (Z.ltb_spec (2 * 0) q); [reflexivity|lia]. }
  destruct (Z.eq_dec n (2 ^ 53)) as [-> |Hn53].
  - replace (2 ^ 53 * 2 ^ t) with (1 * 2 ^ (53 + t))
      by (rewrite Z.pow_add_r by lia; ring).
    apply round53_exact; [lia|cbn; lia|lia|lia].
  - apply round53_exact; [lia| |lia|lia].
    assert (H : Z.log2 n < 53) by (apply Z.log2_lt_pow2; lia). lia.
Qed.

(** A value of the exact range times a power of two, given as a quotient. *)
Lemma to_float_exact (negative : bool) (n t q : Z) :
  0 <= n -> exact n = true -> 0 <= t <= unit_exponent -> 0 < q ->
  to_float negative (n * 2 ^ t * q) q = Some (Finite negative (n * 2 ^ t)).
Proof.
  intros Hn Hx Ht Hq. unfold to_float.
  rewrite round53_integer by (try assumption; lia). cbv zeta.
  assert (Hle : n <= 2 ^ 53) by (unfold exact in Hx; lia).
  assert (Hb : n * 2 ^ t < 2 ^ (1024 + unit_exponent)).
  { apply Z.le_lt_trans with (2 ^ 53 * 2 ^ t).
    - apply Z.mul_le_mono_nonneg_r; [apply Z.pow_nonneg; lia|exact Hle].
    - rewrite <- Z.pow_add_r by lia.
      apply Z.pow_lt_mono_r; unfold unit_exponent in *; lia. }
  destruct (Z.ltb_spec (n * 2 ^ t) (2 ^ (1024 + unit_exponent)));
    [reflexivity|lia].
Qed.

(** The product of such a value by a positive integer, within the exact
    range. *)
Lemma float_mul_exact (negative : bool) (n t m : Z) :
  0 <= n -> 0 <= t <= unit_exponent -> 0 < m -> exact (n * m) = true ->
  float_mul (Finite negative (n * 2 ^ t)) (Num m)
  = Some (Finite negative (n * m * 2 ^ t)).
Proof.
  intros Hn Ht Hm Hx. unfold float_mul.
  destruct (Z.ltb_spec m 0); [lia|]. rewrite xorb_false_r, Z.abs_eq by lia.
  replace (n * 2 ^ t * m) with (n * m * 2 ^ t * 1) by ring.
  apply to_float_exact; [nia|exact Hx|exact Ht|lia].
Qed.

(** [parseInt] of such a value is its integer part, when the value is 0 or
    at least 10^-6. *)
Lemma parseInt_float_exact (negative : bool) (n k : Z) :
  0 <= n -> exact n = true -> 0 <= k <= unit_exponent ->
  (n = 0 \/ 2 ^ k <= n * 10 ^ 6) ->
  parseInt_float (Finite negative (n * 2 ^ (unit_exponent - k)))
  = Some (Num (if negative then - (n / 2 ^ k) else n / 2 ^ k)).
Proof.
  intros Hn Hx Hk Hbig. unfold parseInt_float.
  assert (Hpk : 0 < 2 ^ k) by (apply Z.pow_pos_nonneg; lia).
  assert (Hpt : 0 < 2 ^ (unit_exponent - k))
    by (apply Z.pow_pos_nonneg; lia).
  assert (Hsplit : 2 ^ unit_exponent = 2 ^ k * 2 ^ (unit_exponent - k)).
  { rewrite <- Z.pow_add_r by lia. f_equal. lia. }
  destruct (Z.eqb_spec (n * 2 ^ (unit_exponent - k)) 0) as [E|E].
  - assert (n = 0) by nia. subst n. rewrite Z.div_0_l by lia.
    now destruct negative.
  - assert (Hn1 : 1 <= n) by nia.
    destruct Hbig as [->|Hbig]; [lia|].
    destruct (Z.ltb_spec (n * 2 ^ (unit_exponent - k) * 10 ^ 6)
                (2 ^ unit_exponent)) as [Ht|Ht].
    { rewrite Hsplit in Ht. nia. }
    cbv zeta. rewrite Hsplit, Z.div_mul_cancel_r by lia.
    assert (Hq : exact (n / 2 ^ k) = true).
    { assert (0 <= n / 2 ^ k <= n).
      { split; [apply Z.div_pos; lia|].
        apply Z.div_le_upper_bound; [lia|nia]. }
      unfold exact in *. lia. }
    now rewrite Hq.
Qed.

(** A unit letter is no part of a numeral. *)
Lemma unit_ends_numeral (u : ascii) (m : Z) :
  unit_multiplier u = Some m ->
  is_digit u = false
  /\ read_fraction [u] = ([], [u])
  /\ read_exponent [u] = Some 0.
Proof.
  intros Hu.
  apply unit_multiplier_cases in Hu as [[-> _]|[[-> _]|[[-> _]|[-> _]]]];
    repeat split.
Qed.

Lemma unit_multiplier_pos (u : ascii) (m : Z) :
  unit_multiplier u = Some m -> 1000 <= m.
Proof.
  intros Hu.
  apply unit_multiplier_cases in Hu as [[_ ->]|[[_ ->]|[[_ ->]|[_ ->]]]]; lia.
Qed.

(** [parseFloat] reads the integer in front of a unit letter. *)
Lemma parseFloat_numeral (n : Z) (u : ascii) (m : Z) :
  unit_multiplier u = Some m -> exact n = true ->
  parseFloat (decimal n +:+ String u "")
  = Some (Finite (n <? 0) (Z.abs n * 2 ^ unit_exponent)).
Proof.
  intros Hu Hn. unfold parseFloat. rewrite chars_append.
  destruct (decimal_shape n) as (ds & c0 & ds' & -> & Hd & _ & Hv & ->).
  destruct (unit_ends_numeral u m Hu) as (Hdig & Hfrac & Hexp).
  assert (Hspan : span_digits ((c0 :: ds') ++ chars (String u ""))
                  = (c0 :: ds', [u]))
    by (apply span_digits_app; [exact Hd|exact Hdig]).
  assert (Hval : decimal_value (n <? 0) (Z.abs n) (0 - Z.of_nat 0)
                 = Some (Finite (n <? 0) (Z.abs n * 2 ^ unit_exponent))).
  { unfold decimal_value. change (0 <=? 0 - Z.of_nat 0) with true. cbv iota.
    change (10 ^ (0 - Z.of_nat 0)) with 1.
    rewrite Z.mul_1_r, <- (Z.mul_1_r (Z.abs n * 2 ^ unit_exponent)) at 1.
    apply to_float_exact;
      [lia|now rewrite exact_abs|unfold unit_exponent; lia|lia]. }
  pose proof Hd as Hd'. cbn [forallb] in Hd'.
  apply andb_true_iff in Hd' as [Hc0 _].
  destruct (Z.ltb_spec n 0) as [Hneg|Hnn].
  - change (skip_space (("-"%char :: c0 :: ds') ++ chars (String u "")))
      with (("-"%char :: c0 :: ds') ++ chars (String u "")).
    change (read_sign (("-"%char :: c0 :: ds') ++ chars (String u "")))
      with (-1, (c0 :: ds') ++ chars (String u "")).
    cbv beta iota. rewrite Hspan. cbv beta iota. rewrite Hfrac.
    cbv beta iota. rewrite app_nil_r. cbv iota. rewrite Hv, Hexp.
    cbv iota. exact Hval.
  - rewrite <- app_comm_cons. cbn [skip_space].
    rewrite (is_digit_not_space _ Hc0), (read_sign_digit _ _ Hc0).
    cbv beta iota. rewrite app_comm_cons, Hspan. cbv beta iota. rewrite Hfrac.
    cbv beta iota. rewrite app_nil_r. cbv iota. rewrite Hv, Hexp.
    cbv iota. exact Hval.
Qed.

Lemma slice_last_snoc (s : string) (u : ascii) :
  slice_last (s +:+ String u "") = String u "".
Proof.
  unfold slice_last. rewrite chars_append. cbn [chars list_ascii_of_string].
  now rewrite last_snoc.
Qed.

(** The multiplier that [setInterval] looks up for a unit letter. *)
Lemma multiplier_unit (u : ascii) (m : Z) :
  unit_multiplier u = Some m ->
  obj_get (String u "") Job.multiplier = VNum (Num m).
Proof.
  intros Hu.
  apply unit_multiplier_cases in Hu as [[-> ->]|[[-> ->]|[[-> ->]|[-> ->]]]];
    reflexivity.
Qed.

(** The conversion of a string that ends in a unit letter: [parseFloat] of
    the string, times the multiplier of the letter, then [parseInt]. *)
Lemma convert_unit (s : string) (u : ascii) (m : Z) (j : Job.t) :
  unit_multiplier u = Some m ->
  Job.convert_interval (VStr (s +:+ String u "")) j
  = (match parseFloat (s +:+ String u "") with
     | Some f =>
         match float_mul f (Num m) with
         | Some p =>
             match parseInt_float p with
             | Some r => Normal (VNum r)
             | None => Uncovered
             end
         | None => Uncovered
         end
     | None => Uncovered
     end, j).
Proof.
  intros Hu. unfold Job.convert_interval.
  rewrite slice_last_snoc, (multiplier_unit u m Hu).
  assert (Hm : m <> 0) by (apply unit_multiplier_pos in Hu; lia).
  cbn [truthy negb]. apply Z.eqb_neq in Hm. rewrite Hm.
  cbn [negb Job.when Job.ret].
  unfold Job.bind, Job.lift_opt, Job.ret.
  destruct (parseFloat (s +:+ String u "")) as [f|]; [|reflexivity].
  destruct (float_mul f (Num m)) as [p|]; [|reflexivity].
  now destruct (parseInt_float p).
Qed.

Lemma convert_numeral (n : Z) (u : ascii) (m : Z) (j : Job.t) :
  unit_multiplier u = Some m -> exact (n * m) = true ->
  Job.convert_interval (VStr (decimal n +:+ String u "")) j
  = (Normal (VNum (Num (n * m))), j).
Proof.
  intros Hu Hx. pose proof (unit_multiplier_pos u m Hu) as Hm.
  assert (Hx' : exact (Z.abs n * m) = true).
  { rewrite <- (Z.abs_eq m) at 1 by (clear - Hm; lia).
    now rewrite <- Z.abs_mul, exact_abs. }
  assert (Hn : exact n = true).
  { unfold exact in *. pose proof Hu as Hu'.
    apply unit_multiplier_cases in Hu'
      as [[_ ->]|[[_ ->]|[[_ ->]|[_ ->]]]]; clear - Hx; lia. }
  rewrite (convert_unit _ u m j Hu), (parseFloat_numeral n u m Hu Hn).
  rewrite float_mul_exact;
    [|apply Z.abs_nonneg|unfold unit_exponent; lia|clear - Hm; lia|exact Hx'].
  rewrite <- (Z.sub_0_r unit_exponent) at 1.
  rewrite parseInt_float_exact;
    [|clear - Hm; nia|exact Hx'|unfold unit_exponent; lia
     |clear - Hm; change (2 ^ 0) with 1; change (10 ^ 6) with 1000000; nia].
  change (2 ^ 0) with 1. rewrite Z.div_1_r.
  do 4 f_equal. clear.
  destruct (Z.ltb_spec n 0); [rewrite Z.abs_neq by lia|rewrite Z.abs_eq by lia];
    ring.
Qed.

Lemma setInterval_converted (q : Queue.t) (now : Z) (i : value) (n : num)
    (j : Job.t) :
  fst (Job.convert_interval i j) = Normal (VNum n) ->
  Job.setInterval q now i j = Job.setInterval q now (VNum n) j.
Proof.
  intros H. unfold Job.setInterval, Job.bind at 1 3.
  rewrite convert_interval_split, H. reflexivity.
Qed.

(** [parseFloat] reads the digits after a dot as well: a numeral with the
    fraction digits [fs] is the number that all its digits spell, over
    10 to the number of fraction digits. *)
Lemma parseFloat_fraction (n : Z) (fs : list ascii) (u : ascii) (m M : Z) :
  unit_multiplier u = Some m -> 0 <= n ->
  forallb is_digit fs = true ->
  digits_value (chars (decimal n) ++ fs) = Some M ->
  parseFloat (decimal n +:+ "." +:+ text fs +:+ String u "")
  = decimal_value false M (- Z.of_nat (length fs)).
Proof.
  intros Hu Hn Hfs HM. unfold parseFloat.
  rewrite !chars_append, chars_text.
  change (chars ".") with ["."%char]. change (chars (String u "")) with [u].
  destruct (decimal_shape n) as (ds & c0 & ds' & -> & Hd & _ & _ & Hz).
  destruct (Z.ltb_spec n 0) as [Hneg|_]; [lia|]. rewrite Hz in *. clear Hz.
  destruct (unit_ends_numeral u m Hu) as (Hdig & _ & Hexp).
  pose proof Hd as Hd'. cbn [forallb] in Hd'.
  apply andb_true_iff in Hd' as [Hc0 _].
  rewrite <- app_comm_cons. cbn [skip_space].
  rewrite (is_digit_not_space _ Hc0), (read_sign_digit _ _ Hc0).
  cbv beta iota. rewrite app_comm_cons.
  rewrite (span_digits_app (c0 :: ds') (["."%char] ++ fs ++ [u]) Hd)
    by reflexivity.
  cbv beta iota. cbn [app read_fraction].
  rewrite (span_digits_app fs [u] Hfs) by exact Hdig.
  cbv beta iota. cbn [app] in HM. rewrite HM, Hexp. cbv iota.
  reflexivity.
Qed.

(** A decimal numeral whose value has at most 53 bits: all its digits spell
    a multiple of 5 to the number of fraction digits. *)
Lemma decimal_value_exact (negative : bool) (a k : Z) :
  0 <= a -> exact a = true -> 0 <= k <= unit_exponent ->
  decimal_value negative (a * 5 ^ k) (- k)
  = Some (Finite negative (a * 2 ^ (unit_exponent - k))).
Proof.
  intros Ha Hx Hk. unfold decimal_value.
  destruct (Z.leb_spec 0 (- k)) as [H0|H0].
  - assert (k = 0) by lia. subst k.
    change (5 ^ 0) with 1. change (10 ^ (- 0)) with 1.
    rewrite !Z.mul_1_r, Z.sub_0_r.
    rewrite <- (Z.mul_1_r (a * 2 ^ unit_exponent)) at 1.
    apply to_float_exact; try assumption; unfold unit_exponent; lia.
  - rewrite Z.opp_involutive.
    replace (a * 5 ^ k * 2 ^ unit_exponent)
      with (a * 2 ^ (unit_exponent - k) * 10 ^ k).
    + apply to_float_exact; try assumption; [lia|].
      apply Z.pow_pos_nonneg; lia.
    + change 10 with (2 * 5). rewrite Z.pow_mul_l.
      replace unit_exponent with ((unit_exponent - k) + k) at 2 by lia.
      rewrite (Z.pow_add_r 2 (unit_exponent - k) k) by lia. ring.
Qed.

(** The conversion of a numeral with a fraction and a unit letter, when
    the value of the numeral has at most 53 bits: the product with the
    multiplier of the letter, without its fraction. *)
Lemma convert_fraction (n : Z) (fs : list ascii) (u : ascii) (m M : Z)
    (j : Job.t) :
  unit_multiplier u = Some m -> 0 <= n ->
  forallb is_digit fs = true -> (length fs <= 29)%nat ->
  digits_value (chars (decimal n) ++ fs) = Some M ->
  0 < M -> (5 ^ Z.of_nat (length fs) | M) ->
  M * m <= 2 ^ 53 * 5 ^ Z.of_nat (length fs) ->
  Job.convert_interval
    (VStr (decimal n +:+ "." +:+ text fs +:+ String u "")) j
  = (Normal (VNum (Num (M * m / 10 ^ Z.of_nat (length fs)))), j).
Proof.
  intros Hu Hn Hfs Hlen HM Hpos [a Ha] Hle.
  set (k := Z.of_nat (length fs)) in *.
  pose proof (unit_multiplier_pos u m Hu) as Hm.
  assert (Hk : 0 <= k <= 29) by (subst k; lia).
  assert (H5 : 0 < 5 ^ k) by (apply Z.pow_pos_nonneg; lia).
  assert (H2 : 0 < 2 ^ k) by (apply Z.pow_pos_nonneg; lia).
  assert (Ha1 : 1 <= a) by (clear - Ha Hpos H5; nia).
  assert (Ham : a * m <= 2 ^ 53).
  { subst M. clear - Hle H5. nia. }
  assert (Hxa : exact a = true).
  { unfold exact. clear - Ha1 Ham Hm.
    assert (a <= a * m) by nia. lia. }
  assert (Hxam : exact (a * m) = true).
  { unfold exact. clear - Ha1 Ham Hm. nia. }
  pose proof (convert_unit (decimal n +:+ "." +:+ text fs) u m j Hu) as Hc.
  replace ((decimal n +:+ "." +:+ text fs) +:+ String u "")
    with (decimal n +:+ "." +:+ text fs +:+ String u "") in Hc.
  2: { rewrite <- (text_chars ((decimal n +:+ "." +:+ text fs)
                               +:+ String u "")).
       rewrite <- (text_chars (decimal n +:+ "." +:+ text fs
                               +:+ String u "")).
       f_equal. rewrite !chars_append. now rewrite <- !app_assoc. }
  rewrite Hc, (parseFloat_fraction n fs u m M Hu Hn Hfs HM).
  fold k. rewrite Ha.
  rewrite decimal_value_exact
    by (try assumption; unfold unit_exponent; lia).
  rewrite float_mul_exact
    by (try assumption; unfold unit_exponent; lia).
  rewrite parseInt_float_exact;
    [|clear - Ha1 Hm; nia|exact Hxam|unfold unit_exponent; lia|].
  - do 4 f_equal.
    change 10 with (2 * 5). rewrite Z.pow_mul_l.
    replace (a * 5 ^ k * m) with (a * m * 5 ^ k) by ring.
    now rewrite Z.div_mul_cancel_r by lia.
  - right. apply Z.le_trans with (2 ^ 29).
    + apply Z.pow_le_mono_r; lia.
    + clear - Ha1 Hm. change (2 ^ 29) with 536870912.
      change (10 ^ 6) with 1000000. nia.
Qed.

(** The effect of [setInterval] on a positive safe integer, for a queue
    that keeps its jobs and an id without colon. *)
Lemma setInterval_number (q : Queue.t) (now ms : Z) (suffix : string)
    (j : Job.t) :
  safe_positive ms -> auto_remove q = false ->
  or_else (Job.id j) (VStr "") = VStr suffix ->
  contains ":" suffix = false ->
  Job.setInterval q now (VNum (Num ms)) j
  = (Normal Job.This,
     Job.set_option "delay"
       (or_else (obj_get "delay" (Job.options j)) (VNum (Num (now + 1))))
       (Job.with_id (VStr (Job.recurring_id ms suffix)) j)).
Proof.
  intros [Hpos Hmax] Hq Hid Hcol.
  unfold Job.setInterval. cbn [Job.convert_interval].
  unfold Job.bind at 1. cbn [Job.ret].
  unfold Job.bind at 1, Job.when at 1.
  assert (Hs : negb (isSafeInteger (VNum (Num ms)))
               || le_zero (VNum (Num ms)) = false).
  { cbn [isSafeInteger le_zero num_le].
    apply orb_false_iff. split.
    - apply negb_false_iff, andb_true_iff. split; apply Z.leb_le; lia.
    - apply Z.leb_gt. lia. }
  rewrite Hs. cbn [Job.ret].
  unfold Job.bind at 1, Job.when at 1. fold (auto_remove q). rewrite Hq.
  cbn [Job.ret]. unfold Job.bind, Job.get, Job.modify.
  cbn [Job.id Job.with_id]. rewrite Hid.
  cbn [Job.id_has_colon Job.ret]. rewrite Hcol.
  reflexivity.
Qed.

(** C9.  [setInterval('5m')] works with an interval of exactly 300000
    milliseconds: it has the outcome of [setInterval(300000)] on every job,
    which on a queue that keeps its jobs and a job whose id has no colon is
    to return the job with the id [r:300000:<id>] and a first delay.

    In general a string that ends in s, m, h or d is converted by
    [parseFloat] of the string, times 1000, 60000, 3600000 or 86400000,
    then [parseInt], in binary64 arithmetic, and the call has the outcome
    of the call on the number so obtained.  The numeral of an integer [n]
    with a unit letter is converted to [n] times the multiplier; a numeral
    with a fraction whose value has at most 53 bits, such as ['1.5m'], is
    converted to its product with the multiplier, without the fraction of
    the product; and the call on a positive safe integer [ms] of
    milliseconds sets the id to [r:<ms>:<id>]. *)
Theorem setInterval_unit_suffix (q : Queue.t) (now : Z) (j : Job.t) :
  fst (Job.convert_interval (VStr "5m") j) = Normal (VNum (Num 300000))
  /\ Job.setInterval q now (VStr "5m") j
     = Job.setInterval q now (VNum (Num 300000)) j
  /\ (forall suffix,
        auto_remove q = false ->
        or_else (Job.id j) (VStr "") = VStr suffix ->
        contains ":" suffix = false ->
        Job.setInterval q now (VStr "5m") j
        = (Normal Job.This,
           Job.set_option "delay"
             (or_else (obj_get "delay" (Job.options j))
                      (VNum (Num (now + 1))))
             (Job.with_id (VStr ("r:300000:" +:+ suffix)) j)))
  /\ (forall (n : Z) (u : ascii) (m : Z),
        unit_multiplier u = Some m -> exact (n * m) = true ->
        fst (Job.convert_interval (VStr (decimal n +:+ String u "")) j)
        = Normal (VNum (Num (n * m)))
        /\ Job.setInterval q now (VStr (decimal n +:+ String u "")) j
           = Job.setInterval q now (VNum (Num (n * m))) j)
  /\ (forall (n : Z) (fs : list ascii) (u : ascii) (m M : Z),
        unit_multiplier u = Some m -> 0 <= n ->
        forallb is_digit fs = true -> (length fs <= 29)%nat ->
        digits_value (chars (decimal n) ++ fs) = Some M ->
        0 < M -> (5 ^ Z.of_nat (length fs) | M) ->
        M * m <= 2 ^ 53 * 5 ^ Z.of_nat (length fs) ->
        fst (Job.convert_interval
               (VStr (decimal n +:+ "." +:+ text fs +:+ String u "")) j)
        = Normal (VNum (Num (M * m / 10 ^ Z.of_nat (length fs))))
        /\ Job.setInterval q now
             (VStr (decimal n +:+ "." +:+ text fs +:+ String u "")) j
           = Job.setInterval q now
               (VNum (Num (M * m / 10 ^ Z.of_nat (length fs)))) j)
  /\ (forall (s : string) (u : ascii) (m : Z),
        unit_multiplier u = Some m ->
        fst (Job.convert_interval (VStr (s +:+ String u "")) j)
        = match parseFloat (s +:+ String u "") with
          | Some f =>
              match float_mul f (Num m) with
              | Some p =>
                  match parseInt_float p with
                  | Some r => Normal (VNum r)
                  | None => Uncovered
                  end
              | None => Uncovered
              end
          | None => Uncovered
          end)
  /\ (forall (i : value) (r : num),
        fst (Job.convert_interval i j) = Normal (VNum r) ->
        Job.setInterval q now i j = Job.setInterval q now (VNum r) j)
  /\ (forall (ms : Z) (suffix : string),
        safe_positive ms -> auto_remove q = false ->
        or_else (Job.id j) (VStr "") = VStr suffix ->
        contains ":" suffix = false ->
        Job.setInterval q now (VNum (Num ms)) j
        = (Normal Job.This,
           Job.set_option "delay"
             (or_else (obj_get "delay" (Job.options j))
                      (VNum (Num (now + 1))))
             (Job.with_id (VStr ("r:" +:+ decimal ms +:+ ":" +:+ suffix))
                j))).
Proof.
  assert (H5 : fst (Job.convert_interval (VStr "5m") j)
               = Normal (VNum (Num 300000))).
  { pose proof (convert_numeral 5 "m" 60000 j eq_refl eq_refl) as H.
    change (decimal 5 +:+ String "m" "") with "5m"%string in H.
    now rewrite H. }
  split; [exact H5|]. split; [now apply setInterval_converted|].
  split.
  { intros suffix Hq Hid Hcol.
    rewrite (setInterval_converted q now (VStr "5m") (Num 300000) j H5).
    rewrite (setInterval_number q now 300000 suffix j); try assumption.
    - reflexivity.
    - unfold safe_positive, MAX_SAFE_INTEGER. lia. }
  split.
  { intros n u m Hu Hx.
    pose proof (convert_numeral n u m j Hu Hx) as Hc.
    split; [now rewrite Hc|].
    apply setInterval_converted. now rewrite Hc. }
  split.
  { intros n fs u m M Hu Hn Hfs Hlen HM Hpos Hdiv Hle.
    pose proof (convert_fraction n fs u m M j Hu Hn Hfs Hlen HM Hpos Hdiv Hle)
      as Hc.
    split; [now rewrite Hc|].
    apply setInterval_converted. now rewrite Hc. }
  split.
  { intros s u m Hu. now rewrite (convert_unit s u m j Hu). }
  split; [intros i r; apply setInterval_converted|].
  intros ms suffix. apply setInterval_number.
Qed.

Lemma setInterval_unit_suffix_witness :
  fst (Job.convert_interval (VStr (decimal 12 +:+ String "h" "")) fresh_job)
  = Normal (VNum (Num (12 * 3600000)))
  /\ fst (Job.convert_interval
            (VStr (decimal 1 +:+ "." +:+ text (chars "5") +:+ String "m" ""))
            fresh_job)
     = Normal (VNum (Num (15 * 60000 / 10 ^ Z.of_nat (length (chars "5")))))
  /\ Job.setInterval example_queue 1000 (VStr "5m") fresh_job
     = (Normal Job.This,
        Job.set_option "delay"
          (or_else (obj_get "delay" (Job.options fresh_job))
                   (VNum (Num (1000 + 1))))
          (Job.with_id (VStr ("r:300000:" +:+ "mail-7")) fresh_job)).
Proof.
  destruct (setInterval_unit_suffix example_queue 1000 fresh_job)
    as (_ & _ & H5 & Hint & Hfrac & _).
  split; [apply (Hint 12 "h"%char 3600000); reflexivity|].
  split.
  - apply (Hfrac 1 (chars "5") "m"%char 60000 15);
      [reflexivity|lia|reflexivity|cbn; lia|reflexivity|lia
      |exists 3; reflexivity|cbn; lia].
  - apply (H5 "mail-7"%string); reflexivity.
Defined.

(** The conversion in cases where binary64 rounds: ['1.5m'] is 90000
    exactly, 1.1 minutes are 66000.00000000001 milliseconds and 1.005
    seconds are 1004.9999999999999 milliseconds before [parseInt]. *)
Example convert_interval_rounds (j : Job.t) :
  Job.convert_interval (VStr "1.5m") j = (Normal (VNum (Num 90000)), j)
  /\ Job.convert_interval (VStr "1.1m") j = (Normal (VNum (Num 66000)), j)
  /\ Job.convert_interval (VStr "1.005s") j = (Normal (VNum (Num 1004)), j)
  /\ Job.convert_interval (VStr "0.0625s") j = (Normal (VNum (Num 62)), j)
  /\ Job.convert_interval (VStr "1e3s") j = (Normal (VNum (Num 1000000)), j).
Proof.
  repeat (split; [vm_compute; reflexivity|]). vm_compute. reflexivity.
Qed.

(** ** Saving and reporting progress *)

Lemma requests_called (effs : list Async.effect) (tr : list Async.event) :
  Async.requests (List.map Async.Called effs ++ tr) = Async.requests tr.
Proof. induction effs; auto. Qed.

Lemma answers_called (effs : list Async.effect) (tr : list Async.event) :
  Async.answers (List.map Async.Called effs ++ tr) = Async.answers tr.
Proof. induction effs; auto. Qed.

Lemma requests_called_nil (effs : list Async.effect) :
  Async.requests (List.map Async.Called effs) = [].
Proof. induction effs; auto. Qed.

Lemma answers_called_nil (effs : list Async.effect) :
  Async.answers (List.map Async.Called effs) = [].
Proof. induction effs; auto. Qed.

(** One run of [save]: the request goes out, and the store answers with an
    error or a value. *)
Ltac answer_of exec s :=
  cbn [Async.then_ Async.evalScript Async.run];
  match goal with
  | |- context [exec ?r s] => destruct (exec r s) as [[?e|?v] ?s']
  end;
  cbn [Async.then_ Async.run Async.trace Async.job app
       Async.requests Async.answers];
  rewrite ?requests_called, ?requests_called_nil,
    ?answers_called, ?answers_called_nil.

(** C5, as amended.  Against any store, [save] sends exactly one request:
    the delayed-enqueue operation (keys id, jobs, delayed, earlierDelayed,
    then the candidate id or the empty string, the encoded job and the
    delay) when [options.delay] is truthy, and the immediate-enqueue
    operation (keys id, jobs, waiting, then the candidate id or the empty
    string and the encoded job) when [options.delay] is unset or otherwise
    falsy; never both. *)
Theorem save_enqueues_once {S : Type}
    (exec : Async.request -> S -> (exn + value) * S)
    (s : S) (q : Queue.t) (j : Job.t) :
  Async.requests (Async.trace (Async.run exec (Async.save q j) s j []))
  = if truthy (obj_get "delay" (Job.options j))
    then [delayed_enqueue q j]
    else [immediate_enqueue q j].
Proof.
  unfold Async.save, delayed_enqueue, immediate_enqueue, candidate.
  destruct (truthy (obj_get "delay" (Job.options j)));
    [destruct (truthy (Queue.activateDelayedJobs (Queue.settings q)))|];
    answer_of exec s; reflexivity.
Qed.

(** C5, as stated, fails on a delay that is set to 0: the job is enqueued
    immediately, not through the delayed operation. *)
Lemma save_zero_delay_is_immediate :
  delay_set zero_delay_job
  /\ Async.requests
       (Async.trace
          (Async.run counting_store (Async.save example_queue zero_delay_job)
             0%nat zero_delay_job []))
     = [immediate_enqueue example_queue zero_delay_job]
  /\ Async.requests
       (Async.trace
          (Async.run counting_store (Async.save example_queue zero_delay_job)
             0%nat zero_delay_job []))
     <> [delayed_enqueue example_queue zero_delay_job].
Proof.
  split; [discriminate|]. split; [reflexivity|]. discriminate.
Qed.

(** C7.  [reportProgress(v)] with [v] null or absent returns a promise
    that is already rejected, throws nothing, and leaves the job, hence
    [progress], unchanged.  With any other [v] it sets [progress] to [v]
    and, once the queue hands out its client, publishes exactly one
    notification, on the events channel of the queue, whose payload is the
    text of [{id, event: "progress", data: v}]; it never publishes more
    than that one. *)
Theorem reportProgress_contract (q : Queue.t) (v : value) (j : Job.t) :
  (v = VNull \/ v = VUndef ->
     Async.reportProgress q v j
     = (j, Async.Rejected (Error "Progress cannot be empty")))
  /\ (v <> VNull -> v <> VUndef ->
      fst (Async.reportProgress q v j) = Job.with_progress v j
      /\ forall (S : Type) (exec : Async.request -> S -> (exn + value) * S)
                (s : S),
           (Async.published
              (Async.trace
                 (Async.run exec (snd (Async.reportProgress q v j)) s
                    (fst (Async.reportProgress q v j)) [])) = []
            \/ Async.published
                 (Async.trace
                    (Async.run exec (snd (Async.reportProgress q v j)) s
                       (fst (Async.reportProgress q v j)) []))
               = [notification q j v])
           /\ (forall (client : value) (s' : S),
                 exec Async.Commandable s = (inr client, s') ->
                 Async.published
                   (Async.trace
                      (Async.run exec (snd (Async.reportProgress q v j)) s
                         (fst (Async.reportProgress q v j)) []))
                 = [notification q j v])).
Proof.
  split.
  - intros [-> | ->]; reflexivity.
  - intros Hn Hu.
    assert (Hnn : not_nullish v = true) by (destruct v; cbn; congruence).
    unfold Async.reportProgress. rewrite Hnn. cbn [fst snd].
    split; [reflexivity|].
    intros S exec s.
    assert (Hpub : forall client s',
      exec Async.Commandable s = (inr client, s') ->
      Async.published
        (Async.trace
           (Async.run exec
              (Async.Await Async.Commandable
                 (fun _ =>
                    Async.Run (fun this => (this, []))
                      (fun this =>
                         Async.Await
                           (Async.Publish (Queue.toKey q "events")
                              (Async.progress_payload this v))
                           Async.Fulfilled)))
              s (Job.with_progress v j) []))
      = [notification q j v]).
    { intros client s' Hc. cbn [Async.run]. rewrite Hc. cbn [Async.run].
      unfold Async.progress_payload, notification.
      cbn [Job.id Job.with_progress].
      match goal with
      | |- context [exec ?r s'] => destruct (exec r s') as [[e|w] s'']
      end; reflexivity. }
    split; [|exact Hpub].
    destruct (exec Async.Commandable s) as [[e|client] s'] eqn:Hc.
    + left. cbn [Async.run]. rewrite Hc. reflexivity.
    + right. exact (Hpub client s' eq_refl).
Qed.

Lemma reportProgress_contract_witness :
  Async.reportProgress example_queue VNull fresh_job
  = (fresh_job, Async.Rejected (Error "Progress cannot be empty"))
  /\ fst (Async.reportProgress example_queue (VNum (Num 42)) fresh_job)
     = Job.with_progress (VNum (Num 42)) fresh_job
  /\ counting_store Async.Commandable 0%nat = (inr (VStr "1"), 1%nat)
  /\ Async.published
       (Async.trace
          (Async.run counting_store
             (snd (Async.reportProgress example_queue (VNum (Num 42))
                     fresh_job))
             0%nat
             (fst (Async.reportProgress example_queue (VNum (Num 42))
                     fresh_job))
             []))
     = [notification example_queue fresh_job (VNum (Num 42))].
Proof.
  split.
  { apply (proj1 (reportProgress_contract example_queue VNull fresh_job)).
    left. reflexivity. }
  split.
  { apply (proj2 (reportProgress_contract example_queue (VNum (Num 42))
                    fresh_job)); discriminate. }
  split; [reflexivity|].
  apply (proj2 (proj2 (reportProgress_contract example_queue (VNum (Num 42))
                         fresh_job)
                  ltac:(discriminate) ltac:(discriminate))
           nat counting_store 0%nat) with (client := VStr "1") (s' := 1%nat).
  reflexivity.
Defined.

(** Whatever the store, the job's [id] after [save] is the answer of the
    enqueue operation; a rejected request leaves the job as it was. *)
Lemma save_id_is_answer {S : Type}
    (exec : Async.request -> S -> (exn + value) * S)
    (s : S) (q : Queue.t) (j : Job.t) :
  let o := Async.run exec (Async.save q j) s j [] in
  match Async.answers (Async.trace o) with
  | [inr v] => Job.id (Async.job o) = v
  | [inl e] => Async.job o = j
  | _ => False
  end.
Proof.
  unfold Async.save.
  destruct (truthy (obj_get "delay" (Job.options j)));
    [destruct (truthy (Queue.activateDelayedJobs (Queue.settings q)))|];
    answer_of exec s; reflexivity.
Qed.

(** One run of [save] against the modelled store, for the candidate [c]:
    the id is assigned, then looked up in the job table. *)
Ltac enqueue_in s c :=
  cbn [truthy Async.then_ Async.evalScript Async.run Store.exec
       String.eqb Ascii.eqb Bool.eqb];
  unfold Store.addJob, Store.addDelayedJob, Store.assign_id;
  destruct (String.eqb c ""); cbn [Store.jobs Store.id_seq];
  destruct (Store.jobs s !! _);
  cbn [Async.then_ Async.run Async.trace app Async.answers];
  rewrite ?answers_called, ?answers_called_nil.

(** C1, as amended.  When the candidate id of [save] is already in the
    store's job table, the enqueue operation answers with the falsy
    not-created sentinel, and [save] overwrites the job's [id] with that
    sentinel.  When the id to create (the candidate, or the next id of the
    sequence for an empty candidate) is not in the table, the operation
    answers with that id, which is not null, and [save] overwrites the job's
    [id] with it. *)
Theorem save_overwrites_id (q : Queue.t) (s : Store.t) (j : Job.t)
    (c : string) :
  candidate j = VStr c ->
  delay_is_instant j ->
  let o := Async.run Store.exec (Async.save q j) s j [] in
  let jobId := if String.eqb c "" then decimal (Store.id_seq s + 1) else c in
  (c <> ""%string -> is_Some (Store.jobs s !! c) ->
     Async.answers (Async.trace o) = [inr Store.not_created]
     /\ truthy Store.not_created = false
     /\ Job.id (Async.job o) = Store.not_created)
  /\ (Store.jobs s !! jobId = None ->
      Async.answers (Async.trace o) = [inr (VStr jobId)]
      /\ VStr jobId <> VNull
      /\ Job.id (Async.job o) = VStr jobId).
Proof.
  intros Hc Hd o jobId.
  assert (Hans :
    Async.answers (Async.trace o)
    = [inr (match Store.jobs s !! jobId with
            | Some _ => Store.not_created
            | None => VStr jobId
            end)]).
  { subst o jobId. unfold Async.save. fold (candidate j). rewrite Hc.
    destruct Hd as [Hd|[t Hd]]; rewrite Hd;
      [|destruct (truthy (VNum (Num t)));
        [destruct (truthy (Queue.activateDelayedJobs (Queue.settings q)))|]];
      enqueue_in s c; reflexivity. }
  pose proof (save_id_is_answer Store.exec s q j) as Hid.
  cbv zeta in Hid. fold o in Hid. rewrite Hans in Hid.
  split.
  - intros Hne [x Hx].
    assert (jobId = c) as Hj.
    { subst jobId. destruct (String.eqb_spec c ""); congruence. }
    rewrite Hj, Hx in Hans, Hid. auto.
  - intros Hnone. rewrite Hnone in Hans, Hid. repeat split; auto; discriminate.
Qed.

Lemma save_overwrites_id_witness :
  candidate duplicate_job = VStr "abc"
  /\ delay_is_instant duplicate_job
  /\ is_Some (Store.jobs example_store !! "abc"%string)
  /\ Async.answers
       (Async.trace
          (Async.run Store.exec (Async.save example_queue duplicate_job)
             example_store duplicate_job []))
     = [inr Store.not_created]
  /\ Job.id
       (Async.job
          (Async.run Store.exec (Async.save example_queue duplicate_job)
             example_store duplicate_job []))
     = Store.not_created
  /\ candidate fresh_job = VStr "mail-7"
  /\ Store.jobs example_store !! "mail-7"%string = None
  /\ Job.id
       (Async.job
          (Async.run Store.exec (Async.save example_queue fresh_job)
             example_store fresh_job []))
     = VStr "mail-7".
Proof.
  assert (Hd : forall id', delay_is_instant (example_job id' example_options))
    by (intros id'; left; reflexivity).
  assert (Hsome : is_Some (Store.jobs example_store !! "abc"%string))
    by (exists "{}"%string; reflexivity).
  split; [reflexivity|]. split; [apply Hd|]. split; [exact Hsome|].
  pose proof (proj1 (save_overwrites_id example_queue example_store
                       duplicate_job "abc" eq_refl (Hd _))
                ltac:(discriminate) Hsome) as (Ha & _ & Hi).
  split; [exact Ha|]. split; [exact Hi|].
  split; [reflexivity|]. split; [reflexivity|].
  apply (proj2 (save_overwrites_id example_queue example_store
                  fresh_job "mail-7" eq_refl (Hd _))).
  reflexivity.
Defined.

(** C1, as stated, fails: saving a job whose id is already in the store
    changes the job's [id], from the string it was to [null]. *)
Lemma save_duplicate_id_is_overwritten :
  candidate duplicate_job = VStr "abc"
  /\ Store.jobs example_store !! "abc"%string = Some "{}"%string
  /\ Job.id duplicate_job = VStr "abc"
  /\ Job.id
       (Async.job
          (Async.run Store.exec (Async.save example_queue duplicate_job)
             example_store duplicate_job []))
     = VNull
  /\ Job.id
       (Async.job
          (Async.run Store.exec (Async.save example_queue duplicate_job)
             example_store duplicate_job []))
     <> Job.id duplicate_job.
Proof.
  split; [reflexivity|]. split; [reflexivity|]. split; [reflexivity|].
  split; [reflexivity|]. discriminate.
Qed.

(** ** JSON text *)

(** Induction on values through the lists they are nested in. *)
Lemma value_nested_ind (P : value -> Prop) :
  P VUndef -> P VNull -> (forall b, P (VBool b)) -> (forall n, P (VNum n)) ->
  (forall s, P (VStr s)) ->
  (forall l, Forall P l -> P (VArr l)) ->
  (forall o, Forall (fun kv => P (snd kv)) o -> P (VObj o)) ->
  forall v, P v.
Proof.
  intros Hu Hn Hb Hnum Hs Harr Hobj.
  fix IH 1.
  intros [| |b|n|s|l|o];
    [exact Hu|exact Hn|apply Hb|apply Hnum|apply Hs| |].
  - apply Harr. induction l as [|x l IHl]; constructor; [apply IH|exact IHl].
  - apply Hobj.
    induction o as [|[k x] o IHo]; constructor; [apply IH|exact IHo].
Qed.

(** A quoted character is read back, whatever escape was printed. *)
Lemma parse_string_char (c : ascii) (tail s r : list ascii) :
  parse_string tail = Normal (s, r) ->
  parse_string (quote_char c ++ tail) = Normal (c :: s, r).
Proof.
  intros H.
  assert (Hstep : parse_string (quote_char c ++ tail)
                  = let* (s0, r') := parse_string tail in Normal (c :: s0, r')).
  { destruct c as [[] [] [] [] [] [] [] []]; reflexivity. }
  rewrite Hstep, H. reflexivity.
Qed.

Lemma parse_quoted (cs rest : list ascii) :
  parse_string (flat_map quote_char cs ++ dquote :: rest) = Normal (cs, rest).
Proof.
  induction cs as [|c cs IH]; [reflexivity|].
  cbn [flat_map]. rewrite <- app_assoc. now apply parse_string_char.
Qed.

(** One step of the parser on each leading character. *)

Lemma skip_ws_keep (c : ascii) (r : list ascii) :
  is_ws c = false -> skip_ws (c :: r) = c :: r.
Proof. intros H. cbn [skip_ws]. now rewrite H. Qed.

Lemma parse_value_null (f : nat) (r : list ascii) :
  parse_value (S f) (chars "null" ++ r) = Normal (VNull, r).
Proof. reflexivity. Qed.

Lemma parse_value_true (f : nat) (r : list ascii) :
  parse_value (S f) (chars "true" ++ r) = Normal (VBool true, r).
Proof. reflexivity. Qed.

Lemma parse_value_false (f : nat) (r : list ascii) :
  parse_value (S f) (chars "false" ++ r) = Normal (VBool false, r).
Proof. reflexivity. Qed.

Lemma parse_value_string (f : nat) (r : list ascii) :
  parse_value (S f) (dquote :: r)
  = let* (s, r') := parse_string r in Normal (VStr (text s), r').
Proof. reflexivity. Qed.

Lemma parse_value_minus (f : nat) (r : list ascii) :
  parse_value (S f) ("-"%char :: r) = parse_number (-1) r.
Proof. reflexivity. Qed.

Lemma parse_value_digit (f : nat) (c : ascii) (r : list ascii) :
  is_digit c = true -> parse_value (S f) (c :: r) = parse_number 1 (c :: r).
Proof.
  destruct c as [[] [] [] [] [] [] [] []]; intros H;
    first [reflexivity | vm_compute in H; discriminate H].
Qed.

Lemma parse_value_array (f : nat) (r : list ascii) :
  parse_value (S f) ("["%char :: r)
  = match skip_ws r with
    | c' :: r' =>
        if Ascii.eqb c' "]" then Normal (VArr [], r')
        else let* (l, r'') := parse_elements f r in Normal (VArr l, r'')
    | [] => Throw SyntaxError
    end.
Proof. reflexivity. Qed.

Lemma parse_value_object (f : nat) (r : list ascii) :
  parse_value (S f) ("{"%char :: r)
  = match skip_ws r with
    | c' :: r' =>
        if Ascii.eqb c' "}" then Normal (VObj [], r')
        else let* (o, r'') := parse_members f r [] in Normal (VObj o, r'')
    | [] => Throw SyntaxError
    end.
Proof. reflexivity. Qed.

Lemma parse_elements_step (f : nat) (cs : list ascii) :
  parse_elements (S f) cs
  = let* (v, r) := parse_value f cs in
    match skip_ws r with
    | c :: r' =>
        if Ascii.eqb c "," then
          let* (l, r'') := parse_elements f r' in Normal (v :: l, r'')
        else if Ascii.eqb c "]" then Normal ([v], r')
        else Throw SyntaxError
    | [] => Throw SyntaxError
    end.
Proof. reflexivity. Qed.

Lemma parse_members_step (f : nat) (r : list ascii) (acc : object) :
  parse_members (S f) (dquote :: r) acc
  = let* (k, r1) := parse_string r in
    match skip_ws r1 with
    | c1 :: r2 =>
        if Ascii.eqb c1 ":" then
          let* (v, r3) := parse_value f r2 in
          let acc' := obj_set (text k) v acc in
          match skip_ws r3 with
          | c3 :: r4 =>
              if Ascii.eqb c3 "," then parse_members f r4 acc'
              else if Ascii.eqb c3 "}" then Normal (acc', r4)
              else Throw SyntaxError
          | [] => Throw SyntaxError
          end
        else Throw SyntaxError
    | [] => Throw SyntaxError
    end.
Proof. reflexivity. Qed.

Lemma follows_not_digit (rest : list ascii) :
  follows rest ->
  match rest with c :: _ => is_digit c = false | [] => True end.
Proof. destruct rest as [|c r]; [auto|]. intros [->|[->| ->]]; reflexivity. Qed.

Lemma follows_not_fraction (rest : list ascii) :
  follows rest -> starts_fraction rest = false.
Proof. destruct rest as [|c r]; [auto|]. intros [->|[->| ->]]; reflexivity. Qed.

Lemma parse_number_numeral (sg n : Z) (c0 : ascii) (ds' rest : list ascii) :
  forallb is_digit (c0 :: ds') = true ->
  (c0 = "0"%char -> ds' = []) ->
  digits_value (c0 :: ds') = Some n ->
  exact n = true ->
  follows rest ->
  parse_number sg ((c0 :: ds') ++ rest) = Normal (VNum (Num (sg * n)), rest).
Proof.
  intros Hd H0 Hv Hx Hf. unfold parse_number.
  rewrite (span_digits_app _ _ Hd (follows_not_digit _ Hf)).
  assert (Hlz : leading_zero (c0 :: ds') = false).
  { destruct ds' as [|d ds']; [reflexivity|]. cbn.
    destruct (Ascii.eqb_spec c0 "0") as [E|E]; [|reflexivity].
    now specialize (H0 E). }
  rewrite Hlz, (follows_not_fraction _ Hf), Hv, Hx. reflexivity.
Qed.

Lemma parse_value_number (f : nat) (z : Z) (rest : list ascii) :
  exact z = true -> follows rest ->
  parse_value (S f) (chars (decimal z) ++ rest) = Normal (VNum (Num z), rest).
Proof.
  intros Hx Hf.
  destruct (decimal_shape z) as (ds & c0 & ds' & -> & Hd & H0 & Hv & ->).
  rewrite <- exact_abs in Hx.
  destruct (Z.ltb_spec z 0).
  - rewrite <- app_comm_cons, parse_value_minus.
    rewrite (parse_number_numeral _ _ _ _ _ Hd H0 Hv Hx Hf).
    replace (-1 * Z.abs z) with z by lia. reflexivity.
  - pose proof Hd as Hd'. cbn [forallb] in Hd'.
    apply andb_true_iff in Hd' as [Hc0 _].
    rewrite <- app_comm_cons, (parse_value_digit _ _ _ Hc0), app_comm_cons.
    rewrite (parse_number_numeral _ _ _ _ _ Hd H0 Hv Hx Hf).
    replace (1 * Z.abs z) with z by lia. reflexivity.
Qed.

Lemma decimal_first (z : Z) :
  exists c cs', chars (decimal z) = c :: cs'
                /\ is_ws c = false /\ Ascii.eqb c "]" = false.
Proof.
  destruct (decimal_shape z) as (ds & c0 & ds' & -> & Hd & _ & _ & ->).
  destruct (z <? 0); [exists "-"%char; eexists; repeat split|].
  cbn [forallb] in Hd. apply andb_true_iff in Hd as [Hc0 _].
  exists c0, ds'. split; [reflexivity|].
  destruct c0 as [[] [] [] [] [] [] [] []];
    first [split; reflexivity | vm_compute in Hc0; discriminate Hc0].
Qed.

(** The elements of a printed array are read back in order. *)
Lemma parse_printed_elements (l : list value) :
  Forall prints_back l -> forallb plain l = true -> l <> [] ->
  (exists c J', join (elements_with ser l) = c :: J' /\ is_ws c = false
                /\ Ascii.eqb c "]" = false)
  /\ forall fuel rest,
       (length (join (elements_with ser l)) + 1 < fuel)%nat ->
       parse_elements fuel (join (elements_with ser l) ++ "]"%char :: rest)
       = Normal (l, rest).
Proof.
  induction l as [|x l IH]; [congruence|]. intros HF Hp _.
  apply Forall_cons in HF as [Hx HF]. cbn [forallb] in Hp.
  apply andb_true_iff in Hp as [Hpx Hpl].
  destruct (Hx Hpx) as (cs & Hser & (c & cs' & -> & Hws & Hbr) & Hparse).
  unfold elements_with in *. cbn [List.map]. rewrite Hser.
  change (default (chars "null") (Some (c :: cs'))) with (c :: cs').
  destruct l as [|y l'].
  - cbn [List.map join]. split; [eauto|].
    intros fuel rest Hlen. destruct fuel as [|f]; [lia|].
    cbn [length] in *.
    rewrite parse_elements_step, Hparse;
      [reflexivity|cbn [length]; lia|cbn; auto].
  - destruct (IH HF Hpl ltac:(discriminate)) as [_ IHparse].
    set (rest_ := List.map (fun x => default (chars "null") (ser x))
                    (y :: l')) in *.
    change (join ((c :: cs') :: rest_))
      with ((c :: cs') ++ ","%char :: join rest_).
    split; [eauto|].
    intros fuel rest Hlen. destruct fuel as [|f]; [lia|].
    rewrite length_app in Hlen. cbn [length] in Hlen.
    rewrite parse_elements_step, <- app_assoc, Hparse;
      [|cbn [length]; lia|cbn; auto].
    cbn [bindc app]. rewrite skip_ws_keep by reflexivity.
    change (Ascii.eqb "," ",") with true. cbv iota.
    rewrite IHparse by lia. reflexivity.
Qed.

(** The members of a printed object are read back in order, each one a new
    key of the object under construction. *)
Lemma parse_printed_members (o : object) :
  Forall (fun kv => prints_back (snd kv)) o ->
  forallb (fun kv => plain (snd kv)) o = true -> o <> [] ->
  (exists J', join (members_with ser o) = dquote :: J')
  /\ forall acc fuel rest,
       distinct (List.map fst (acc ++ o)) = true ->
       (length (join (members_with ser o)) + 1 < fuel)%nat ->
       parse_members fuel (join (members_with ser o) ++ "}"%char :: rest) acc
       = Normal (acc ++ o, rest).
Proof.
  induction o as [|[k x] o IH]; [congruence|]. intros HF Hp _.
  apply Forall_cons in HF as [Hx HF]. cbn [forallb snd] in Hp, Hx.
  apply andb_true_iff in Hp as [Hpx Hpl].
  destruct (Hx Hpx) as (cs & Hser & _ & Hparse).
  cbn [members_with]. rewrite Hser. fold (members_with ser o).
  assert (Hstep : forall f acc tail,
    (length cs < f)%nat -> follows tail ->
    existsb (String.eqb k) (List.map fst acc) = false ->
    parse_members (S f) ((quote k ++ ":"%char :: cs) ++ tail) acc
    = match skip_ws tail with
      | c3 :: r4 =>
          if Ascii.eqb c3 "," then parse_members f r4 (acc ++ [(k, x)])
          else if Ascii.eqb c3 "}" then Normal (acc ++ [(k, x)], r4)
          else Throw SyntaxError
      | [] => Throw SyntaxError
      end).
  { intros f acc tail Hf Htail Hfresh. unfold quote.
    cbn [app]. rewrite parse_members_step.
    rewrite <- !app_assoc. cbn [app]. rewrite parse_quoted. cbn [bindc].
    rewrite skip_ws_keep by reflexivity.
    change (Ascii.eqb ":" ":") with true. cbv iota.
    rewrite Hparse by assumption. cbn [bindc]. cbv zeta.
    rewrite text_chars, (obj_set_fresh _ _ _ Hfresh). reflexivity. }
  destruct o as [|[k2 x2] o'].
  - cbn [members_with join]. split; [unfold quote; cbn [app]; eauto|].
    intros acc fuel rest Hd Hlen. destruct fuel as [|f]; [lia|].
    rewrite ?length_app in Hlen. cbn [length] in Hlen.
    rewrite ?length_app in Hlen. cbn [length] in Hlen.
    rewrite Hstep; [reflexivity|lia|cbn; auto|].
    rewrite map_app in Hd. now apply distinct_middle in Hd.
  - destruct (IH HF Hpl ltac:(discriminate)) as [[J' HJ] IHparse].
    assert (Hjoin : join ((quote k ++ ":"%char :: cs)
                            :: members_with ser ((k2, x2) :: o'))
                    = (quote k ++ ":"%char :: cs) ++ ","%char
                        :: join (members_with ser ((k2, x2) :: o'))).
    { destruct (members_with ser ((k2, x2) :: o')) eqn:E;
        [discriminate HJ|reflexivity]. }
    rewrite Hjoin.
    split; [unfold quote; cbn [app]; eauto|].
    intros acc fuel rest Hd Hlen. destruct fuel as [|f]; [lia|].
    rewrite ?length_app in Hlen. cbn [length] in Hlen.
    rewrite ?length_app in Hlen. cbn [length] in Hlen.
    rewrite <- app_assoc. rewrite Hstep; [|lia|cbn; auto|].
    + cbn [app]. rewrite skip_ws_keep by reflexivity.
      change (Ascii.eqb "," ",") with true. cbv iota.
      rewrite IHparse; [now rewrite <- app_assoc| |lia].
      now rewrite <- app_assoc.
    + rewrite map_app in Hd. now apply distinct_middle in Hd.
Qed.

(** Every plain value prints to a text that parses back to it. *)
Lemma plain_prints_back (v : value) : prints_back v.
Proof.
  induction v as [| |b|n|s|l IHl|o IHo] using value_nested_ind;
    unfold prints_back; intros Hp.
  - discriminate Hp.
  - exists (chars "null"). split; [reflexivity|]. split.
    + exists "n"%char. eexists. repeat split.
    + intros [|f] rest Hlen _; [cbn in Hlen; lia|]. apply parse_value_null.
  - destruct b.
    + exists (chars "true"). split; [reflexivity|]. split.
      * exists "t"%char. eexists. repeat split.
      * intros [|f] rest Hlen _; [cbn in Hlen; lia|]. apply parse_value_true.
    + exists (chars "false"). split; [reflexivity|]. split.
      * exists "f"%char. eexists. repeat split.
      * intros [|f] rest Hlen _; [cbn in Hlen; lia|].
        apply parse_value_false.
  - destruct n as [|z]; [discriminate Hp|]. cbn [plain] in Hp.
    exists (chars (decimal z)). split; [reflexivity|]. split.
    + apply decimal_first.
    + intros [|f] rest Hlen Hf; [lia|]. now apply parse_value_number.
  - exists (quote s). split; [reflexivity|]. split.
    + exists dquote. eexists. repeat split.
    + intros [|f] rest Hlen _; [lia|]. unfold quote.
      cbn [app]. rewrite parse_value_string, <- app_assoc. cbn [app].
      rewrite parse_quoted. cbn [bindc]. now rewrite text_chars.
  - cbn [plain] in Hp.
    exists ("["%char :: join (elements_with ser l) ++ ["]"%char]).
    split; [reflexivity|]. split; [exists "["%char; eexists; repeat split|].
    intros [|f] rest Hlen _; [lia|].
    cbn [app]. rewrite parse_value_array, <- app_assoc. cbn [app].
    destruct l as [|x l]; [reflexivity|].
    destruct (parse_printed_elements (x :: l) IHl Hp ltac:(discriminate))
      as [(c & J' & HJ & Hws & Hbr) Hparse].
    rewrite HJ at 1. cbn [app]. rewrite (skip_ws_keep _ _ Hws), Hbr.
    rewrite Hparse; [reflexivity|].
    cbn [length] in Hlen. rewrite length_app in Hlen. cbn [length] in Hlen.
    lia.
  - cbn [plain] in Hp. apply andb_true_iff in Hp as [Hp Hd].
    exists ("{"%char :: join (members_with ser o) ++ ["}"%char]).
    split; [reflexivity|]. split; [exists "{"%char; eexists; repeat split|].
    intros [|f] rest Hlen _; [lia|].
    cbn [app]. rewrite parse_value_object, <- app_assoc. cbn [app].
    destruct o as [|kx o]; [reflexivity|].
    destruct (parse_printed_members (kx :: o) IHo Hp ltac:(discriminate))
      as [(J' & HJ) Hparse].
    rewrite HJ at 1. cbn [app]. rewrite skip_ws_keep by reflexivity.
    change (Ascii.eqb dquote "}") with false. cbv iota.
    rewrite Hparse; [reflexivity|exact Hd|].
    cbn [length] in Hlen. rewrite length_app in Hlen. cbn [length] in Hlen.
    lia.
Qed.

(** [JSON.parse(JSON.stringify(o))] is [o] on a plain object. *)
Lemma parse_stringify_object (o : object) :
  plain (VObj o) = true -> JSON.parse (stringify_object o) = Normal (VObj o).
Proof.
  intros Hp.
  destruct (plain_prints_back (VObj o) Hp) as (cs & Hser & _ & Hparse).
  unfold JSON.parse, stringify_object. rewrite Hser.
  cbn [default from_option]. unfold id.
  rewrite chars_text.
  rewrite <- (app_nil_r cs) at 2.
  rewrite Hparse; [reflexivity|lia|exact I].
Qed.

(** ** The record codec *)

Lemma record_shape (j : Job.t) :
  Job.record j
  = [("data", Job.data j); ("options", VObj (Job.options j));
     ("status", Job.status j)]%string
    ++ match Job.count j with
       | Some c => if truthy c then [("count"%string, c)] else []
       | None => []
       end.
Proof.
  unfold Job.record, Job.get_count.
  destruct (Job.count j) as [c|]; [|reflexivity].
  cbn [default from_option]. unfold id. destruct (truthy c); reflexivity.
Qed.

Lemma valid_record_plain (j : Job.t) :
  valid j = true -> plain (VObj (Job.record j)) = true.
Proof.
  unfold valid. intros H.
  repeat (apply andb_true_iff in H as [H ?]).
  rewrite record_shape. destruct (Job.count j) as [c|].
  - match goal with Hc : _ && _ = true |- _ =>
      apply andb_true_iff in Hc as [Hpc Htc] end.
    rewrite Htc. cbn -[plain]. cbn [plain forallb snd] in *.
    rewrite H, Hpc. cbn [plain] in *.
    repeat match goal with Hx : _ = true |- _ => rewrite Hx end. reflexivity.
  - cbn -[plain]. cbn [plain forallb snd] in *.
    rewrite H. cbn [plain] in *.
    repeat match goal with Hx : _ = true |- _ => rewrite Hx end. reflexivity.
Qed.

Lemma record_fields (j : Job.t) :
  obj_get "data" (Job.record j) = Job.data j
  /\ obj_get "options" (Job.record j) = VObj (Job.options j)
  /\ obj_get "status" (Job.record j) = Job.status j
  /\ obj_get "count" (Job.record j)
     = if truthy (Job.get_count j) then Job.get_count j else VUndef.
Proof.
  rewrite record_shape. unfold Job.get_count.
  destruct (Job.count j) as [c|]; [|repeat split].
  cbn [default from_option]. unfold id.
  destruct (truthy c); repeat split.
Qed.

(** What [fromData] builds from the text of a plain record. *)
Lemma decode_record (now : Z) (jobId : value) (o opts : object) :
  plain (VObj o) = true ->
  obj_get "options" o = VObj opts ->
  truthy (obj_get "data" o) = true ->
  truthy (obj_get "timestamp" opts) = true ->
  truthy (obj_get "stacktraces" opts) = true ->
  Job.fromData now jobId (stringify_object o)
  = Normal
      {| Job.id := jobId; Job.progress := VNum (Num 0);
         Job.data := obj_get "data" o; Job.options := opts;
         Job.status := obj_get "status" o;
         Job.count := if truthy (obj_get "count" o)
                      then Some (obj_get "count" o) else None |}.
Proof.
  intros Hp Ho Hd Hts Hst.
  unfold Job.fromData. rewrite (parse_stringify_object o Hp).
  cbn [bindc Job.field]. rewrite Ho. unfold Job.new.
  change (or_else (VObj opts) (VObj [])) with (VObj opts). cbv iota beta.
  rewrite (or_else_truthy (obj_get "timestamp" opts)) by assumption.
  rewrite obj_set_get_same by assumption.
  rewrite (or_else_truthy (obj_get "stacktraces" opts)) by assumption.
  rewrite obj_set_get_same by assumption.
  rewrite (or_else_truthy (obj_get "data" o)) by assumption.
  cbn [bindc]. now destruct (truthy (obj_get "count" o)).
Qed.

Lemma fromData_toData (now : Z) (jobId : value) (j : Job.t) :
  valid j = true ->
  Job.fromData now jobId (Job.toData j) = Normal (decoded jobId j).
Proof.
  intros Hv.
  pose proof (valid_record_plain j Hv) as Hp.
  destruct (record_fields j) as (Hd & Ho & Hs & Hc).
  unfold valid in Hv. repeat (apply andb_true_iff in Hv as [Hv ?]).
  unfold Job.toData.
  rewrite (decode_record now jobId (Job.record j) (Job.options j) Hp Ho)
    by (rewrite ?Hd; assumption).
  rewrite Hd, Hs, Hc. unfold decoded, Job.get_count.
  destruct (Job.count j) as [c|]; cbn [default from_option]; [|reflexivity].
  unfold id.
  match goal with Hx : _ && _ = true |- _ =>
    apply andb_true_iff in Hx as [_ Htc] end.
  now rewrite !Htc.
Qed.

(** A record in which [count] is written out as 0 decodes to the job
    without count. *)
Lemma explicit_zero_count (now : Z) (jobId : value) (j : Job.t) :
  valid (clear_count j) = true ->
  Job.fromData now jobId (stringify_object (explicit_count (VNum (Num 0)) j))
  = Normal (decoded jobId (clear_count j)).
Proof.
  intros Hv. unfold explicit_count.
  assert (Hrec : Job.record (clear_count j)
                 = [("data", Job.data j); ("options", VObj (Job.options j));
                    ("status", Job.status j)]%string) by reflexivity.
  rewrite Hrec. cbn [app].
  unfold valid in Hv.
  cbn [clear_count Job.data Job.options Job.status Job.count] in Hv.
  repeat (apply andb_true_iff in Hv as [Hv ?]).
  rewrite (decode_record now jobId _ (Job.options j)); try assumption;
    try reflexivity.
  cbn [plain forallb snd List.map fst distinct existsb]. cbn [plain] in *.
  repeat match goal with Hx : _ = true |- _ => rewrite Hx end. reflexivity.
Qed.

(** C2.  For every valid job, the text of [toData] parses to the record
    [{data, options, status, count?}], from which the [count] key is absent
    when the job has no count, and [fromData] on that text (with any queue,
    instant and id) builds a job with exactly the [data], [options],
    [status] and [count] of the original, [count] being absent when it was;
    encoding the decoded job gives the same text again. *)
Theorem decode_encode (now : Z) (jobId : value) (j : Job.t) :
  valid j = true ->
  JSON.parse (Job.toData j) = Normal (VObj (Job.record j))
  /\ (Job.count j = None -> has_key "count" (Job.record j) = false)
  /\ Job.fromData now jobId (Job.toData j) = Normal (decoded jobId j)
  /\ Job.data (decoded jobId j) = Job.data j
  /\ Job.options (decoded jobId j) = Job.options j
  /\ Job.status (decoded jobId j) = Job.status j
  /\ Job.count (decoded jobId j) = Job.count j
  /\ Job.toData (decoded jobId j) = Job.toData j.
Proof.
  intros Hv.
  split; [now apply parse_stringify_object, valid_record_plain|].
  split; [intros Hc; rewrite record_shape, Hc; reflexivity|].
  split; [now apply fromData_toData|].
  repeat split.
Qed.

Lemma decode_encode_witness :
  valid retried_job = true
  /\ Job.fromData 1700000000500 (VStr "42") (Job.toData retried_job)
     = Normal (decoded (VStr "42") retried_job)
  /\ valid fresh_job = true
  /\ (Job.count fresh_job = None ->
      has_key "count" (Job.record fresh_job) = false).
Proof.
  split; [reflexivity|]. split.
  { apply (decode_encode 1700000000500 (VStr "42") retried_job).
    reflexivity. }
  split; [reflexivity|].
  apply (decode_encode 0 VNull fresh_job). reflexivity.
Defined.

(** *** Valid jobs

    Validity is what the constructor establishes and the setters keep, as
    long as the values handed to them are plain. *)

Lemma obj_get_set_other (k k' : string) (v : value) (o : object) :
  k <> k' -> obj_get k (obj_set k' v o) = obj_get k o.
Proof.
  intros Hne. induction o as [|[k0 v0] o IH]; cbn.
  - destruct (String.eqb_spec k k'); congruence.
  - destruct (String.eqb_spec k' k0) as [->|H0]; cbn.
    + destruct (String.eqb_spec k k0); congruence.
    + destruct (String.eqb_spec k k0); auto.
Qed.

Lemma plain_obj_get (k : string) (o : object) :
  forallb (fun kv => plain (snd kv)) o = true ->
  truthy (obj_get k o) = true -> plain (obj_get k o) = true.
Proof.
  induction o as [|[k0 v0] o IH]; cbn; [discriminate|].
  intros H Ht. apply andb_true_iff in H as [Hv Ho].
  destruct (String.eqb k k0); auto.
Qed.

Lemma keys_obj_set (k : string) (v : value) (o : object) :
  List.map fst (obj_set k v o)
  = if existsb (String.eqb k) (List.map fst o) then List.map fst o
    else List.map fst o ++ [k].
Proof.
  induction o as [|[k0 v0] o IH]; cbn; [reflexivity|].
  destruct (String.eqb_spec k k0) as [->|Hne]; cbn; [reflexivity|].
  rewrite IH. now destruct (existsb (String.eqb k) (List.map fst o)).
Qed.

Lemma distinct_snoc (ks : list string) (k : string) :
  distinct ks = true -> existsb (String.eqb k) ks = false ->
  distinct (ks ++ [k]) = true.
Proof.
  induction ks as [|a ks IH]; cbn; [reflexivity|].
  intros H Hk. apply andb_true_iff in H as [Ha Hd].
  apply orb_false_elim in Hk as [Hka Hk].
  rewrite existsb_app. cbn. rewrite String.eqb_sym, Hka.
  apply negb_true_iff in Ha. rewrite Ha. cbn. now apply IH.
Qed.

Lemma values_obj_set (k : string) (v : value) (o : object) :
  forallb (fun kv => plain (snd kv)) o = true -> plain v = true ->
  forallb (fun kv => plain (snd kv)) (obj_set k v o) = true.
Proof.
  intros Ho Hv. induction o as [|[k0 v0] o IH]; cbn in *.
  - now rewrite Hv.
  - apply andb_true_iff in Ho as [H0 Ho].
    destruct (String.eqb k k0); cbn; [now rewrite Hv|]. rewrite H0. auto.
Qed.

Lemma plain_obj_set (k : string) (v : value) (o : object) :
  plain (VObj o) = true -> plain v = true ->
  plain (VObj (obj_set k v o)) = true.
Proof.
  cbn [plain]. intros H Hv. apply andb_true_iff in H as [Hvals Hkeys].
  rewrite (values_obj_set _ _ _ Hvals Hv), keys_obj_set. cbn.
  destruct (existsb (String.eqb k) (List.map fst o)) eqn:E; auto.
  now apply distinct_snoc.
Qed.

(** The constructor builds valid jobs from plain arguments. *)
Lemma new_valid (now : Z) (jobId data options : value) (j : Job.t) :
  now <> 0 -> exact now = true ->
  data = VUndef \/ plain data = true ->
  options = VUndef \/ plain options = true ->
  Job.new now jobId data options = Normal j ->
  valid j = true.
Proof.
  intros Hnow Hx Hd Ho. unfold Job.new.
  assert (Hopt : exists o, or_else options (VObj []) = VObj o
                           /\ plain (VObj o) = true
                 \/ forall o, or_else options (VObj []) <> VObj o).
  { unfold or_else. destruct (truthy options) eqn:Ht.
    - destruct options; try (exists []; right; intros; discriminate).
      exists o. left. split; [reflexivity|].
      destruct Ho as [Ho|Ho]; [discriminate|exact Ho].
    - exists []. left. split; reflexivity. }
  destruct Hopt as (o & [[-> Hpo]|Hno]).
  2: { destruct (or_else options (VObj [])); try discriminate.
       now specialize (Hno o0). }
  intros [= <-]. unfold valid. cbn [Job.data Job.options Job.status Job.count].
  assert (Hdata : plain (or_else data (VObj [])) = true
                  /\ truthy (or_else data (VObj [])) = true).
  { unfold or_else. destruct (truthy data) eqn:Ht; [|split; reflexivity].
    split; [|exact Ht]. destruct Hd as [-> |Hd]; [discriminate|exact Hd]. }
  destruct Hdata as [-> ->].
  set (ts := or_else (obj_get "timestamp" o) (VNum (Num now))).
  assert (Hts : plain ts = true /\ truthy ts = true).
  { subst ts. unfold or_else.
    destruct (truthy (obj_get "timestamp" o)) eqn:Ht.
    - split; [|exact Ht]. cbn [plain] in Hpo.
      apply andb_true_iff in Hpo as [Hv _]. now apply plain_obj_get.
    - split; [exact Hx|]. cbn. now apply negb_true_iff, Z.eqb_neq. }
  destruct Hts as [Hpts Htts].
  set (o1 := obj_set "timestamp" ts o).
  assert (Hpo1 : plain (VObj o1) = true) by now apply plain_obj_set.
  set (st := or_else (obj_get "stacktraces" o1) (VArr [])).
  assert (Hst : plain st = true /\ truthy st = true).
  { subst st. unfold or_else.
    destruct (truthy (obj_get "stacktraces" o1)) eqn:Ht; [|split; reflexivity].
    split; [|exact Ht]. cbn [plain] in Hpo1.
    apply andb_true_iff in Hpo1 as [Hv _]. now apply plain_obj_get. }
  destruct Hst as [Hpst Htst].
  rewrite (plain_obj_set _ _ _ Hpo1 Hpst).
  rewrite obj_get_set_other by discriminate.
  subst o1. rewrite !obj_get_set, Htts, Htst. reflexivity.
Qed.

Lemma valid_with_id (v : value) (j : Job.t) :
  valid (Job.with_id v j) = valid j.
Proof. reflexivity. Qed.

Lemma valid_set_option (k : string) (v : value) (j : Job.t) :
  k <> "timestamp"%string -> k <> "stacktraces"%string ->
  plain v = true -> valid j = true -> valid (Job.set_option k v j) = true.
Proof.
  intros Hk1 Hk2 Hv. unfold valid, Job.set_option.
  cbn [Job.with_options Job.data Job.options Job.status Job.count].
  intros H. repeat (apply andb_true_iff in H as [H ?]).
  rewrite !obj_get_set_other by congruence.
  rewrite plain_obj_set by assumption.
  repeat match goal with Hx : _ = true |- _ => rewrite Hx end.
  reflexivity.
Qed.

Lemma safe_exact (v : value) :
  isSafeInteger v = true -> plain v = true.
Proof.
  destruct v as [| | |[|z]| | |]; try discriminate. cbn.
  unfold MAX_SAFE_INTEGER, exact. lia.
Qed.

Lemma exact_sign (sg n : Z) :
  sg = 1 \/ sg = -1 -> exact n = true -> exact (sg * n) = true.
Proof. unfold exact. intros [-> | ->]; lia. Qed.

Lemma read_sign_unit (cs : list ascii) :
  fst (read_sign cs) = 1 \/ fst (read_sign cs) = -1.
Proof.
  destruct cs as [|c r]; [left; reflexivity|].
  destruct c as [[] [] [] [] [] [] [] []]; cbn; auto.
Qed.

Lemma parseInt_plain (v : value) (t : num) :
  parseInt v = Some t -> isNaN t = false -> plain (VNum t) = true.
Proof.
  destruct t as [|z]; [discriminate 2|]. intros H _. cbn [plain].
  destruct v as [| |b|[|z']|s|l|o]; cbn in H; try discriminate.
  - destruct (exact z') eqn:E; [|discriminate]. now injection H as <-.
  - unfold parseInt_chars in H.
    pose proof (read_sign_unit (skip_space (chars s))) as Hsg.
    destruct (read_sign (skip_space (chars s))) as [sg r]. cbn [fst] in Hsg.
    destruct (span_digits r) as [[|d ds] rest]; [discriminate|].
    destruct (digits_value (d :: ds)) as [n|]; [|discriminate].
    destruct (exact n) eqn:E; [|discriminate]. injection H as <-.
    now apply exact_sign.
Qed.

(** The setters keep a job valid when their argument is plain. *)
Lemma call_valid (strategies : list string) (q : Queue.t) (now : Z)
    (c : Job.setter) (j j' : Job.t) :
  valid j = true -> plain_argument c = true -> exact (now + 1) = true ->
  Job.call strategies q now c j = (Normal Job.This, j') ->
  valid j' = true.
Proof.
  intros Hv Ha Hnow.
  assert (Hopts : forallb (fun kv => plain (snd kv)) (Job.options j) = true).
  { unfold valid in Hv. repeat (apply andb_true_iff in Hv as [Hv ?]).
    match goal with H : plain (VObj _) = true |- _ =>
      cbn [plain] in H; now apply andb_true_iff in H as [H _] end. }
  destruct c as [i|i|n|ts|ms|st d]; cbn [Job.call plain_argument] in *.
  - destruct i; try discriminate. rewrite setId_string.
    destruct (String.prefix "r:" s); [discriminate|]. now intros [= <-].
  - destruct (setInterval_cases q now i j)
      as [[e He]|[He|(ms & sf & _ & _ & _ & _ & _ & _ & He)]];
      rewrite He; try discriminate.
    intros [= <-]. apply valid_set_option; try discriminate; [|exact Hv].
    unfold or_else.
    destruct (truthy (obj_get "delay" (Job.options j))) eqn:Ht;
      [now apply plain_obj_get|exact Hnow].
  - unfold Job.retries, Job.bind, Job.lift_opt, Job.when.
    destruct (lt_zero n) as [[|]|]; cbn; try discriminate.
    intros [= <-]. now apply valid_set_option.
  - unfold Job.delayUntil, Job.bind, Job.lift_opt, Job.when.
    destruct (Job.instant_number ts) as [t|] eqn:Hts; [|discriminate].
    destruct (isNaN t) eqn:Hnan; [discriminate|].
    destruct (num_lt t (Num 0)); [discriminate|]. cbn [orb Job.ret].
    destruct (num_gt t (Num now)); cbn; intros [= <-]; [|exact Hv].
    apply valid_set_option; try discriminate; [|exact Hv].
    destruct ts as [g|v]; cbn in Hts.
    + injection Hts as ->. rewrite Hnan, orb_false_r in Ha. exact Ha.
    + now apply (parseInt_plain v).
  - unfold Job.timeout, Job.bind, Job.lift_opt, Job.when.
    destruct (lt_zero ms) as [[|]|]; cbn; try discriminate.
    intros [= <-]. now apply valid_set_option.
  - unfold Job.backoff, Job.bind, Job.when.
    destruct (Job.has strategies st) eqn:Hhas; [|discriminate].
    cbn [negb Job.ret].
    destruct (isSafeInteger d) eqn:Hsafe; [|discriminate].
    destruct (le_zero d); [discriminate|]. cbn.
    intros [= <-]. apply valid_set_option; try discriminate; [|exact Hv].
    destruct st; try discriminate. cbn [plain forallb snd List.map].
    now rewrite (safe_exact _ Hsafe).
Qed.

(** C10.  The codec goes by the truthiness of [count], not by its presence:
    a job whose [count] is 0 has the record, without a [count] key, and the
    text of the same job without [count], so that decoding either text
    gives the same job; a record in which [count] is written out as 0
    decodes to that job as well; and whatever text [fromData] decodes, the
    job it builds has a [count] only if the decoded value is truthy. *)
Theorem count_by_truthiness (j : Job.t) :
  Job.count j = None \/ Job.count j = Some (VNum (Num 0)) ->
  has_key "count" (Job.record j) = false
  /\ Job.record j = Job.record (clear_count j)
  /\ Job.toData j = Job.toData (clear_count j)
  /\ (forall now jobId,
        Job.fromData now jobId (Job.toData j)
        = Job.fromData now jobId (Job.toData (clear_count j)))
  /\ (forall now jobId,
        valid (clear_count j) = true ->
        Job.fromData now jobId
          (stringify_object (explicit_count (VNum (Num 0)) j))
        = Job.fromData now jobId (Job.toData (clear_count j)))
  /\ (forall now jobId text j',
        Job.fromData now jobId text = Normal j' ->
        match Job.count j' with
        | Some c => truthy c = true
        | None => True
        end).
Proof.
  intros Hc.
  assert (Hrec : Job.record j = Job.record (clear_count j)).
  { rewrite !record_shape. destruct Hc as [-> | ->]; reflexivity. }
  split; [rewrite Hrec, record_shape; reflexivity|].
  split; [exact Hrec|].
  assert (Hdata : Job.toData j = Job.toData (clear_count j)).
  { unfold Job.toData. now rewrite Hrec. }
  split; [exact Hdata|].
  split; [intros; now rewrite Hdata|].
  split.
  { intros now jobId Hv.
    now rewrite explicit_zero_count, fromData_toData. }
  intros now jobId text j'. unfold Job.fromData.
  destruct (JSON.parse text) as [d| |]; cbn [bindc]; try discriminate.
  destruct (Job.field "data" d) as [dd| |]; cbn [bindc]; try discriminate.
  destruct (Job.field "options" d) as [dopt| |]; cbn [bindc];
    try discriminate.
  destruct (Job.new now jobId dd dopt) as [job| |] eqn:Hnew; cbn [bindc];
    try discriminate.
  destruct (Job.field "status" d) as [ds| |]; cbn [bindc]; try discriminate.
  destruct (Job.field "count" d) as [dc| |]; cbn [bindc]; try discriminate.
  assert (Hnone : Job.count job = None).
  { unfold Job.new in Hnew.
    destruct (or_else dopt (VObj [])); try discriminate.
    now injection Hnew as <-. }
  destruct (truthy dc) eqn:Ht; intros [= <-]; cbn; [exact Ht|].
  now rewrite Hnone.
Qed.

Lemma count_by_truthiness_witness :
  (Job.count zero_count_job = None
   \/ Job.count zero_count_job = Some (VNum (Num 0)))
  /\ has_key "count" (Job.record zero_count_job) = false
  /\ Job.toData zero_count_job = Job.toData (clear_count zero_count_job)
  /\ valid (clear_count zero_count_job) = true
  /\ Job.fromData 5 (VStr "43")
       (stringify_object (explicit_count (VNum (Num 0)) zero_count_job))
     = Job.fromData 5 (VStr "43") (Job.toData (clear_count zero_count_job)).
Proof.
  assert (H : Job.count zero_count_job = None
              \/ Job.count zero_count_job = Some (VNum (Num 0)))
    by (right; reflexivity).
  split; [exact H|].
  split; [apply (count_by_truthiness zero_count_job H)|].
  split; [apply (count_by_truthiness zero_count_job H)|].
  split; [reflexivity|].
  apply (count_by_truthiness zero_count_job H). reflexivity.
Defined.

(** * Further properties of the class *)

(** ** The constructor *)

(** X1.  With an options object, the constructor always builds a job: the
    id is the one given, [progress] is 0, [status] is "created", there is no
    [count], and [data] is the payload or, for a falsy payload, an empty
    object.  Every option that the caller passed is kept with its value; a
    truthy [timestamp] or [stacktraces] is never overwritten, and a missing
    or falsy one becomes the instant of construction and the empty array.
    Falsy options are read as the empty object; a truthy primitive makes the
    constructor throw a [TypeError]. *)
Theorem new_keeps_options (now : Z) (jobId data : value) (o : object) :
  (exists j,
     Job.new now jobId data (VObj o) = Normal j
     /\ Job.id j = jobId
     /\ Job.progress j = VNum (Num 0)
     /\ Job.status j = VStr "created"
     /\ Job.count j = None
     /\ Job.data j = (if truthy data then data else VObj [])
     /\ obj_get "timestamp" (Job.options j)
        = (if truthy (obj_get "timestamp" o) then obj_get "timestamp" o
           else VNum (Num now))
     /\ obj_get "stacktraces" (Job.options j)
        = (if truthy (obj_get "stacktraces" o) then obj_get "stacktraces" o
           else VArr [])
     /\ forall k, k <> "timestamp"%string -> k <> "stacktraces"%string ->
          obj_get k (Job.options j) = obj_get k o)
  /\ (forall options, truthy options = false ->
        Job.new now jobId data options = Job.new now jobId data (VObj []))
  /\ (forall options, truthy options = true ->
        (exists b, options = VBool b) \/ (exists n, options = VNum n)
        \/ (exists s, options = VStr s) ->
        Job.new now jobId data options = Throw TypeError).
Proof.
  split; [|split].
  - eexists. split; [reflexivity|].
    cbn [Job.id Job.progress Job.status Job.count Job.data Job.options].
    repeat (split; [reflexivity|]).
    split; [|split].
    + rewrite obj_get_set_other by discriminate. now rewrite obj_get_set.
    + rewrite obj_get_set.
      rewrite (obj_get_set_other "stacktraces" "timestamp") by discriminate.
      reflexivity.
    + intros k Hts Hst. now rewrite !obj_get_set_other by assumption.
  - intros options Hf. unfold Job.new. now rewrite (or_else_falsy _ _ Hf).
  - intros options Ht Hprim. unfold Job.new.
    rewrite (or_else_truthy _ _ Ht).
    destruct Hprim as [[b ->]|[[n ->]|[s ->]]]; reflexivity.
Qed.

(** A job that the constructor has just built decodes to itself under its
    own id. *)
Lemma decoded_new (now : Z) (jobId data options : value) (j : Job.t) :
  Job.new now jobId data options = Normal j -> decoded jobId j = j.
Proof.
  unfold Job.new. destruct (or_else options (VObj [])); try discriminate.
  now intros [= <-].
Qed.

(** X2.  A job constructed at an instant other than 0 from a payload and
    options that JSON text represents without loss (or that are absent)
    survives the store: decoding the text of its record under its id, at any
    later instant, gives the very same job. *)
Theorem new_round_trip (now now' : Z) (jobId data options : value)
    (j : Job.t) :
  now <> 0 -> exact now = true ->
  data = VUndef \/ plain data = true ->
  options = VUndef \/ plain options = true ->
  Job.new now jobId data options = Normal j ->
  Job.fromData now' jobId (Job.toData j) = Normal j.
Proof.
  intros Hnow Hx Hd Ho Hnew.
  rewrite (fromData_toData now' jobId j)
    by exact (new_valid now jobId data options j Hnow Hx Hd Ho Hnew).
  f_equal. exact (decoded_new now jobId data options j Hnew).
Qed.

Lemma new_round_trip_witness :
  Job.fromData 1700000000500 (VStr "mail-7")
    (Job.toData
       (example_job (VStr "mail-7")
          [("retries", VNum (Num 2)); ("timestamp", VNum (Num 1700000000000));
           ("stacktraces", VArr [])]%string))
  = Normal
      (example_job (VStr "mail-7")
         [("retries", VNum (Num 2)); ("timestamp", VNum (Num 1700000000000));
          ("stacktraces", VArr [])]%string).
Proof.
  apply (new_round_trip 1700000000000 1700000000500 (VStr "mail-7") VUndef
           (VObj [("retries", VNum (Num 2))]%string));
    [lia|reflexivity|left; reflexivity|right; reflexivity|reflexivity].
Defined.

(** ** Chains of setter calls *)

(** A setter that throws leaves the job as it was. *)
Lemma call_throw_keeps (strategies : list string) (q : Queue.t) (now : Z)
    (c : Job.setter) (e : exn) (j j' : Job.t) :
  Job.call strategies q now c j = (Throw e, j') -> j' = j.
Proof.
  destruct c as [i|i|n|ts|ms|st d]; cbn [Job.call].
  - destruct i; try (now intros [= _ <-]).
    rewrite setId_string. destruct (String.prefix "r:" s); [|discriminate].
    now intros [= _ <-].
  - destruct (setInterval_cases q now i j)
      as [[e' He]|[He|(ms & sf & _ & _ & _ & _ & _ & _ & He)]];
      rewrite He; [|discriminate..]. now intros [= _ <-].
  - unfold Job.retries, Job.bind, Job.lift_opt, Job.when.
    destruct (lt_zero n) as [[|]|]; cbn; [|discriminate..].
    now intros [= _ <-].
  - unfold Job.delayUntil, Job.bind, Job.lift_opt, Job.when.
    destruct (Job.instant_number ts) as [t|]; [|discriminate].
    destruct (isNaN t || num_lt t (Num 0)); [now intros [= _ <-]|].
    cbn [Job.ret]. destruct (num_gt t (Num now)); discriminate.
  - unfold Job.timeout, Job.bind, Job.lift_opt, Job.when.
    destruct (lt_zero ms) as [[|]|]; cbn; [|discriminate..].
    now intros [= _ <-].
  - unfold Job.backoff, Job.bind, Job.when.
    destruct (negb (Job.has strategies st)); [now intros [= _ <-]|].
    cbn. destruct (negb (isSafeInteger d) || le_zero d);
      [now intros [= _ <-]|discriminate].
Qed.

Lemma chain_cons (strategies : list string) (q : Queue.t) (now : Z)
    (c : Job.setter) (cs : list (Z * Job.setter)) (j : Job.t) :
  chain strategies q ((now, c) :: cs) j
  = match Job.call strategies q now c j with
    | (Normal _, j1) => chain strategies q cs j1
    | (Throw e, j1) => (Throw e, j1)
    | (Uncovered, j1) => (Uncovered, j1)
    end.
Proof. reflexivity. Qed.

(** X3.  When a chain of setter calls throws, the job is exactly what the
    calls before the failing one made of it: these calls all succeeded, the
    failing call changed nothing, no later call ran, and nothing that was
    set before is undone. *)
Theorem chain_throw_keeps_prefix (strategies : list string) (q : Queue.t)
    (cs : list (Z * Job.setter)) (j j' : Job.t) (e : exn) :
  chain strategies q cs j = (Throw e, j') ->
  exists before now c after,
    cs = before ++ (now, c) :: after
    /\ chain strategies q before j = (Normal Job.This, j')
    /\ Job.call strategies q now c j' = (Throw e, j').
Proof.
  revert j. induction cs as [|[now c] cs IH]; intros j; [discriminate|].
  rewrite chain_cons.
  destruct (Job.call strategies q now c j) as [[[]|e1|] j1] eqn:Hc;
    [|intros [= <- <-]|discriminate].
  - intros H. destruct (IH j1 H) as (before & now1 & c1 & after & -> & Hb & Hf).
    exists ((now, c) :: before), now1, c1, after.
    split; [reflexivity|]. split; [|exact Hf].
    rewrite chain_cons, Hc. exact Hb.
  - pose proof (call_throw_keeps _ _ _ _ _ _ _ Hc) as ->.
    exists [], now, c, cs. repeat split. exact Hc.
Qed.

Lemma chain_throw_keeps_prefix_witness :
  exists before now c after,
    [(1000, Job.Retries (VNum (Num 3)));
     (1001, Job.SetTimeout (VNum (Num (-5))));
     (1002, Job.SetId (VStr "late"))]
    = before ++ (now, c) :: after
    /\ chain [] example_queue before fresh_job
       = (Normal Job.This,
          Job.set_option "retries" (VNum (Num 3)) fresh_job)
    /\ Job.call [] example_queue now c
         (Job.set_option "retries" (VNum (Num 3)) fresh_job)
       = (Throw (Error "Timeout cannot be negative"),
          Job.set_option "retries" (VNum (Num 3)) fresh_job).
Proof.
  apply (chain_throw_keeps_prefix [] example_queue
           [(1000, Job.Retries (VNum (Num 3)));
            (1001, Job.SetTimeout (VNum (Num (-5))));
            (1002, Job.SetId (VStr "late"))]
           fresh_job).
  reflexivity.
Defined.

(** A chain of setter calls with plain arguments keeps a job valid. *)
Lemma chain_valid (strategies : list string) (q : Queue.t)
    (cs : list (Z * Job.setter)) (j j' : Job.t) :
  valid j = true ->
  forallb (fun nc => plain_argument (snd nc) && exact (fst nc + 1)) cs = true ->
  chain strategies q cs j = (Normal Job.This, j') ->
  valid j' = true.
Proof.
  revert j. induction cs as [|[now c] cs IH]; intros j Hv Hcs.
  - now intros [= <-].
  - cbn [forallb fst snd] in Hcs.
    apply andb_true_iff in Hcs as [Hc Hcs].
    apply andb_true_iff in Hc as [Hp Hx].
    rewrite chain_cons.
    destruct (Job.call strategies q now c j) as [[[]| |] j1] eqn:Hcall;
      [|discriminate..].
    apply IH; [|exact Hcs].
    exact (call_valid strategies q now c j j1 Hv Hp Hx Hcall).
Qed.

(** X4.  A valid job that a chain of setter calls has configured, each call
    with a plain argument, is still valid, and the text of its record
    decodes, under its id, to the job itself with [progress] back at 0: no
    sequence of successful configuration calls produces a job that the
    store would give back differently. *)
Theorem configured_job_round_trips (strategies : list string) (q : Queue.t)
    (cs : list (Z * Job.setter)) (now' : Z) (j j' : Job.t) :
  valid j = true ->
  forallb (fun nc => plain_argument (snd nc) && exact (fst nc + 1)) cs = true ->
  chain strategies q cs j = (Normal Job.This, j') ->
  valid j' = true
  /\ Job.fromData now' (Job.id j') (Job.toData j')
     = Normal (Job.with_progress (VNum (Num 0)) j').
Proof.
  intros Hv Hcs Hch.
  pose proof (chain_valid strategies q cs j j' Hv Hcs Hch) as Hv'.
  split; [exact Hv'|].
  now rewrite (fromData_toData now' (Job.id j') j' Hv').
Qed.

Lemma configured_job_round_trips_witness :
  valid
    (snd (chain ["fixed"]%string example_queue
            [(1000, Job.SetId (VStr "report"));
             (1000, Job.Retries (VNum (Num 3)));
             (1001, Job.Backoff (VStr "fixed") (VNum (Num 500)));
             (1001, Job.SetInterval (VStr "5m"))]
            fresh_job)) = true
  /\ Job.fromData 2000 (VStr "r:300000:report")
       (Job.toData
          (snd (chain ["fixed"]%string example_queue
                  [(1000, Job.SetId (VStr "report"));
                   (1000, Job.Retries (VNum (Num 3)));
                   (1001, Job.Backoff (VStr "fixed") (VNum (Num 500)));
                   (1001, Job.SetInterval (VStr "5m"))]
                  fresh_job)))
     = Normal
         (Job.with_progress (VNum (Num 0))
            (snd (chain ["fixed"]%string example_queue
                    [(1000, Job.SetId (VStr "report"));
                     (1000, Job.Retries (VNum (Num 3)));
                     (1001, Job.Backoff (VStr "fixed") (VNum (Num 500)));
                     (1001, Job.SetInterval (VStr "5m"))]
                    fresh_job))).
Proof.
  apply (configured_job_round_trips ["fixed"]%string example_queue
           [(1000, Job.SetId (VStr "report"));
            (1000, Job.Retries (VNum (Num 3)));
            (1001, Job.Backoff (VStr "fixed") (VNum (Num 500)));
            (1001, Job.SetInterval (VStr "5m"))]
           2000 fresh_job);
    reflexivity.
Defined.

(** ** What the setters accept *)

Lemma lt_zero_number (n : value) (x : num) :
  to_number n = Some x -> lt_zero n = Some (num_lt x (Num 0)).
Proof. unfold lt_zero. now intros ->. Qed.

(** X5.  [retries(n)] and [timeout(ms)] reject a negative number and
    nothing else: on an argument whose numeric value is [NaN] (such as
    [undefined] or [NaN] itself) or is not negative, the call succeeds and
    stores the argument as it was given, not its numeric value, under
    [options.retries] or [options.timeout]; every other option is left as
    it was. *)
Theorem retries_timeout_reject_negatives_only (n : value) (x : num)
    (j : Job.t) :
  to_number n = Some x ->
  ((exists e, Job.retries n j = (Throw e, j)) <-> exists z, x = Num z /\ z < 0)
  /\ ((exists e, Job.timeout n j = (Throw e, j))
      <-> exists z, x = Num z /\ z < 0)
  /\ (x = NaN \/ (exists z, x = Num z /\ 0 <= z) ->
      Job.retries n j = (Normal Job.This, Job.set_option "retries" n j)
      /\ Job.timeout n j = (Normal Job.This, Job.set_option "timeout" n j)
      /\ obj_get "retries" (Job.options (Job.set_option "retries" n j)) = n
      /\ obj_get "timeout" (Job.options (Job.set_option "timeout" n j)) = n
      /\ (forall k, k <> "retries"%string ->
            obj_get k (Job.options (Job.set_option "retries" n j))
            = obj_get k (Job.options j))
      /\ (forall k, k <> "timeout"%string ->
            obj_get k (Job.options (Job.set_option "timeout" n j))
            = obj_get k (Job.options j))).
Proof.
  intros Hx.
  unfold Job.retries, Job.timeout, Job.bind, Job.lift_opt, Job.when.
  rewrite (lt_zero_number n x Hx).
  assert (Hneg : num_lt x (Num 0) = true <-> exists z, x = Num z /\ z < 0).
  { destruct x as [|z]; cbn.
    - split; [discriminate|]. now intros (z & [=] & _).
    - rewrite Z.ltb_lt. split; [eauto|]. now intros (z' & [= ->] & H). }
  destruct (num_lt x (Num 0)) eqn:Hlt; cbn.
  - split; [|split].
    + split; [intros _; now apply Hneg|eauto].
    + split; [intros _; now apply Hneg|eauto].
    + intros [-> |(z & -> & Hz)]; [discriminate|].
      cbn in Hlt. lia.
  - split; [|split].
    + split; [now intros [e [=]]|]. intros H. apply Hneg in H. discriminate.
    + split; [now intros [e [=]]|]. intros H. apply Hneg in H. discriminate.
    + intros _. repeat (split; [reflexivity|]).
      split; [apply obj_get_set|]. split; [apply obj_get_set|].
      split; intros k Hk; now apply obj_get_set_other.
Qed.

Lemma retries_timeout_reject_negatives_only_witness :
  Job.retries VUndef fresh_job
  = (Normal Job.This, Job.set_option "retries" VUndef fresh_job)
  /\ Job.timeout VUndef fresh_job
     = (Normal Job.This, Job.set_option "timeout" VUndef fresh_job).
Proof.
  destruct (retries_timeout_reject_negatives_only VUndef NaN fresh_job
              eq_refl) as (_ & _ & H).
  destruct (H (or_introl eq_refl)) as (Hr & Ht & _).
  exact (conj Hr Ht).
Defined.

Lemma safe_positive_iff (v : value) :
  negb (isSafeInteger v) || le_zero v = false
  <-> exists z, v = VNum (Num z) /\ safe_positive z.
Proof.
  unfold safe_positive, MAX_SAFE_INTEGER.
  destruct v as [| |b|[|z]|s|l|o]; cbn;
    try (split; [discriminate|now intros (z' & [=] & _)]).
  rewrite orb_false_iff, negb_false_iff, andb_true_iff.
  rewrite !Z.leb_le, Z.leb_gt. split.
  - intros [[H1 H2] H3]. exists z. split; [reflexivity|].
    unfold MAX_SAFE_INTEGER in *. lia.
  - intros (z' & [= <-] & H1 & H2). unfold MAX_SAFE_INTEGER in *. lia.
Qed.

(** X6.  [backoff(strategy, delay)] succeeds exactly when the strategy is
    registered and the delay is an integer from 1 to 2^53 - 1; it then sets
    [options.backoff] to the pair of both, in place of an earlier one, and
    changes no other option.  An unknown strategy is reported first,
    whatever the delay; every failure leaves the job as it was. *)
Theorem backoff_contract (strategies : list string) (strategy delay : value)
    (j : Job.t) :
  ((exists j', Job.backoff strategies strategy delay j = (Normal Job.This, j'))
   <-> Job.has strategies strategy = true
       /\ exists z, delay = VNum (Num z) /\ safe_positive z)
  /\ (Job.has strategies strategy = false ->
      Job.backoff strategies strategy delay j
      = (Throw (Error "unknown strategy"), j))
  /\ (Job.has strategies strategy = true ->
      (forall z, delay = VNum (Num z) -> ~ safe_positive z) ->
      Job.backoff strategies strategy delay j
      = (Throw (Error "delay must be a positive integer"), j))
  /\ (forall j',
        Job.backoff strategies strategy delay j = (Normal Job.This, j') ->
        obj_get "backoff" (Job.options j')
        = VObj [("strategy", strategy); ("delay", delay)]%string
        /\ (forall k, k <> "backoff"%string ->
              obj_get k (Job.options j') = obj_get k (Job.options j))
        /\ Job.with_options (Job.options j) j' = j).
Proof.
  pose proof (safe_positive_iff delay) as Hsafe.
  unfold Job.backoff, Job.bind, Job.when.
  destruct (Job.has strategies strategy) eqn:Hhas; cbn [negb Job.throw Job.ret].
  - destruct (negb (isSafeInteger delay) || le_zero delay) eqn:Hd;
      cbn [Job.throw Job.ret Job.modify].
    + split; [|split; [discriminate|split; [reflexivity|discriminate]]].
      split; [now intros [j' [=]]|].
      intros [_ H]. apply Hsafe in H. discriminate.
    + split; [|split; [discriminate|split]].
      * split; [intros _; split; [reflexivity|now apply Hsafe]|eauto].
      * intros _ Hno. destruct (proj1 Hsafe eq_refl) as (z & -> & Hz).
        now destruct (Hno z eq_refl).
      * intros j' [= <-]. cbn [Job.set_option Job.options Job.with_options].
        split; [apply obj_get_set|].
        split; [intros k Hk; now apply obj_get_set_other|now destruct j].
  - split; [|split; [reflexivity|split; [discriminate|discriminate]]].
    split; [now intros [j' [=]]|]. now intros [[=] _].
Qed.

(** ** Recurring ids *)

Lemma recurring_id_chars (ms : Z) (suffix : string) :
  chars (Job.recurring_id ms suffix)
  = "r"%char :: ":"%char :: chars (decimal ms) ++ ":"%char :: chars suffix.
Proof.
  unfold Job.recurring_id. now rewrite !chars_append.
Qed.

Lemma recurring_id_colon (ms : Z) (suffix : string) :
  contains ":" (Job.recurring_id ms suffix) = true.
Proof. unfold contains. now rewrite recurring_id_chars. Qed.

Lemma recurring_id_prefix (ms : Z) (suffix : string) :
  String.prefix "r:" (Job.recurring_id ms suffix) = true.
Proof.
  rewrite <- substr_0_2_prefix. unfold substr_0_2.
  now rewrite recurring_id_chars.
Qed.

Lemma recurring_id_truthy (ms : Z) (suffix : string) :
  truthy (VStr (Job.recurring_id ms suffix)) = true.
Proof.
  cbn [truthy]. rewrite <- (text_chars (Job.recurring_id ms suffix)).
  now rewrite recurring_id_chars.
Qed.

(** A successful [setInterval], read off the job it returns. *)
Lemma setInterval_success (q : Queue.t) (now : Z) (i : value)
    (j j' : Job.t) :
  Job.setInterval q now i j = (Normal Job.This, j') ->
  exists ms suffix,
    0 < ms
    /\ or_else (Job.id j) (VStr "") = VStr suffix
    /\ j' = Job.set_option "delay"
              (or_else (obj_get "delay" (Job.options j))
                       (VNum (Num (now + 1))))
              (Job.with_id (VStr (Job.recurring_id ms suffix)) j).
Proof.
  destruct (setInterval_cases q now i j)
    as [[e He]|[He|(ms & sf & _ & _ & Hms & _ & Hid & _ & He)]];
    rewrite He; [discriminate..|].
  intros [= <-]. now exists ms, sf.
Qed.

(** Where [setInterval] leaves the embedding: in the conversion of the
    interval, or on an id that is an array. *)
Lemma setInterval_uncovered (q : Queue.t) (now : Z) (i : value)
    (j j' : Job.t) :
  Job.setInterval q now i j = (Uncovered, j') ->
  fst (Job.convert_interval i j) = Uncovered \/ exists l, Job.id j = VArr l.
Proof.
  unfold Job.setInterval, Job.bind at 1.
  rewrite convert_interval_split.
  destruct (fst (Job.convert_interval i j)) as [v| |] eqn:Hc;
    [|discriminate|now left].
  unfold Job.bind at 1, Job.when at 1.
  destruct (negb (isSafeInteger v) || le_zero v) eqn:Hs; [discriminate|].
  apply orb_false_elim in Hs as [Hsafe _]. apply negb_false_iff in Hsafe.
  destruct v as [| |?|[|ms]|?|?|?]; try discriminate Hsafe.
  cbn [Job.ret]. unfold Job.bind at 1, Job.when at 1.
  destruct (truthy (or_else _ _)); [discriminate|].
  cbn [Job.ret]. unfold Job.bind, Job.get, Job.modify.
  cbn [Job.id Job.with_id].
  destruct (truthy (Job.id j)) eqn:Hid.
  - rewrite (or_else_truthy _ _ Hid).
    destruct (Job.id j) as [| |b|n|s|l|o];
      cbn [Job.id_has_colon Job.throw Job.uncovered Job.ret];
      try discriminate.
    + unfold Job.when. destruct (contains ":" s); discriminate.
    + intros _. right. now exists l.
  - rewrite (or_else_falsy _ _ Hid). cbn [Job.id_has_colon Job.ret].
    rewrite contains_empty. discriminate.
Qed.

(** X7.  The ids of [setId] and of [setInterval] never meet.  After a
    successful [setInterval] the id is a string that starts with [r:], so
    [setId] refuses it for any job; and since it holds a colon, a second
    [setInterval] on the job throws and changes nothing, whatever the
    queue, the instant and the interval (one that the call can convert). *)
Theorem setInterval_only_once (q : Queue.t) (now : Z) (i : value)
    (j j' : Job.t) :
  Job.setInterval q now i j = (Normal Job.This, j') ->
  (exists s, Job.id j' = VStr s /\ String.prefix "r:" s = true
             /\ List.In ":"%char (chars s))
  /\ (forall j2, exists e, Job.setId (Job.id j') j2 = (Throw e, j2))
  /\ (forall q' now' i',
        fst (Job.convert_interval i' j') <> Uncovered ->
        exists e, Job.setInterval q' now' i' j' = (Throw e, j')).
Proof.
  intros H. destruct (setInterval_success q now i j j' H)
    as (ms & sf & _ & _ & ->).
  cbn [Job.id Job.set_option Job.with_options Job.with_id].
  split; [|split].
  - exists (Job.recurring_id ms sf). split; [reflexivity|].
    split; [apply recurring_id_prefix|].
    apply contains_In, recurring_id_colon.
  - intros j2. rewrite setId_string, recurring_id_prefix. eauto.
  - intros q' now' i' Hcov.
    match goal with
    | |- exists e, Job.setInterval _ _ _ ?J = _ => set (j1 := J)
    end.
    destruct (setInterval_cases q' now' i' j1)
      as [He|[He|(ms' & sf' & _ & _ & _ & _ & Hid & Hcol & _)]].
    + exact He.
    + apply setInterval_uncovered in He as [He|[l He]];
        [contradiction|discriminate].
    + subst j1. cbn [Job.id] in Hid.
      rewrite (or_else_truthy _ _ (recurring_id_truthy ms sf)) in Hid.
      injection Hid as <-. rewrite recurring_id_colon in Hcol. discriminate.
Qed.

Lemma setInterval_only_once_witness :
  (exists s,
     Job.id (snd (Job.setInterval example_queue 1000 (VStr "5m") fresh_job))
     = VStr s
     /\ String.prefix "r:" s = true /\ List.In ":"%char (chars s))
  /\ (exists e,
        Job.setInterval example_queue 2000 (VNum (Num 60000))
          (snd (Job.setInterval example_queue 1000 (VStr "5m") fresh_job))
        = (Throw e,
           snd (Job.setInterval example_queue 1000 (VStr "5m") fresh_job))).
Proof.
  destruct (setInterval_only_once example_queue 1000 (VStr "5m") fresh_job
              (snd (Job.setInterval example_queue 1000 (VStr "5m") fresh_job))
              eq_refl) as (H1 & _ & H3).
  split; [exact H1|].
  apply (H3 example_queue 2000 (VNum (Num 60000))). discriminate.
Defined.

(** The numeral of an integer is made of digits after an optional minus
    sign: it holds no colon. *)
Lemma decimal_no_colon (z : Z) : ~ List.In ":"%char (chars (decimal z)).
Proof.
  destruct (decimal_shape z) as (ds & c0 & ds' & _ & Hd & _ & _ & ->).
  assert (Hds : ~ List.In ":"%char ds).
  { intros Hin. rewrite forallb_forall in Hd. now specialize (Hd _ Hin). }
  destruct (z <? 0); [|exact Hds].
  intros [Hm|Hin]; [discriminate|contradiction].
Qed.

Lemma decimal_inj (z z' : Z) : decimal z = decimal z' -> z = z'.
Proof.
  intros H. apply (f_equal chars) in H.
  destruct (decimal_shape z) as (ds & c0 & ds' & -> & Hd & _ & Hv & Hz).
  destruct (decimal_shape z') as (es & e0 & es' & -> & He & _ & Hw & Hz').
  rewrite Hz, Hz' in H.
  cbn [forallb] in Hd, He.
  apply andb_true_iff in Hd as [Hc0 _]. apply andb_true_iff in He as [He0 _].
  destruct (Z.ltb_spec z 0) as [Hn|Hn], (Z.ltb_spec z' 0) as [Hn'|Hn'].
  - injection H as Hh Ht. rewrite Hh, Ht in Hv.
    assert (Z.abs z = Z.abs z') by congruence. lia.
  - injection H as Hh _. rewrite <- Hh in He0. discriminate.
  - injection H as Hh _. rewrite Hh in Hc0. discriminate.
  - rewrite H in Hv. assert (Z.abs z = Z.abs z') by congruence. lia.
Qed.

Lemma split_at_first (c : ascii) (a b x y : list ascii) :
  ~ List.In c a -> ~ List.In c b -> a ++ c :: x = b ++ c :: y ->
  a = b /\ x = y.
Proof.
  revert b. induction a as [|a0 a IH]; intros [|b0 b] Ha Hb H; cbn in *.
  - now injection H.
  - injection H as <- _. tauto.
  - injection H as -> _. tauto.
  - injection H as <- H. destruct (IH b) as [-> ->]; tauto.
Qed.

(** X8.  A recurring id [r:<interval>:<id>] determines the interval and the
    original id it was built from: two such ids are equal only if both
    intervals and both original ids are, also when the original id holds
    colons of its own. *)
Theorem recurring_id_injective (ms ms' : Z) (suffix suffix' : string) :
  Job.recurring_id ms suffix = Job.recurring_id ms' suffix' ->
  ms = ms' /\ suffix = suffix'.
Proof.
  intros H. apply (f_equal chars) in H. rewrite !recurring_id_chars in H.
  injection H as H.
  apply split_at_first in H as [Hd Hs]; try apply decimal_no_colon.
  split.
  - apply decimal_inj. now rewrite <- (text_chars (decimal ms)), Hd, text_chars.
  - now rewrite <- (text_chars suffix), Hs, text_chars.
Qed.

Lemma recurring_id_injective_witness :
  300000 = 300000 /\ "a:b"%string = "a:b"%string.
Proof.
  apply (recurring_id_injective 300000 300000 "a:b" "a:b"). reflexivity.
Defined.

(** ** Saving, against any store *)

Lemma calls_called (effs : list Async.effect) :
  calls (List.map Async.Called effs) = effs.
Proof. induction effs as [|e effs IH]; [reflexivity|]. cbn. now rewrite IH. Qed.

(** The whole run of [save]: one request, and after its answer the
    assignment of [id] and the calls into the queue. *)
Lemma save_run {S : Type}
    (exec : Async.request -> S -> (exn + value) * S)
    (s : S) (q : Queue.t) (j : Job.t) :
  Async.run exec (Async.save q j) s j []
  = match exec (enqueue q j) s with
    | (inl e, s') =>
        {| Async.settled := inl e; Async.job := j; Async.store := s';
           Async.trace := [Async.Sent (enqueue q j); Async.Answered (inl e)] |}
    | (inr v, s') =>
        {| Async.settled := inr Job.This; Async.job := Job.with_id v j;
           Async.store := s';
           Async.trace :=
             Async.Sent (enqueue q j) :: Async.Answered (inr v)
             :: List.map Async.Called (save_calls q j v) |}
    end.
Proof.
  unfold Async.save, enqueue, save_calls, delayed_enqueue, immediate_enqueue,
    candidate.
  destruct (truthy (obj_get "delay" (Job.options j)));
    [destruct (truthy (Queue.activateDelayedJobs (Queue.settings q)))|];
    cbn [Async.then_ Async.evalScript Async.run];
    match goal with
    | |- context [exec ?r s] => destruct (exec r s) as [[e|v] s']
    end;
    cbn [Async.then_ Async.run app andb]; try reflexivity;
    destruct (truthy v); cbn [andb app List.map]; try reflexivity;
    destruct (truthy (Queue.storeJobs (Queue.settings q))); reflexivity.
Qed.

(** X9.  When the store rejects the enqueue request of [save], the promise
    is rejected with the store's error, the job keeps every field, its id
    included, and no call is made into the queue: neither the delayed timer
    nor the job map is touched. *)
Theorem save_rejected_leaves_job {S : Type}
    (exec : Async.request -> S -> (exn + value) * S)
    (s s' : S) (q : Queue.t) (j : Job.t) (e : exn) :
  exec (enqueue q j) s = (inl e, s') ->
  Async.settled (Async.run exec (Async.save q j) s j []) = inl e
  /\ Async.job (Async.run exec (Async.save q j) s j []) = j
  /\ calls (Async.trace (Async.run exec (Async.save q j) s j [])) = []
  /\ Async.requests (Async.trace (Async.run exec (Async.save q j) s j []))
     = [enqueue q j].
Proof.
  intros He. rewrite save_run, He. repeat split.
Qed.

(** A store that rejects every request. *)
Lemma save_rejected_leaves_job_witness :
  Async.settled
    (Async.run (fun _ (n : nat) => (inl (Error "connection lost"), n))
       (Async.save example_queue fresh_job) 0%nat fresh_job [])
  = inl (Error "connection lost")
  /\ Async.job
       (Async.run (fun _ (n : nat) => (inl (Error "connection lost"), n))
          (Async.save example_queue fresh_job) 0%nat fresh_job [])
     = fresh_job.
Proof.
  destruct (save_rejected_leaves_job
              (fun _ (n : nat) => (inl (Error "connection lost"), n))
              0%nat 0%nat example_queue fresh_job (Error "connection lost")
              eq_refl) as (H1 & H2 & _).
  exact (conj H1 H2).
Defined.

(** X10.  When the store answers the enqueue request of [save] with [v],
    the promise resolves to the job, whose id is now [v] and whose other
    fields are unchanged.  A falsy answer (the job was not created) leads to
    no call into the queue.  A truthy answer leads to at most two calls, in
    this order: the delayed timer is set to [options.delay] if the job has a
    truthy delay and the queue activates delayed jobs, and the job is
    entered in the queue's job map under [v] if the queue stores its
    jobs. *)
Theorem save_registers_created_jobs_only {S : Type}
    (exec : Async.request -> S -> (exn + value) * S)
    (s s' : S) (q : Queue.t) (j : Job.t) (v : value) :
  exec (enqueue q j) s = (inr v, s') ->
  let o := Async.run exec (Async.save q j) s j [] in
  Async.settled o = inr Job.This
  /\ Async.job o = Job.with_id v j
  /\ Async.store o = s'
  /\ (truthy v = false -> calls (Async.trace o) = [])
  /\ (truthy v = true ->
      calls (Async.trace o)
      = (if truthy (obj_get "delay" (Job.options j))
            && truthy (Queue.activateDelayedJobs (Queue.settings q))
         then [Async.Schedule (obj_get "delay" (Job.options j))]
         else [])
        ++ (if truthy (Queue.storeJobs (Queue.settings q))
            then [Async.JobsSet v]
            else [])).
Proof.
  intros He o. subst o. rewrite save_run, He.
  cbn [Async.settled Async.job Async.store Async.trace calls].
  rewrite calls_called. unfold save_calls.
  repeat (split; [reflexivity|]).
  split; intros ->; [now rewrite andb_false_r|now rewrite andb_true_r].
Qed.

Lemma save_registers_created_jobs_only_witness :
  Async.job
    (Async.run counting_store (Async.save example_queue fresh_job) 0%nat
       fresh_job [])
  = Job.with_id (VStr "1") fresh_job
  /\ calls
       (Async.trace
          (Async.run counting_store (Async.save example_queue fresh_job)
             0%nat fresh_job []))
     = [Async.JobsSet (VStr "1")].
Proof.
  destruct (save_registers_created_jobs_only counting_store 0%nat 1%nat
              example_queue fresh_job (VStr "1") eq_refl)
    as (_ & H2 & _ & _ & H5).
  exact (conj H2 (H5 eq_refl)).
Defined.

Lemma save_requests {S : Type}
    (exec : Async.request -> S -> (exn + value) * S)
    (s : S) (q : Queue.t) (j : Job.t) :
  Async.requests (Async.trace (Async.run exec (Async.save q j) s j []))
  = [enqueue q j].
Proof.
  rewrite save_run. destruct (exec (enqueue q j) s) as [[e|v] s'];
    cbn [Async.trace Async.requests]; [reflexivity|].
  now rewrite requests_called_nil.
Qed.

(** ** Setters, then [save] *)

(** X11.  A successful [setInterval] always leaves a first run to wait for:
    a delay that was truthy is kept, any other (absent, or falsy such as 0)
    becomes the instant of the call plus 1, and no other option changes.
    Hence, unless the clock reads -1, [save] on that job sends the
    delayed-enqueue operation, never the immediate one, whatever the
    store. *)
Theorem setInterval_schedules_first_run {S : Type}
    (exec : Async.request -> S -> (exn + value) * S)
    (s : S) (q q' : Queue.t) (now : Z) (i : value) (j j' : Job.t) :
  Job.setInterval q now i j = (Normal Job.This, j') ->
  obj_get "delay" (Job.options j')
  = (if truthy (obj_get "delay" (Job.options j))
     then obj_get "delay" (Job.options j)
     else VNum (Num (now + 1)))
  /\ (forall k, k <> "delay"%string ->
        obj_get k (Job.options j') = obj_get k (Job.options j))
  /\ (now <> -1 ->
      Async.requests (Async.trace (Async.run exec (Async.save q' j') s j' []))
      = [delayed_enqueue q' j']).
Proof.
  intros H. destruct (setInterval_success q now i j j' H)
    as (ms & sf & _ & _ & Hj').
  assert (Hd : obj_get "delay" (Job.options j')
               = or_else (obj_get "delay" (Job.options j))
                   (VNum (Num (now + 1)))).
  { rewrite Hj'. apply obj_get_set. }
  split; [exact Hd|]. split.
  - intros k Hk. rewrite Hj'. cbn [Job.set_option Job.options Job.with_options
      Job.with_id]. now apply obj_get_set_other.
  - intros Hnow. rewrite save_requests. unfold enqueue. rewrite Hd.
    unfold or_else.
    destruct (truthy (obj_get "delay" (Job.options j))) eqn:Ht;
      [now rewrite Ht|].
    cbn [truthy].
    destruct (Z.eqb_spec (now + 1) 0) as [E|E]; [lia|reflexivity].
Qed.

Lemma setInterval_schedules_first_run_witness :
  obj_get "delay"
    (Job.options
       (snd (Job.setInterval example_queue 1000 (VStr "5m") zero_delay_job)))
  = VNum (Num 1001)
  /\ Async.requests
       (Async.trace
          (Async.run counting_store
             (Async.save example_queue
                (snd (Job.setInterval example_queue 1000 (VStr "5m")
                        zero_delay_job)))
             0%nat
             (snd (Job.setInterval example_queue 1000 (VStr "5m")
                     zero_delay_job))
             []))
     = [delayed_enqueue example_queue
          (snd (Job.setInterval example_queue 1000 (VStr "5m")
                  zero_delay_job))].
Proof.
  destruct (setInterval_schedules_first_run counting_store 0%nat
              example_queue example_queue 1000 (VStr "5m") zero_delay_job
              (snd (Job.setInterval example_queue 1000 (VStr "5m")
                      zero_delay_job))
              eq_refl) as (H1 & _ & H3).
  split; [exact H1|]. apply H3. lia.
Defined.

(** X12.  On a job without a truthy delay, at a clock that is not negative,
    [delayUntil] decides how [save] enqueues: an instant after the clock
    makes [save] send the delayed-enqueue operation with that instant as
    its delay, and an instant that is not after the clock leaves the job to
    the immediate-enqueue operation. *)
Theorem delayUntil_then_save {S : Type}
    (exec : Async.request -> S -> (exn + value) * S)
    (s : S) (q : Queue.t) (now : Z) (ts : Job.instant) (z : Z)
    (j j' : Job.t) :
  Job.instant_number ts = Some (Num z) ->
  0 <= now ->
  truthy (obj_get "delay" (Job.options j)) = false ->
  Job.delayUntil now ts j = (Normal Job.This, j') ->
  (now < z ->
     obj_get "delay" (Job.options j') = VNum (Num z)
     /\ Async.requests
          (Async.trace (Async.run exec (Async.save q j') s j' []))
        = [delayed_enqueue q j'])
  /\ (z <= now ->
      j' = j
      /\ Async.requests
           (Async.trace (Async.run exec (Async.save q j') s j' []))
         = [immediate_enqueue q j']).
Proof.
  intros Hts Hnow Hd. unfold Job.delayUntil, Job.bind, Job.lift_opt, Job.when.
  rewrite Hts. cbn [isNaN orb num_lt num_gt].
  destruct (Z.ltb_spec z 0) as [Hneg|Hpos]; [discriminate|].
  cbn [Job.ret]. rewrite save_requests. unfold enqueue.
  destruct (Z.ltb_spec now z) as [Hlt|Hge]; cbn; intros [= <-].
  - split; [intros _|lia].
    cbn [Job.set_option Job.options Job.with_options].
    rewrite obj_get_set. split; [reflexivity|]. cbn [truthy].
    destruct (Z.eqb_spec z 0) as [E|E]; [lia|reflexivity].
  - split; [lia|intros _]. split; [reflexivity|]. now rewrite Hd.
Qed.

Lemma delayUntil_then_save_witness :
  Async.requests
    (Async.trace
       (Async.run counting_store
          (Async.save example_queue
             (Job.set_option "delay" (VNum (Num 2000)) fresh_job))
          0%nat (Job.set_option "delay" (VNum (Num 2000)) fresh_job) []))
  = [delayed_enqueue example_queue
       (Job.set_option "delay" (VNum (Num 2000)) fresh_job)].
Proof.
  destruct (delayUntil_then_save counting_store 0%nat example_queue 1000
              (Job.Plain (VStr "2000")) 2000 fresh_job
              (Job.set_option "delay" (VNum (Num 2000)) fresh_job)
              eq_refl ltac:(lia) eq_refl eq_refl) as [H _].
  apply H. lia.
Defined.

(** ** Instants and intervals given as text *)

(** [parseInt] reads the numeral at the start of a string and ignores what
    follows it. *)
Lemma parseInt_numeral (n : Z) (rest : string) :
  exact n = true -> no_digit_ahead rest ->
  parseInt (VStr (decimal n +:+ rest)) = Some (Num n).
Proof.
  intros Hn Hrest. cbn [parseInt]. unfold parseInt_chars.
  rewrite chars_append.
  destruct (decimal_shape n) as (ds & c0 & ds' & -> & Hd & _ & Hv & ->).
  assert (Hspan : span_digits ((c0 :: ds') ++ chars rest)
                  = (c0 :: ds', chars rest))
    by now apply span_digits_app.
  pose proof Hd as Hd'. cbn [forallb] in Hd'.
  apply andb_true_iff in Hd' as [Hc0 _].
  destruct (Z.ltb_spec n 0) as [Hneg|Hnn].
  - change (skip_space (("-"%char :: c0 :: ds') ++ chars rest))
      with (("-"%char :: c0 :: ds') ++ chars rest).
    change (read_sign (("-"%char :: c0 :: ds') ++ chars rest))
      with (-1, (c0 :: ds') ++ chars rest).
    cbv beta iota. rewrite Hspan, Hv, exact_abs, Hn.
    do 2 f_equal. lia.
  - rewrite <- app_comm_cons. cbn [skip_space].
    rewrite (is_digit_not_space _ Hc0), (read_sign_digit _ _ Hc0).
    cbv beta iota. rewrite app_comm_cons, Hspan, Hv, exact_abs, Hn.
    do 2 f_equal. lia.
Qed.

(** X13.  [delayUntil] reads a string by the integer numeral at its start
    and ignores whatever follows that is not a digit: the call on such a
    string, on the number itself and on a date-like object with that time
    have the same outcome on every job. *)
Theorem delayUntil_reads_numeral (now n : Z) (rest : string) (j : Job.t) :
  exact n = true -> no_digit_ahead rest ->
  Job.instant_number (Job.Plain (VStr (decimal n +:+ rest))) = Some (Num n)
  /\ Job.delayUntil now (Job.Plain (VStr (decimal n +:+ rest))) j
     = Job.delayUntil now (Job.Plain (VNum (Num n))) j
  /\ Job.delayUntil now (Job.Plain (VStr (decimal n +:+ rest))) j
     = Job.delayUntil now (Job.DateLike (Num n)) j.
Proof.
  intros Hn Hrest.
  assert (Hs : Job.instant_number (Job.Plain (VStr (decimal n +:+ rest)))
               = Some (Num n)) by now apply parseInt_numeral.
  assert (Hv : Job.instant_number (Job.Plain (VNum (Num n))) = Some (Num n))
    by (cbn; now rewrite Hn).
  split; [exact Hs|].
  unfold Job.delayUntil, Job.bind at 1 4 7 10.
  rewrite Hs, Hv. split; reflexivity.
Qed.

Lemma delayUntil_reads_numeral_witness :
  Job.delayUntil 1000 (Job.Plain (VStr (decimal 2000 +:+ "ms"))) fresh_job
  = Job.delayUntil 1000 (Job.Plain (VNum (Num 2000))) fresh_job.
Proof.
  apply (delayUntil_reads_numeral 1000 2000 "ms" fresh_job);
    reflexivity.
Defined.

Lemma convert_needs_unit (s : string) (j : Job.t) :
  no_unit s ->
  Job.convert_interval (VStr s) j
  = (Throw (Error "only valid suffixes are s, m, h, and d."), j).
Proof.
  unfold no_unit, Job.convert_interval, slice_last.
  destruct (last (chars s)) as [u|]; [|reflexivity].
  unfold unit_multiplier.
  destruct (Ascii.eqb u "s") eqn:Es; [discriminate|].
  destruct (Ascii.eqb u "m") eqn:Em; [discriminate|].
  destruct (Ascii.eqb u "h") eqn:Eh; [discriminate|].
  destruct (Ascii.eqb u "d") eqn:Ed; [discriminate|].
  intros _. cbn [obj_get Job.multiplier String.eqb].
  now rewrite Es, Em, Eh, Ed.
Qed.

(** X14.  [setInterval] checks the interval before it looks at the queue
    or at the id.  Whatever the queue and the job: a string that does not
    end in s, m, h or d (the empty string, or a plain numeral such as
    "5000") is refused for its suffix; the numeral of an integer that is
    not positive, followed by a unit letter, and any value that is neither
    a string nor an integer from 1 to 2^53 - 1, are refused as not being a
    positive integer; and the job is unchanged. *)
Theorem setInterval_checks_interval_first (q : Queue.t) (now : Z)
    (j : Job.t) :
  (forall s, no_unit s ->
     Job.setInterval q now (VStr s) j
     = (Throw (Error "only valid suffixes are s, m, h, and d."), j))
  /\ (forall n u m,
        unit_multiplier u = Some m -> exact (n * m) = true -> n <= 0 ->
        Job.setInterval q now (VStr (decimal n +:+ String u "")) j
        = (Throw (Error "interval must be a positive integer"), j))
  /\ (forall v,
        (forall s, v <> VStr s) ->
        (forall z, v = VNum (Num z) -> ~ safe_positive z) ->
        Job.setInterval q now v j
        = (Throw (Error "interval must be a positive integer"), j)).
Proof.
  split; [|split].
  - intros s Hs. unfold Job.setInterval, Job.bind at 1.
    now rewrite (convert_needs_unit s j Hs).
  - intros n u m Hu Hx Hn. unfold Job.setInterval, Job.bind at 1.
    rewrite (convert_numeral n u m j Hu Hx).
    assert (Hm : 0 < m)
      by (apply unit_multiplier_cases in Hu
            as [[_ ->]|[[_ ->]|[[_ ->]|[_ ->]]]]; lia).
    unfold Job.bind at 1, Job.when at 1.
    assert (Hle : le_zero (VNum (Num (n * m))) = true)
      by (cbn; apply Z.leb_le; nia).
    now rewrite Hle, orb_true_r.
  - intros v Hstr Hno. unfold Job.setInterval, Job.bind at 1.
    assert (Hc : Job.convert_interval v j = (Normal v, j)).
    { destruct v; try reflexivity. now destruct (Hstr s). }
    rewrite Hc. unfold Job.bind at 1, Job.when at 1.
    destruct (negb (isSafeInteger v) || le_zero v) eqn:Hs; [reflexivity|].
    apply safe_positive_iff in Hs as (z & -> & Hz).
    now destruct (Hno z eq_refl).
Qed.

(** ** Progress *)

(** X15.  [reportProgress] with a value other than [null] and [undefined]
    sets [progress] before anything is sent and never takes it back: when
    the connection or the publication fails, the promise is rejected with
    that error and the job still has the new progress.  The promise settles
    as the publication does. *)
Theorem reportProgress_is_not_rolled_back {S : Type}
    (exec : Async.request -> S -> (exn + value) * S)
    (s : S) (q : Queue.t) (v : value) (j : Job.t) :
  not_nullish v = true ->
  let o := Async.run exec (snd (Async.reportProgress q v j)) s
             (fst (Async.reportProgress q v j)) [] in
  Async.job o = Job.with_progress v j
  /\ (forall e s',
        exec Async.Commandable s = (inl e, s') ->
        Async.settled o = inl e
        /\ Async.requests (Async.trace o) = [Async.Commandable])
  /\ (forall client s1 a s2,
        exec Async.Commandable s = (inr client, s1) ->
        exec (Async.Publish (fst (notification q j v))
                (snd (notification q j v))) s1 = (a, s2) ->
        Async.settled o = a /\ Async.store o = s2).
Proof.
  intros Hv o. subst o. unfold Async.reportProgress. rewrite Hv.
  cbn [fst snd Async.run]. unfold Async.progress_payload, notification.
  cbn [fst snd Job.id Job.with_progress].
  destruct (exec Async.Commandable s) as [[e|client] s1] eqn:Hc.
  - cbn. split; [reflexivity|]. split; [|discriminate].
    intros e' s' [= <- <-]. split; reflexivity.
  - cbn [Async.run].
    match goal with
    | |- context [exec ?r s1] => destruct (exec r s1) as [[e|w] s2] eqn:Hp
    end; cbn [Async.run Async.settled Async.job Async.store Async.trace];
      (split; [reflexivity|]); (split; [discriminate|]);
      intros c' s1' a s2' [= <- <-] Hp'; rewrite Hp in Hp';
      injection Hp' as <- <-; split; reflexivity.
Qed.

Lemma reportProgress_is_not_rolled_back_witness :
  Async.job
    (Async.run (fun _ (n : nat) => (inl (Error "connection lost"), n))
       (snd (Async.reportProgress example_queue (VNum (Num 42)) fresh_job))
       0%nat
       (fst (Async.reportProgress example_queue (VNum (Num 42)) fresh_job))
       [])
  = Job.with_progress (VNum (Num 42)) fresh_job.
Proof.
  apply (reportProgress_is_not_rolled_back
           (fun _ (n : nat) => (inl (Error "connection lost"), n))
           0%nat example_queue (VNum (Num 42)) fresh_job eq_refl).
Defined.

(** X16.  Progress is not part of the stored record.  Reporting progress
    does not change the text that [toData] gives, and decoding that text
    gives the job with [progress] at 0, whatever was reported. *)
Theorem progress_is_not_persisted (q : Queue.t) (v : value) (now : Z)
    (jobId : value) (j : Job.t) :
  valid j = true ->
  Job.toData (fst (Async.reportProgress q v j)) = Job.toData j
  /\ exists j',
       Job.fromData now jobId
         (Job.toData (fst (Async.reportProgress q v j))) = Normal j'
       /\ Job.progress j' = VNum (Num 0)
       /\ Job.data j' = Job.data j /\ Job.options j' = Job.options j
       /\ Job.status j' = Job.status j /\ Job.count j' = Job.count j.
Proof.
  intros Hv.
  assert (Ht : Job.toData (fst (Async.reportProgress q v j)) = Job.toData j).
  { unfold Async.reportProgress. now destruct (not_nullish v). }
  split; [exact Ht|]. exists (decoded jobId j).
  rewrite Ht. split; [now apply fromData_toData|]. repeat split.
Qed.

Lemma progress_is_not_persisted_witness :
  Job.toData (fst (Async.reportProgress example_queue (VNum (Num 70))
                     fresh_job))
  = Job.toData fresh_job.
Proof.
  apply (progress_is_not_persisted example_queue (VNum (Num 70)) 2000
           (VStr "mail-7") fresh_job eq_refl).
Defined.

(** ** Decoding any text *)

(** X17.  Whatever text [fromData] decodes into a job, that job carries the
    id it was asked for, [progress] 0, a truthy payload and truthy
    [options.stacktraces]; and, when decoded at an instant other than 0, a
    truthy [options.timestamp].  The defaults of the constructor apply to
    every decoded record. *)
Theorem fromData_applies_defaults (now : Z) (jobId : value) (text : string)
    (j : Job.t) :
  Job.fromData now jobId text = Normal j ->
  Job.id j = jobId
  /\ Job.progress j = VNum (Num 0)
  /\ truthy (Job.data j) = true
  /\ truthy (obj_get "stacktraces" (Job.options j)) = true
  /\ (now <> 0 -> truthy (obj_get "timestamp" (Job.options j)) = true).
Proof.
  unfold Job.fromData.
  destruct (JSON.parse text) as [d| |]; cbn [bindc]; try discriminate.
  destruct (Job.field "data" d) as [dd| |]; cbn [bindc]; try discriminate.
  destruct (Job.field "options" d) as [dopt| |]; cbn [bindc];
    try discriminate.
  destruct (Job.new now jobId dd dopt) as [job| |] eqn:Hnew; cbn [bindc];
    try discriminate.
  destruct (Job.field "status" d) as [ds| |]; cbn [bindc]; try discriminate.
  destruct (Job.field "count" d) as [dc| |]; cbn [bindc]; try discriminate.
  intros Hj.
  assert (Hfields : Job.id j = Job.id job /\ Job.progress j = Job.progress job
                    /\ Job.data j = Job.data job
                    /\ Job.options j = Job.options job).
  { destruct (truthy dc); injection Hj as <-; repeat split. }
  destruct Hfields as (-> & -> & -> & ->). clear Hj.
  unfold Job.new in Hnew.
  destruct (or_else dopt (VObj [])) as [| | | | | |o]; try discriminate.
  injection Hnew as <-.
  cbn [Job.id Job.progress Job.data Job.options].
  repeat (split; [reflexivity|]).
  split; [|split].
  - unfold or_else. now destruct (truthy dd) eqn:E.
  - rewrite obj_get_set. unfold or_else.
    now destruct (truthy (obj_get "stacktraces" _)) eqn:E.
  - intros Hnow. rewrite obj_get_set_other by discriminate.
    rewrite obj_get_set. unfold or_else.
    destruct (truthy (obj_get "timestamp" o)) eqn:E; [exact E|].
    cbn. now apply negb_true_iff, Z.eqb_neq.
Qed.

Lemma fromData_applies_defaults_witness :
  Job.id (empty_job 5 (VStr "x")) = VStr "x"
  /\ Job.progress (empty_job 5 (VStr "x")) = VNum (Num 0)
  /\ truthy (Job.data (empty_job 5 (VStr "x"))) = true
  /\ truthy (obj_get "stacktraces" (Job.options (empty_job 5 (VStr "x"))))
     = true
  /\ (5 <> 0 ->
      truthy (obj_get "timestamp" (Job.options (empty_job 5 (VStr "x"))))
      = true).
Proof.
  apply (fromData_applies_defaults 5 (VStr "x") "{}"). reflexivity.
Defined.

Lemma parse_not_json (text : string) :
  not_json text -> JSON.parse text = Throw SyntaxError.
Proof.
  unfold not_json, JSON.parse. cbn [parse_value].
  destruct (skip_ws (chars text)) as [|c r]; [reflexivity|].
  unfold starts_value. cbn [existsb chars list_ascii_of_string].
  intros H. repeat (apply orb_false_elim in H as [H ?]).
  repeat match goal with
         | E : _ || _ = false |- _ => apply orb_false_elim in E as [E ?]
         end.
  repeat match goal with E : _ = false |- _ => rewrite E end.
  reflexivity.
Qed.

(** X18.  [fromData] does not guard against text that is not a record.  On
    blank text and on text that does not start like a JSON value it throws
    the [SyntaxError] of [JSON.parse], as it does for every error of the
    parser; on the text of [null] it throws a [TypeError]; and on the text
    of a number, a string, a boolean or an array it builds a job as from an
    empty record: empty payload, default options, and an undefined
    [status]. *)
Theorem fromData_foreign_text (now : Z) (jobId : value) (text : string) :
  (not_json text -> Job.fromData now jobId text = Throw SyntaxError)
  /\ (forall e, JSON.parse text = Throw e ->
        Job.fromData now jobId text = Throw e)
  /\ (JSON.parse text = Normal VNull ->
      Job.fromData now jobId text = Throw TypeError)
  /\ (forall v, JSON.parse text = Normal v ->
        v <> VNull -> v <> VUndef -> (forall o, v <> VObj o) ->
        Job.fromData now jobId text = Normal (empty_job now jobId)).
Proof.
  unfold Job.fromData. split; [|split; [|split]].
  - intros H. now rewrite (parse_not_json text H).
  - now intros e ->.
  - now intros ->.
  - intros v -> Hnull Hundef Hobj.
    destruct v; try reflexivity; [easy|easy|now destruct (Hobj o)].
Qed.

(** ** Methods that address the stored job *)

(** The text of a record is never empty. *)
Lemma toData_truthy (j : Job.t) : truthy (VStr (Job.toData j)) = true.
Proof. reflexivity. Qed.

(** X19.  [fromId], once the queue has handed out its connection and the
    store has answered, has sent exactly one [hget] on the jobs key for the
    id asked for.  A falsy answer (no such record) resolves the promise to
    [null], not to an error; the text of the record of a valid job resolves
    it to that job, with the id asked for and [progress] 0; and a text that
    [fromData] refuses rejects the promise with the error thrown, which is
    not thrown at the caller. *)
Theorem fromId_decodes_stored_record {S : Type}
    (exec : Client.request -> S -> (exn + value) * S)
    (s s1 s2 : S) (q : Queue.t) (now : Z) (jobId client data : value)
    (this : Job.t) :
  exec Client.Commandable s = (inr client, s1) ->
  exec (Client.HGet (Queue.toKey q "jobs") jobId) s1 = (inr data, s2) ->
  let o := Client.run exec (Client.fromId q now jobId) s this [] in
  Client.sent o
  = [Client.Commandable; Client.HGet (Queue.toKey q "jobs") jobId]
  /\ (truthy data = false -> Client.settled o = Normal None)
  /\ (forall j, valid j = true -> data = VStr (Job.toData j) ->
        Client.settled o = Normal (Some (decoded jobId j)))
  /\ (forall text e, data = VStr text -> text <> ""%string ->
        Job.fromData now jobId text = Throw e ->
        Client.settled o = Throw e).
Proof.
  intros Hc Hg o. subst o. unfold Client.fromId.
  cbn [Client.run]. rewrite Hc. cbn [Client.run]. rewrite Hg.
  split; [|split; [|split]].
  - destruct (truthy data); [|reflexivity].
    destruct data; try reflexivity.
    now destruct (Job.fromData now jobId s0).
  - now intros ->.
  - intros j Hv ->. rewrite toData_truthy.
    now rewrite (fromData_toData now jobId j Hv).
  - intros text e -> Hne Hthrow.
    assert (Ht : truthy (VStr text) = true).
    { cbn. apply negb_true_iff. now apply String.eqb_neq. }
    now rewrite Ht, Hthrow.
Qed.

(** A store that holds the record of one job under every id. *)
Lemma fromId_decodes_stored_record_witness :
  Client.settled
    (Client.run
       (fun r (n : nat) =>
          match r with
          | Client.Commandable => (inr VNull, n)
          | _ => (inr (VStr (Job.toData retried_job)), S n)
          end)
       (Client.fromId example_queue 2000 (VStr "42")) 0%nat fresh_job [])
  = Normal (Some (decoded (VStr "42") retried_job)).
Proof.
  destruct (fromId_decodes_stored_record
              (fun r (n : nat) =>
                 match r with
                 | Client.Commandable => (inr VNull, n)
                 | _ => (inr (VStr (Job.toData retried_job)), S n)
                 end)
              0%nat 0%nat 1%nat example_queue 2000 (VStr "42") VNull
              (VStr (Job.toData retried_job)) fresh_job eq_refl eq_refl)
    as (_ & _ & H & _).
  apply (H retried_job); reflexivity.
Defined.

Lemma is_one_iff (a : value) : Client.is_one a = true <-> a = VNum (Num 1).
Proof.
  split; [|now intros ->].
  destruct a as [| |b|[|[|[p|p|]|p]]|s|l|o]; try discriminate. reflexivity.
Qed.

(** X20.  [remove], [retry] and [isInSet] address the job by the id that
    [save] stored in it, which is the answer of the store, whatever that
    answer was.  After a [save] that the store answered with [v], [remove]
    asks the queue to remove [v]; [retry], once connected, sends one
    transaction that takes [v] out of the failed set and pushes it on the
    waiting list; and [isInSet] asks whether [v] is in the named set and
    resolves to a boolean, which is true exactly for the answer 1. *)
Theorem commands_address_saved_id {S T : Type}
    (exec : Async.request -> S -> (exn + value) * S)
    (cexec : Client.request -> T -> (exn + value) * T)
    (s s' : S) (t : T) (q : Queue.t) (j : Job.t) (v : value)
    (set : string) :
  exec (enqueue q j) s = (inr v, s') ->
  let saved := Async.job (Async.run exec (Async.save q j) s j []) in
  Client.sent (Client.run cexec (Client.remove saved) t saved [])
  = [Client.RemoveJob v]
  /\ (forall client t1,
        cexec Client.Commandable t = (inr client, t1) ->
        Client.sent (Client.run cexec (Client.retry q) t saved [])
        = [Client.Commandable;
           Client.Exec [Client.SRem (Queue.toKey q "failed") v;
                        Client.LPush (Queue.toKey q "waiting") v]]
        /\ Client.sent (Client.run cexec (Client.isInSet q set) t saved [])
           = [Client.Commandable; Client.SIsMember (Queue.toKey q set) v]
        /\ forall a t2,
             cexec (Client.SIsMember (Queue.toKey q set) v) t1 = (inr a, t2) ->
             exists b,
               Client.settled
                 (Client.run cexec (Client.isInSet q set) t saved [])
               = Normal (VBool b)
               /\ (b = true <-> a = VNum (Num 1))).
Proof.
  intros He saved. subst saved. rewrite save_run, He.
  cbn [Async.job]. unfold Client.remove, Client.retry, Client.isInSet.
  cbn [Client.run Job.id Job.with_id]. split.
  - now destruct (cexec (Client.RemoveJob v) t) as [[e|w] t'].
  - intros client t1 ->. cbn [Client.run Job.id Job.with_id app].
    split; [|split].
    + now destruct (cexec (Client.Exec _) t1) as [[e|w] t'].
    + now destruct (cexec (Client.SIsMember _ _) t1) as [[e|w] t'].
    + intros a t2 ->. exists (Client.is_one a).
      split; [reflexivity|apply is_one_iff].
Qed.

Lemma commands_address_saved_id_witness :
  Client.sent
    (Client.run (fun _ (n : nat) => (inr (VNum (Num 1)), n))
       (Client.remove
          (Async.job
             (Async.run counting_store (Async.save example_queue fresh_job)
                0%nat fresh_job [])))
       0%nat
       (Async.job
          (Async.run counting_store (Async.save example_queue fresh_job)
             0%nat fresh_job []))
       [])
  = [Client.RemoveJob (VStr "1")].
Proof.
  apply (commands_address_saved_id counting_store
           (fun _ (n : nat) => (inr (VNum (Num 1)), n))
           0%nat 1%nat 0%nat example_queue fresh_job (VStr "1") "failed"
           eq_refl).
Defined.

(** ** What the stored record keeps of a job *)

Lemma kept_none (v : value) : kept v = None -> v = VUndef.
Proof. destruct v as [| | |[|z]| | |]; now try discriminate. Qed.

Lemma kept_prints (v y : value) :
  kept v = Some y -> exists cs, ser y = Some cs.
Proof.
  destruct v as [| |b|[|z]|s|l|o]; cbn [kept]; intros [= <-];
    cbn [ser]; eauto.
Qed.

Lemma kept_truthy (v y : value) : kept v = Some y -> truthy y = truthy v.
Proof.
  destruct v as [| |b|[|z]|s|l|o]; cbn [kept]; now intros [= <-].
Qed.

Lemma members_kept_cons (k : string) (x : value) (o : object) :
  members_kept kept ((k, x) :: o)
  = match kept x with
    | Some y => (k, y) :: members_kept kept o
    | None => members_kept kept o
    end.
Proof. reflexivity. Qed.

Lemma members_with_cons (k : string) (x : value) (o : object) :
  members_with ser ((k, x) :: o)
  = match ser x with
    | Some t => (quote k ++ ":"%char :: t) :: members_with ser o
    | None => members_with ser o
    end.
Proof. reflexivity. Qed.

(** A value and what JSON text keeps of it print alike. *)
Lemma ser_kept (v : value) : forall y, kept v = Some y -> ser v = ser y.
Proof.
  induction v as [| |b|n|s|l IHl|o IHo] using value_nested_ind;
    intros y; cbn [kept]; try (now intros [= <-]).
  - destruct n; now intros [= <-].
  - intros [= <-]. cbn [ser]. do 4 f_equal. unfold elements_with.
    rewrite List.map_map. apply List.map_ext_Forall.
    eapply Forall_impl; [exact IHl|]. intros x Hx. cbv beta in Hx |- *.
    destruct (kept x) as [y|] eqn:E.
    + now rewrite (Hx y eq_refl).
    + now rewrite (kept_none x E).
  - intros [= <-]. cbn [ser]. do 4 f_equal.
    induction o as [|[k x] o IH]; [reflexivity|].
    apply Forall_cons in IHo as [Hx Ho]. cbn [snd] in Hx.
    rewrite members_kept_cons, members_with_cons.
    destruct (kept x) as [y|] eqn:E.
    + rewrite members_with_cons, <- (Hx y eq_refl).
      destruct (kept_prints x y E) as [cs Hcs].
      rewrite (Hx y eq_refl), Hcs. f_equal. now apply IH.
    + rewrite (kept_none x E). cbn [ser]. now apply IH.
Qed.

(** Keeping is idempotent. *)
Lemma kept_idem (v : value) : forall y, kept v = Some y -> kept y = Some y.
Proof.
  induction v as [| |b|n|s|l IHl|o IHo] using value_nested_ind;
    intros y; cbn [kept]; try (now intros [= <-]).
  - destruct n; now intros [= <-].
  - intros [= <-]. cbn [kept]. do 2 f_equal.
    rewrite List.map_map. apply List.map_ext_Forall.
    eapply Forall_impl; [exact IHl|]. intros x Hx. cbv beta in Hx |- *.
    destruct (kept x) as [y|] eqn:E; [|reflexivity].
    change (default VNull (Some y)) with y. now rewrite (Hx y eq_refl).
  - intros [= <-]. cbn [kept]. do 2 f_equal.
    induction o as [|[k x] o IH]; [reflexivity|].
    apply Forall_cons in IHo as [Hx Ho]. cbn [snd] in Hx.
    rewrite members_kept_cons.
    destruct (kept x) as [y|] eqn:E; [|now apply IH].
    rewrite members_kept_cons, (Hx y eq_refl). f_equal. now apply IH.
Qed.

Lemma keys_members_kept (k : string) (o : object) :
  existsb (String.eqb k) (List.map fst o) = false ->
  existsb (String.eqb k) (List.map fst (members_kept kept o)) = false.
Proof.
  induction o as [|[k' x] o IH]; [reflexivity|].
  cbn [List.map fst existsb]. intros H.
  apply orb_false_elim in H as [Hk Ho].
  rewrite members_kept_cons. destruct (kept x); [|now apply IH].
  cbn [List.map fst existsb]. now rewrite Hk, IH.
Qed.

Lemma distinct_members_kept (o : object) :
  distinct (List.map fst o) = true ->
  distinct (List.map fst (members_kept kept o)) = true.
Proof.
  induction o as [|[k x] o IH]; [reflexivity|].
  cbn [List.map fst distinct]. intros H.
  apply andb_true_iff in H as [Hk Ho]. apply negb_true_iff in Hk.
  rewrite members_kept_cons. destruct (kept x); [|now apply IH].
  cbn [List.map fst distinct].
  now rewrite (keys_members_kept k o Hk), IH.
Qed.

(** What is kept of a well-formed value is a plain value. *)
Lemma kept_plain (v : value) :
  wellformed v = true -> forall y, kept v = Some y -> plain y = true.
Proof.
  induction v as [| |b|n|s|l IHl|o IHo] using value_nested_ind;
    intros Hw y; cbn [kept]; try (now intros [= <-]).
  - destruct n; now intros [= <-].
  - intros [= <-]. cbn [plain wellformed] in *.
    induction l as [|x l IH]; [reflexivity|].
    apply Forall_cons in IHl as [Hx Hl]. cbn [forallb] in Hw.
    apply andb_true_iff in Hw as [Hwx Hwl].
    cbn [List.map forallb]. rewrite (IH Hl Hwl), andb_true_r.
    destruct (kept x) as [y|] eqn:E; [|reflexivity].
    exact (Hx Hwx y eq_refl).
  - intros [= <-]. cbn [plain wellformed] in *.
    apply andb_true_iff in Hw as [Hw Hd].
    rewrite (distinct_members_kept o Hd), andb_true_r. clear Hd.
    induction o as [|[k x] o IH]; [reflexivity|].
    apply Forall_cons in IHo as [Hx Ho]. cbn [forallb snd] in Hw, Hx.
    apply andb_true_iff in Hw as [Hwx Hwo].
    rewrite members_kept_cons.
    destruct (kept x) as [y|] eqn:E; [|now apply IH].
    cbn [forallb snd]. now rewrite (Hx Hwx y eq_refl), IH.
Qed.

Lemma obj_get_absent (k : string) (o : object) :
  existsb (String.eqb k) (List.map fst o) = false -> obj_get k o = VUndef.
Proof.
  induction o as [|[k' x] o IH]; [reflexivity|].
  cbn [List.map fst existsb obj_get]. intros H.
  apply orb_false_elim in H as [-> Ho]. now apply IH.
Qed.

(** A property of the kept members is what is kept of the property. *)
Lemma obj_get_kept (k : string) (o : object) :
  distinct (List.map fst o) = true ->
  obj_get k (members_kept kept o) = default VUndef (kept (obj_get k o)).
Proof.
  induction o as [|[k' x] o IH]; [reflexivity|].
  cbn [List.map fst distinct obj_get]. intros H.
  apply andb_true_iff in H as [Hk Ho]. apply negb_true_iff in Hk.
  rewrite members_kept_cons.
  destruct (String.eqb_spec k k') as [->|Hne].
  - destruct (kept x) as [y|] eqn:E.
    + cbn [obj_get]. now rewrite String.eqb_refl.
    + apply obj_get_absent. now apply keys_members_kept.
  - destruct (kept x) as [y|] eqn:E; [|now apply IH].
    cbn [obj_get]. apply String.eqb_neq in Hne. rewrite Hne. now apply IH.
Qed.

(** [JSON.parse(JSON.stringify(o))] on a well-formed object is what JSON
    text keeps of it. *)
Lemma parse_stringify_kept (o : object) :
  wellformed (VObj o) = true ->
  JSON.parse (stringify_object o) = Normal (VObj (members_kept kept o)).
Proof.
  intros Hw.
  assert (Hs : stringify_object o = stringify_object (members_kept kept o)).
  { unfold stringify_object. now rewrite (ser_kept (VObj o) _ eq_refl). }
  rewrite Hs. apply parse_stringify_object.
  exact (kept_plain (VObj o) Hw _ eq_refl).
Qed.

Lemma record_distinct (j : Job.t) :
  distinct (List.map fst (Job.record j)) = true.
Proof.
  rewrite record_shape.
  destruct (Job.count j) as [c|]; [destruct (truthy c)|]; reflexivity.
Qed.

Lemma storable_record_wellformed (j : Job.t) :
  storable j = true -> wellformed (VObj (Job.record j)) = true.
Proof.
  unfold storable. intros H. repeat (apply andb_true_iff in H as [H ?]).
  change (wellformed (VObj (Job.record j)))
    with (forallb (fun kv => wellformed (snd kv)) (Job.record j)
          && distinct (List.map fst (Job.record j))).
  rewrite record_distinct, andb_true_r, record_shape.
  unfold Job.get_count in *.
  destruct (Job.count j) as [c|]; [destruct (truthy c)|];
    cbn [default from_option] in *; unfold id in *;
    cbn [app forallb snd andb];
    repeat match goal with Hx : _ = true |- _ => rewrite Hx end;
    reflexivity.
Qed.

Lemma truthy_kept (v : value) :
  truthy v = true -> exists y, kept v = Some y /\ truthy y = true.
Proof.
  intros Ht. destruct (kept v) as [y|] eqn:E.
  - exists y. split; [reflexivity|]. now rewrite (kept_truthy v y E).
  - rewrite (kept_none v E) in Ht. discriminate.
Qed.

Lemma truthy_obj_get_kept (k : string) (o : object) :
  distinct (List.map fst o) = true -> truthy (obj_get k o) = true ->
  truthy (obj_get k (members_kept kept o)) = true.
Proof.
  intros Hd Ht. rewrite (obj_get_kept k o Hd).
  now destruct (truthy_kept _ Ht) as (y & -> & Hy).
Qed.

(** What [fromData] builds from the text of a storable job. *)
Lemma decode_storable (now : Z) (jobId : value) (j : Job.t) :
  storable j = true ->
  Job.fromData now jobId (Job.toData j) = Normal (stored jobId j).
Proof.
  intros Hs. pose proof (storable_record_wellformed j Hs) as Hw.
  unfold storable in Hs. repeat (apply andb_true_iff in Hs as [Hs ?]).
  match goal with
  | Ho : wellformed (VObj (Job.options j)) = true |- _ =>
      pose proof Ho as Hopts; cbn [wellformed] in Hopts;
      apply andb_true_iff in Hopts as [_ Hdist]
  end.
  unfold Job.fromData, Job.toData. rewrite (parse_stringify_kept _ Hw).
  cbn [bindc Job.field].
  rewrite !(obj_get_kept _ _ (record_distinct j)).
  destruct (record_fields j) as (-> & -> & -> & ->).
  destruct (truthy_kept (Job.data j)) as (d & Hd & Htd); [assumption|].
  unfold stored. rewrite Hd.
  change (kept (VObj (Job.options j)))
    with (Some (VObj (members_kept kept (Job.options j)))).
  cbn [default from_option]. unfold id at 1 2. unfold Job.new.
  change (or_else (VObj (members_kept kept (Job.options j))) (VObj []))
    with (VObj (members_kept kept (Job.options j))).
  cbv iota beta.
  rewrite (or_else_truthy (obj_get "timestamp" _))
    by now apply truthy_obj_get_kept.
  rewrite obj_set_get_same by now apply truthy_obj_get_kept.
  rewrite (or_else_truthy (obj_get "stacktraces" _))
    by now apply truthy_obj_get_kept.
  rewrite obj_set_get_same by now apply truthy_obj_get_kept.
  rewrite (or_else_truthy d) by assumption.
  cbn [bindc].
  destruct (truthy (Job.get_count j)) eqn:Hc.
  - destruct (truthy_kept _ Hc) as (c & -> & Htc).
    cbn [default from_option]. unfold id. now rewrite Htc.
  - reflexivity.
Qed.

(** The decoded job has the text of the job it was decoded from. *)
Lemma toData_stored (jobId : value) (j : Job.t) :
  storable j = true -> Job.toData (stored jobId j) = Job.toData j.
Proof.
  intros Hs. unfold storable in Hs.
  repeat (apply andb_true_iff in Hs as [Hs ?]).
  destruct (truthy_kept (Job.data j)) as (d & Hd & Htd); [assumption|].
  unfold Job.toData, stringify_object.
  rewrite (ser_kept (VObj (Job.record j)) _ eq_refl).
  rewrite (ser_kept (VObj (Job.record (stored jobId j))) _ eq_refl).
  do 3 f_equal. rewrite !record_shape. unfold stored, Job.get_count.
  cbn [Job.data Job.options Job.status Job.count app].
  rewrite !members_kept_cons, Hd. cbn [default from_option]. unfold id at 1.
  rewrite (kept_idem _ _ Hd).
  change (kept (VObj (Job.options j)))
    with (Some (VObj (members_kept kept (Job.options j)))).
  rewrite (kept_idem (VObj (Job.options j))
             (VObj (members_kept kept (Job.options j))) eq_refl).
  do 2 f_equal.
  destruct (kept (Job.status j)) as [st|] eqn:Est.
  - cbn [default from_option]. unfold id at 1. rewrite (kept_idem _ _ Est).
    f_equal.
    destruct (Job.count j) as [c|]; cbn [default from_option]; [|reflexivity].
    unfold id. destruct (truthy c) eqn:Hc; [|reflexivity].
    destruct (truthy_kept _ Hc) as (c' & Hc' & Htc'). rewrite Hc', Htc'.
    rewrite !members_kept_cons, Hc', (kept_idem _ _ Hc'). reflexivity.
  - cbn [default from_option kept].
    destruct (Job.count j) as [c|]; cbn [default from_option]; [|reflexivity].
    unfold id. destruct (truthy c) eqn:Hc; [|reflexivity].
    destruct (truthy_kept _ Hc) as (c' & Hc' & Htc'). rewrite Hc', Htc'.
    rewrite !members_kept_cons, Hc', (kept_idem _ _ Hc'). reflexivity.
Qed.

(** JSON text keeps a plain value as it is. *)
Lemma kept_of_plain (v : value) : plain v = true -> kept v = Some v.
Proof.
  induction v as [| |b|n|s|l IHl|o IHo] using value_nested_ind;
    intros Hp; try reflexivity; try discriminate.
  - now destruct n.
  - cbn [kept plain] in *. do 2 f_equal.
    induction l as [|x l IH]; [reflexivity|].
    apply Forall_cons in IHl as [Hx Hl]. cbn [forallb] in Hp.
    apply andb_true_iff in Hp as [Hpx Hpl].
    cbn [List.map]. now rewrite (Hx Hpx), (IH Hl Hpl).
  - cbn [kept plain] in *. apply andb_true_iff in Hp as [Hp _].
    do 2 f_equal.
    induction o as [|[k x] o IH]; [reflexivity|].
    apply Forall_cons in IHo as [Hx Ho]. cbn [forallb snd] in Hp, Hx.
    apply andb_true_iff in Hp as [Hpx Hpo].
    now rewrite members_kept_cons, (Hx Hpx), (IH Ho Hpo).
Qed.

Lemma plain_wellformed (v : value) : plain v = true -> wellformed v = true.
Proof.
  induction v as [| |b|n|s|l IHl|o IHo] using value_nested_ind;
    intros Hp; try reflexivity.
  - now destruct n.
  - cbn [wellformed plain] in *.
    induction l as [|x l IH]; [reflexivity|].
    apply Forall_cons in IHl as [Hx Hl]. cbn [forallb] in *.
    apply andb_true_iff in Hp as [Hpx Hpl].
    now rewrite (Hx Hpx), (IH Hl Hpl).
  - cbn [wellformed plain] in *. apply andb_true_iff in Hp as [Hp ->].
    rewrite andb_true_r.
    induction o as [|[k x] o IH]; [reflexivity|].
    apply Forall_cons in IHo as [Hx Ho]. cbn [forallb snd] in *.
    apply andb_true_iff in Hp as [Hpx Hpo].
    now rewrite (Hx Hpx), (IH Ho Hpo).
Qed.

Lemma valid_storable (j : Job.t) : valid j = true -> storable j = true.
Proof.
  unfold valid, storable, Job.get_count. intros H.
  repeat (apply andb_true_iff in H as [H ?]).
  rewrite !plain_wellformed by assumption.
  repeat match goal with Hx : truthy _ = true |- _ => rewrite Hx end.
  destruct (Job.count j) as [c|]; [|reflexivity].
  match goal with Hc : _ && _ = true |- _ =>
    apply andb_true_iff in Hc as [Hc _] end.
  cbn [default from_option]. unfold id. now rewrite plain_wellformed.
Qed.

Lemma stored_valid (jobId : value) (j : Job.t) :
  valid j = true -> stored jobId j = decoded jobId j.
Proof.
  unfold valid, stored, decoded, Job.get_count. intros H.
  repeat (apply andb_true_iff in H as [H ?]).
  match goal with
  | Ho : plain (VObj (Job.options j)) = true |- _ =>
      pose proof (kept_of_plain _ Ho) as Hko; cbn [kept] in Hko;
      injection Hko as Hko
  end.
  rewrite Hko, !kept_of_plain by assumption.
  cbn [default from_option]. unfold id. f_equal.
  destruct (Job.count j) as [c|]; [|reflexivity].
  match goal with Hc : _ && _ = true |- _ =>
    apply andb_true_iff in Hc as [Hpc Htc] end.
  cbn [default from_option]. unfold id. now rewrite Htc, kept_of_plain.
Qed.

(** X21.  Decoding the stored text of a job is idempotent, also for a job
    that JSON text does not represent exactly.  For every job with
    well-formed fields and truthy payload, timestamp and stack traces, the
    text parses to the record without its undefined members and with
    [null] for [NaN] and for undefined array elements; decoding yields the
    job with these kept fields; that job prints the same text again, so
    that decoding its text gives the job itself; and for a valid job the
    decoded fields are the original ones. *)
Theorem storable_job_settles (now now' : Z) (jobId : value) (j : Job.t) :
  storable j = true ->
  JSON.parse (Job.toData j)
  = Normal (VObj (members_kept kept (Job.record j)))
  /\ Job.fromData now jobId (Job.toData j) = Normal (stored jobId j)
  /\ Job.toData (stored jobId j) = Job.toData j
  /\ Job.fromData now' jobId (Job.toData (stored jobId j))
     = Normal (stored jobId j)
  /\ (valid j = true -> stored jobId j = decoded jobId j).
Proof.
  intros Hs. split; [|split; [|split; [|split]]].
  - apply parse_stringify_kept. now apply storable_record_wellformed.
  - now apply decode_storable.
  - now apply toData_stored.
  - rewrite (toData_stored jobId j Hs). now apply decode_storable.
  - apply stored_valid.
Qed.

Lemma storable_job_settles_witness :
  Job.fromData 2000 (VStr "7")
    (Job.toData
       (example_job (VStr "7")
          (obj_set "retries" VUndef
             (obj_set "timeout" (VNum NaN) example_options))))
  = Normal
      (example_job (VStr "7")
         (obj_set "timeout" VNull example_options)).
Proof.
  apply (storable_job_settles 2000 2000 (VStr "7")
           (example_job (VStr "7")
              (obj_set "retries" VUndef
                 (obj_set "timeout" (VNum NaN) example_options)))).
  reflexivity.
Defined.

Lemma wellformed_obj_set (k : string) (v : value) (o : object) :
  wellformed (VObj o) = true -> wellformed v = true ->
  wellformed (VObj (obj_set k v o)) = true.
Proof.
  cbn [wellformed]. intros Ho Hv. apply andb_true_iff in Ho as [Hvals Hd].
  apply andb_true_iff. split.
  - clear Hd. induction o as [|[k' x] o IH]; cbn [obj_set forallb snd].
    + now rewrite Hv.
    + cbn [forallb snd] in Hvals. apply andb_true_iff in Hvals as [Hx Ho].
      destruct (String.eqb k k'); cbn [forallb snd].
      * now rewrite Hv, Ho.
      * now rewrite Hx, IH.
  - rewrite keys_obj_set.
    destruct (existsb (String.eqb k) (List.map fst o)) eqn:E; auto.
    now apply distinct_snoc.
Qed.

Lemma storable_set_option (k : string) (v : value) (j : Job.t) :
  k <> "timestamp"%string -> k <> "stacktraces"%string ->
  wellformed v = true -> storable j = true ->
  storable (Job.set_option k v j) = true.
Proof.
  intros Hk1 Hk2 Hv. unfold storable, Job.set_option, Job.get_count.
  cbn [Job.with_options Job.data Job.options Job.status Job.count].
  intros H. repeat (apply andb_true_iff in H as [H ?]).
  rewrite !obj_get_set_other by congruence.
  rewrite wellformed_obj_set by assumption.
  repeat match goal with Hx : _ = true |- _ => rewrite Hx end.
  reflexivity.
Qed.

Lemma has_key_keys (k : string) (o : object) :
  has_key k o = existsb (String.eqb k) (List.map fst o).
Proof.
  unfold has_key. induction o as [|[k' x] o IH]; [reflexivity|].
  cbn [existsb List.map fst]. now rewrite IH.
Qed.

Lemma has_key_obj_set (k : string) (v : value) (o : object) :
  has_key k (obj_set k v o) = true.
Proof.
  unfold has_key. induction o as [|[k' x] o IH]; cbn [obj_set existsb fst].
  - now rewrite String.eqb_refl.
  - destruct (String.eqb k k') eqn:E; cbn [existsb fst].
    + now rewrite String.eqb_refl.
    + now rewrite E, IH.
Qed.

(** An object member that is [undefined] is not a member of what is
    kept. *)
Lemma has_key_kept_undef (k : string) (o : object) :
  distinct (List.map fst o) = true -> obj_get k o = VUndef ->
  has_key k (members_kept kept o) = false.
Proof.
  rewrite has_key_keys.
  induction o as [|[k' x] o IH]; [reflexivity|].
  cbn [List.map fst distinct obj_get]. intros H.
  apply andb_true_iff in H as [Hk Ho]. apply negb_true_iff in Hk.
  rewrite members_kept_cons.
  destruct (String.eqb_spec k k') as [->|Hne].
  - intros ->. cbn [kept]. now apply keys_members_kept.
  - intros Hu. destruct (kept x); [|now apply IH].
    cbn [List.map fst existsb]. apply String.eqb_neq in Hne.
    now rewrite Hne, IH.
Qed.

Lemma obj_get_plain_kept (k : string) (o : object) :
  forallb (fun kv => plain (snd kv)) o = true ->
  default VUndef (kept (obj_get k o)) = obj_get k o.
Proof.
  induction o as [|[k' x] o IH]; [reflexivity|].
  cbn [forallb snd obj_get]. intros H.
  apply andb_true_iff in H as [Hx Ho].
  destruct (String.eqb k k'); [|now apply IH].
  now rewrite (kept_of_plain x Hx).
Qed.

(** X22.  An argument that [retries] or [timeout] accepts without its being
    a number does not survive the store.  On a valid job, [undefined] and
    [NaN] are accepted and put in the options as they are; but the job
    decoded from the stored text has no such option where [undefined] was
    given, and has [null] where [NaN] was given.  Every other option is
    decoded as it was. *)
Theorem unchecked_arguments_are_not_stored (now : Z) (jobId n : value)
    (j : Job.t) :
  valid j = true ->
  n = VUndef \/ n = VNum NaN ->
  Job.retries n j = (Normal Job.This, Job.set_option "retries" n j)
  /\ Job.timeout n j = (Normal Job.This, Job.set_option "timeout" n j)
  /\ forall k, k = "retries"%string \/ k = "timeout"%string ->
       has_key k (Job.options (Job.set_option k n j)) = true
       /\ obj_get k (Job.options (Job.set_option k n j)) = n
       /\ exists j',
            Job.fromData now jobId (Job.toData (Job.set_option k n j))
            = Normal j'
            /\ (n = VUndef -> has_key k (Job.options j') = false)
            /\ (n = VNum NaN -> obj_get k (Job.options j') = VNull)
            /\ forall k', k' <> k ->
                 obj_get k' (Job.options j') = obj_get k' (Job.options j).
Proof.
  intros Hv Hn.
  split; [destruct Hn as [-> | ->]; reflexivity|].
  split; [destruct Hn as [-> | ->]; reflexivity|].
  intros k Hk.
  split; [apply has_key_obj_set|]. split; [apply obj_get_set|].
  assert (Hwn : wellformed n = true) by (destruct Hn as [-> | ->]; reflexivity).
  assert (Hs : storable (Job.set_option k n j) = true).
  { apply storable_set_option; try assumption;
      [destruct Hk as [-> | ->]; discriminate..|now apply valid_storable]. }
  exists (stored jobId (Job.set_option k n j)).
  split; [now apply decode_storable|].
  assert (Hd : distinct (List.map fst (obj_set k n (Job.options j))) = true).
  { unfold storable in Hs. repeat (apply andb_true_iff in Hs as [Hs ?]).
    match goal with
    | Ho : wellformed (VObj _) = true |- _ =>
        cbn [wellformed] in Ho; now apply andb_true_iff in Ho as [_ Ho]
    end. }
  assert (Hp : forallb (fun kv => plain (snd kv)) (Job.options j) = true).
  { unfold valid in Hv. repeat (apply andb_true_iff in Hv as [Hv ?]).
    match goal with
    | Ho : plain (VObj _) = true |- _ =>
        cbn [plain] in Ho; now apply andb_true_iff in Ho as [Ho _]
    end. }
  cbn [stored Job.options Job.set_option Job.with_options].
  split; [|split].
  - intros ->. apply has_key_kept_undef; [exact Hd|apply obj_get_set].
  - intros ->. now rewrite (obj_get_kept _ _ Hd), obj_get_set.
  - intros k' Hk'. rewrite (obj_get_kept _ _ Hd).
    rewrite obj_get_set_other by assumption.
    now apply obj_get_plain_kept.
Qed.

Lemma unchecked_arguments_are_not_stored_witness :
  Job.retries (VNum NaN) fresh_job
  = (Normal Job.This, Job.set_option "retries" (VNum NaN) fresh_job)
  /\ exists j',
       Job.fromData 2000 (VStr "mail-7")
         (Job.toData (Job.set_option "retries" (VNum NaN) fresh_job))
       = Normal j'
       /\ obj_get "retries" (Job.options j') = VNull.
Proof.
  destruct (unchecked_arguments_are_not_stored 2000 (VStr "mail-7") (VNum NaN)
              fresh_job eq_refl (or_intror eq_refl)) as (Hr & _ & H).
  split; [exact Hr|].
  destruct (H "retries"%string (or_introl eq_refl))
    as (_ & _ & j' & Hj' & _ & Hnan & _).
  exists j'. split; [exact Hj'|]. now apply Hnan.
Defined.

(** ** Saving, then saving again or fetching *)

(** X23.  [save] called again on a job that the store has created does not
    ask for a new id: the second request is the same operation with the
    same record text and the same delay, and its candidate id is the id
    that the first answer assigned. *)
Theorem save_again_reuses_id {S : Type}
    (exec : Async.request -> S -> (exn + value) * S)
    (s s' : S) (q : Queue.t) (j : Job.t) (v : value) :
  exec (enqueue q j) s = (inr v, s') ->
  truthy v = true ->
  let saved := Async.job (Async.run exec (Async.save q j) s j []) in
  Async.requests
    (Async.trace (Async.run exec (Async.save q saved) s' saved []))
  = [enqueue q saved]
  /\ candidate saved = v
  /\ Job.toData saved = Job.toData j
  /\ obj_get "delay" (Job.options saved) = obj_get "delay" (Job.options j)
  /\ enqueue q saved = enqueue q (Job.with_id v j).
Proof.
  intros He Hv saved. subst saved. rewrite (save_run exec s q j), He.
  cbn [Async.job].
  split; [apply save_requests|]. split; [|repeat split].
  unfold candidate. cbn [Job.id Job.with_id]. now apply or_else_truthy.
Qed.

Lemma save_again_reuses_id_witness :
  candidate
    (Async.job
       (Async.run counting_store (Async.save example_queue fresh_job) 0%nat
          fresh_job []))
  = VStr "1".
Proof.
  apply (save_again_reuses_id counting_store 0%nat 1%nat example_queue
           fresh_job (VStr "1") eq_refl eq_refl).
Defined.

(** X24.  A valid job that was saved is fetched back as it is.  If the
    store answers [save] with the id [v] and later answers the [hget] of
    [fromId] for [v] with the record text that [save] handed over, then
    [fromId] resolves to the saved job with [progress] at 0: the same id,
    payload, options, status and count. *)
Theorem saved_job_is_fetched_back {S T : Type}
    (exec : Async.request -> S -> (exn + value) * S)
    (cexec : Client.request -> T -> (exn + value) * T)
    (s s' : S) (t t1 t2 : T) (q : Queue.t) (now : Z) (j this : Job.t)
    (v client : value) :
  valid j = true ->
  exec (enqueue q j) s = (inr v, s') ->
  cexec Client.Commandable t = (inr client, t1) ->
  cexec (Client.HGet (Queue.toKey q "jobs") v) t1
  = (inr (VStr (Job.toData j)), t2) ->
  let saved := Async.job (Async.run exec (Async.save q j) s j []) in
  Client.settled (Client.run cexec (Client.fromId q now v) t this [])
  = Normal (Some (Job.with_progress (VNum (Num 0)) saved)).
Proof.
  intros Hv He Hc Hg saved. subst saved. rewrite save_run, He.
  cbn [Async.job]. unfold Client.fromId.
  cbn [Client.run]. rewrite Hc. cbn [Client.run]. rewrite Hg.
  rewrite toData_truthy, (fromData_toData now v j Hv). reflexivity.
Qed.

Lemma saved_job_is_fetched_back_witness :
  Client.settled
    (Client.run
       (fun r (n : nat) =>
          match r with
          | Client.Commandable => (inr VNull, n)
          | _ => (inr (VStr (Job.toData fresh_job)), S n)
          end)
       (Client.fromId example_queue 2000 (VStr "1")) 0%nat fresh_job [])
  = Normal
      (Some
         (Job.with_progress (VNum (Num 0))
            (Async.job
               (Async.run counting_store (Async.save example_queue fresh_job)
                  0%nat fresh_job [])))).
Proof.
  apply (saved_job_is_fetched_back counting_store
           (fun r (n : nat) =>
              match r with
              | Client.Commandable => (inr VNull, n)
              | _ => (inr (VStr (Job.toData fresh_job)), S n)
              end)
           0%nat 1%nat 0%nat 0%nat 1%nat example_queue 2000 fresh_job
           fresh_job (VStr "1") VNull eq_refl eq_refl eq_refl eq_refl).
Defined.

(** ** The progress notification, as a subscriber reads it *)

(** X25.  The payload that [reportProgress] publishes parses to an object
    with the members [id], [event] and [data] when the id and the progress
    are values that JSON text represents without loss.  In general it
    parses to what JSON text keeps of these members: in particular, for a
    job that has no id yet, the notification carries no [id] member at
    all, only the event name and the data. *)
Theorem progress_payload_parses (j : Job.t) (v : value) :
  wellformed (Job.id j) = true -> wellformed v = true ->
  JSON.parse (Async.progress_payload j v)
  = Normal
      (VObj (members_kept kept
               [("id", Job.id j); ("event", VStr "progress");
                ("data", v)]%string))
  /\ (plain (Job.id j) = true -> plain v = true ->
      JSON.parse (Async.progress_payload j v)
      = Normal
          (VObj [("id", Job.id j); ("event", VStr "progress");
                 ("data", v)]%string))
  /\ (Job.id j = VUndef -> not_nullish v = true ->
      exists v',
        kept v = Some v'
        /\ JSON.parse (Async.progress_payload j v)
           = Normal (VObj [("event", VStr "progress"); ("data", v')]%string)).
Proof.
  intros Hid Hv.
  assert (Hp : JSON.parse (Async.progress_payload j v)
               = Normal
                   (VObj (members_kept kept
                            [("id", Job.id j); ("event", VStr "progress");
                             ("data", v)]%string))).
  { unfold Async.progress_payload. apply parse_stringify_kept.
    cbn [wellformed forallb snd List.map fst distinct existsb].
    now rewrite Hid, Hv. }
  split; [exact Hp|]. split.
  - intros Hpid Hpv. rewrite Hp. rewrite !members_kept_cons.
    now rewrite (kept_of_plain _ Hpid), (kept_of_plain _ Hpv).
  - intros Hu Hnn. rewrite Hp, Hu. rewrite !members_kept_cons.
    destruct (kept v) as [v'|] eqn:E.
    + exists v'. split; reflexivity.
    + rewrite (kept_none v E) in Hnn. discriminate.
Qed.

Lemma progress_payload_parses_witness :
  exists v',
    kept (VNum (Num 42)) = Some v'
    /\ JSON.parse
         (Async.progress_payload (example_job VUndef example_options)
            (VNum (Num 42)))
       = Normal (VObj [("event", VStr "progress"); ("data", v')]%string).
Proof.
  destruct (progress_payload_parses (example_job VUndef example_options)
              (VNum (Num 42)) eq_refl eq_refl) as (_ & _ & H).
  apply H; reflexivity.
Defined.
